(** * Alatacraft: row-level security policies, schema migrations and seeds

    The storefront keeps its data in a Postgres database that is prepared by
    the SQL scripts under [supabase/migrations].  This development embeds
    those scripts: every SQL statement is a state transformer over a model
    of the database ([store]), a script is the list of its statements, and
    the engine's rules the scripts rely on (row-level security, uniqueness,
    foreign keys, [ON CONFLICT], triggers) are the primitives below.  The
    role dispatch of [main.js] is embedded at the end. *)

From Stdlib Require Import List String Ascii ZArith NArith Bool Lia.
Import ListNotations.
Open Scope string_scope.
Open Scope list_scope.

(** ** SQL values and rows *)

(** A cell of a table.  [VUuid] stands for a uuid, numbered rather than
    spelled; [VNum m k] is the decimal [m / 10^k] of a [numeric] column;
    [VNow] is the value of [now()], whose instant is not modelled. *)
Inductive value : Type :=
| VNull
| VUuid (u : N)
| VText (s : string)
| VInt (z : Z)
| VNum (mantissa : Z) (scale : nat)
| VBool (b : bool)
| VArr (l : list string)
| VJson (o : list (string * string))
| VNow.

Fixpoint list_eqb {A : Type} (eqb : A -> A -> bool) (l1 l2 : list A) : bool :=
  match l1, l2 with
  | [], [] => true
  | a :: l1', b :: l2' => eqb a b && list_eqb eqb l1' l2'
  | _, _ => false
  end.

Definition pair_eqb (p q : string * string) : bool :=
  String.eqb (fst p) (fst q) && String.eqb (snd p) (snd q).

(** Equality of two cells, by representation. *)
Definition value_eqb (a b : value) : bool :=
  match a, b with
  | VNull, VNull => true
  | VUuid x, VUuid y => N.eqb x y
  | VText x, VText y => String.eqb x y
  | VInt x, VInt y => Z.eqb x y
  | VNum m k, VNum m' k' => Z.eqb m m' && Nat.eqb k k'
  | VBool x, VBool y => Bool.eqb x y
  | VArr x, VArr y => list_eqb String.eqb x y
  | VJson x, VJson y => list_eqb pair_eqb x y
  | VNow, VNow => true
  | _, _ => false
  end.

(** [a = b] in SQL: unknown as soon as one side is NULL. *)
Definition sql_eq (a b : value) : option bool :=
  match a, b with
  | VNull, _ => None
  | _, VNull => None
  | _, _ => Some (value_eqb a b)
  end.

(** [a AND b] in SQL's three-valued logic. *)
Definition sql_and (a b : option bool) : option bool :=
  match a, b with
  | Some false, _ => Some false
  | _, Some false => Some false
  | Some true, Some true => Some true
  | _, _ => None
  end.

(** A WHERE clause or a policy keeps a row only when its condition is true
    (neither false nor unknown). *)
Definition holds (c : option bool) : bool :=
  match c with
  | Some true => true
  | _ => false
  end.

(** A row maps column names to cells, in the table's column order. *)
Definition row : Type := list (string * value).

Fixpoint col (r : row) (c : string) : value :=
  match r with
  | [] => VNull
  | (k, v) :: r' => if String.eqb k c then v else col r' c
  end.

Fixpoint set_col (c : string) (v : value) (r : row) : row :=
  match r with
  | [] => []
  | (k, w) :: r' => if String.eqb k c then (k, v) :: r' else (k, w) :: set_col c v r'
  end.

(** [json ->> key] *)
Definition json_text (j : value) (k : string) : value :=
  match j with
  | VJson o =>
      match find (fun kv => String.eqb (fst kv) k) o with
      | Some kv => VText (snd kv)
      | None => VNull
      end
  | _ => VNull
  end.

(** ** Outcomes *)

Inductive error : Type :=
| UndefinedTable (t : string)
| UndefinedColumn (t c : string)
| UndefinedFunction (f : string)
| DuplicateObject (name : string)
| NoUniqueConstraintForOnConflict (t c : string)
| UniqueViolation (constraint_name : string)
| NotNullViolation (t c : string)
| ForeignKeyViolation (constraint_name : string)
| CheckViolation (constraint_name : string)
| InvalidEnumValue (type_name : string) (v : string)
| CascadeTooDeep
| Forbidden.

Inductive result (A : Type) : Type :=
| Ok (a : A)
| Err (e : error).
Arguments Ok {A} a.
Arguments Err {A} e.

Definition bind {A B : Type} (m : result A) (f : A -> result B) : result B :=
  match m with
  | Ok a => f a
  | Err e => Err e
  end.

Notation "x <- m ;; k" := (bind m (fun x => k))
  (at level 61, m at next level, right associativity).
Notation "' pat <- m ;; k" := (bind m (fun x => match x with pat => k end))
  (at level 61, pat pattern, m at next level, right associativity).

(** ** The catalog: columns, constraints, policies *)

Inductive default : Type :=
| DNone
| DConst (v : value)
| DGenUuid
| DSerial
| DNow.

Inductive fk_action : Type := NoAction | Restrict | Cascade | SetNull.

(** What a column definition may carry besides its type. *)
Inductive col_attr : Type :=
| NOT_NULL
| PRIMARY_KEY
| UNIQUE
| DEFAULT (d : default)
| REFERENCES (t c : string) (a : fk_action)
| CHECK (p : row -> option bool).

Record coldef : Type := {
  cd_name : string;
  cd_type : string;
  cd_attrs : list col_attr
}.

Definition column (n ty : string) (attrs : list col_attr) : coldef :=
  {| cd_name := n; cd_type := ty; cd_attrs := attrs |}.

Inductive con_kind : Type :=
| PrimaryKey (c : string)
| Unique (c : string)
| ForeignKey (c : string) (ref_table ref_col : string) (a : fk_action)
| Check (p : row -> option bool).

Record constraint : Type := {
  con_name : string;
  con_kind_of : con_kind
}.

Inductive command : Type := ALL | SELECT | INSERT | UPDATE | DELETE.

Definition command_eqb (a b : command) : bool :=
  match a, b with
  | ALL, ALL | SELECT, SELECT | INSERT, INSERT | UPDATE, UPDATE | DELETE, DELETE => true
  | _, _ => false
  end.

(** The rows of every table, as a policy's sub-select reads them. *)
Definition db : Type := string -> list row.

(** A policy expression is evaluated against the database, the caller's
    [auth.uid()] and the candidate row. *)
Definition pexpr : Type := db -> value -> row -> option bool.

Record policy : Type := {
  pol_name : string;
  pol_cmd : command;
  pol_using : option pexpr;
  pol_check : option pexpr
}.

Record table : Type := {
  t_columns : list coldef;
  t_constraints : list constraint;
  t_rls : bool;
  t_policies : list policy;
  t_rows : list row
}.

(** The body of a trigger function: from the NEW row to the row it inserts,
    given as table, column list and values. *)
Definition trigger_fn : Type := row -> result (string * list string * list value).

Record trigger : Type := {
  tg_name : string;
  tg_table : string;
  tg_function : string
}.

Record store : Type := {
  st_extensions : list string;
  st_types : list (string * list string);
  st_tables : list (string * table);
  st_functions : list (string * trigger_fn);
  st_triggers : list trigger
}.

(** ** Reading and writing the store *)

Fixpoint lookup {A : Type} (k : string) (l : list (string * A)) : option A :=
  match l with
  | [] => None
  | (k', a) :: l' => if String.eqb k' k then Some a else lookup k l'
  end.

(** Replaces the entry of [k] where it stands, or adds it at the end. *)
Fixpoint put {A : Type} (k : string) (a : A) (l : list (string * A)) : list (string * A) :=
  match l with
  | [] => [(k, a)]
  | (k', a') :: l' => if String.eqb k' k then (k', a) :: l' else (k', a') :: put k a l'
  end.

Definition get_table (s : store) (t : string) : option table :=
  lookup t (st_tables s).

Definition set_table (t : string) (tb : table) (s : store) : store :=
  {| st_extensions := st_extensions s;
     st_types := st_types s;
     st_tables := put t tb (st_tables s);
     st_functions := st_functions s;
     st_triggers := st_triggers s |}.

Definition rows_of (s : store) (t : string) : list row :=
  match get_table s t with
  | Some tb => t_rows tb
  | None => []
  end.

Definition policies_of (s : store) (t : string) : list policy :=
  match get_table s t with
  | Some tb => t_policies tb
  | None => []
  end.

Definition constraints_of (s : store) (t : string) : list constraint :=
  match get_table s t with
  | Some tb => t_constraints tb
  | None => []
  end.

Definition db_of (s : store) : db := rows_of s.

Definition with_rows (tb : table) (rs : list row) : table :=
  {| t_columns := t_columns tb; t_constraints := t_constraints tb;
     t_rls := t_rls tb; t_policies := t_policies tb; t_rows := rs |}.

Definition with_policies (tb : table) (ps : list policy) : table :=
  {| t_columns := t_columns tb; t_constraints := t_constraints tb;
     t_rls := t_rls tb; t_policies := ps; t_rows := t_rows tb |}.

Definition with_rls (tb : table) (b : bool) : table :=
  {| t_columns := t_columns tb; t_constraints := t_constraints tb;
     t_rls := b; t_policies := t_policies tb; t_rows := t_rows tb |}.

Definition with_constraints (tb : table) (cs : list constraint) : table :=
  {| t_columns := t_columns tb; t_constraints := cs;
     t_rls := t_rls tb; t_policies := t_policies tb; t_rows := t_rows tb |}.

(** A statement of a script, and a script. *)
Definition step : Type := store -> result store.

Fixpoint run (script : list step) (s : store) : result store :=
  match script with
  | [] => Ok s
  | st :: rest => s' <- st s ;; run rest s'
  end.

(** ** Data definition statements *)

Definition has_name (n : string) (p : policy) : bool := String.eqb (pol_name p) n.

Definition has_policy (n : string) (ps : list policy) : bool := existsb (has_name n) ps.

Definition drop_named (n : string) (ps : list policy) : list policy :=
  filter (fun p => negb (has_name n p)) ps.

Definition has_column_in (c : string) (tb : table) : bool :=
  existsb (fun cd => String.eqb (cd_name cd) c) (t_columns tb).

Definition has_constraint_in (n : string) (tb : table) : bool :=
  existsb (fun k => String.eqb (con_name k) n) (t_constraints tb).

(** information_schema.columns lists nothing for a table that does not exist. *)
Definition has_column (s : store) (t c : string) : bool :=
  match get_table s t with
  | Some tb => has_column_in c tb
  | None => false
  end.

Definition cd_notnull (cd : coldef) : bool :=
  existsb (fun a => match a with NOT_NULL | PRIMARY_KEY => true | _ => false end) (cd_attrs cd).

Definition cd_default (cd : coldef) : default :=
  match find (fun a => match a with DEFAULT _ => true | _ => false end) (cd_attrs cd) with
  | Some (DEFAULT d) => d
  | _ => DNone
  end.

(** The constraints a column definition declares, under the names the engine
    gives them: [<table>_pkey], [<table>_<column>_key],
    [<table>_<column>_fkey], [<table>_<column>_check]. *)
Definition constraints_of_coldef (t : string) (cd : coldef) : list constraint :=
  flat_map
    (fun a =>
       match a with
       | PRIMARY_KEY => [ {| con_name := (t ++ "_pkey")%string; con_kind_of := PrimaryKey (cd_name cd) |} ]
       | UNIQUE => [ {| con_name := (t ++ "_" ++ cd_name cd ++ "_key")%string; con_kind_of := Unique (cd_name cd) |} ]
       | REFERENCES rt rc a =>
           [ {| con_name := (t ++ "_" ++ cd_name cd ++ "_fkey")%string;
                con_kind_of := ForeignKey (cd_name cd) rt rc a |} ]
       | CHECK p => [ {| con_name := (t ++ "_" ++ cd_name cd ++ "_check")%string; con_kind_of := Check p |} ]
       | _ => []
       end)
    (cd_attrs cd).

(** The first table a list of constraints refers to that is not there. *)
Fixpoint missing_reference (s : store) (self : string) (cs : list constraint) : option string :=
  match cs with
  | [] => None
  | k :: cs' =>
      match con_kind_of k with
      | ForeignKey _ rt _ _ =>
          if String.eqb rt self then missing_reference s self cs'
          else match get_table s rt with
               | Some _ => missing_reference s self cs'
               | None => Some rt
               end
      | _ => missing_reference s self cs'
      end
  end.

Definition uuids_of (rs : list row) : list N :=
  flat_map (fun r => match col r "id" with VUuid u => [u] | _ => [] end) rs.

(** [gen_random_uuid()] / [uuid_generate_v4()]: an identifier that no row of
    the table carries yet. *)
Definition fresh_uuid (rs : list row) : N :=
  N.succ (fold_right N.max 0%N (uuids_of rs)).

Definition ints_of (rs : list row) : list Z :=
  flat_map (fun r => match col r "id" with VInt z => [z] | _ => [] end) rs.

(** SERIAL / GENERATED ALWAYS AS IDENTITY: the next value of the column's
    sequence, taken to be the successor of the largest id in the table. *)
Definition next_serial (rs : list row) : Z :=
  Z.succ (fold_right Z.max 0%Z (ints_of rs)).

Definition default_cell (rs : list row) (d : default) : value :=
  match d with
  | DNone => VNull
  | DConst v => v
  | DGenUuid => VUuid (fresh_uuid rs)
  | DSerial => VInt (next_serial rs)
  | DNow => VNow
  end.

Fixpoint distinct_values (vs : list value) : bool :=
  match vs with
  | [] => true
  | v :: vs' => negb (existsb (value_eqb v) vs') && distinct_values vs'
  end.

Definition non_null_cells (c : string) (rs : list row) : list value :=
  filter (fun v => negb (value_eqb v VNull)) (map (fun r => col r c) rs).

(** Does the content [rs] of a table satisfy constraint [k]? *)
Definition rows_satisfy (s : store) (k : constraint) (rs : list row) : bool :=
  match con_kind_of k with
  | PrimaryKey c | Unique c => distinct_values (non_null_cells c rs)
  | ForeignKey c rt rc _ =>
      forallb (fun v => existsb (fun r' => value_eqb (col r' rc) v) (rows_of s rt))
              (non_null_cells c rs)
  | Check p => forallb (fun r => match p r with Some false => false | _ => true end) rs
  end.

Definition violation (k : constraint) : error :=
  match con_kind_of k with
  | PrimaryKey _ | Unique _ => UniqueViolation (con_name k)
  | ForeignKey _ _ _ _ => ForeignKeyViolation (con_name k)
  | Check _ => CheckViolation (con_name k)
  end.

Fixpoint first_violated (s : store) (cs : list constraint) (rs : list row) : option error :=
  match cs with
  | [] => None
  | k :: cs' => if rows_satisfy s k rs then first_violated s cs' rs else Some (violation k)
  end.

(** CREATE EXTENSION IF NOT EXISTS *)
Definition create_extension_if_not_exists (name : string) : step := fun s =>
  Ok {| st_extensions :=
          if existsb (String.eqb name) (st_extensions s) then st_extensions s
          else st_extensions s ++ [name];
        st_types := st_types s; st_tables := st_tables s;
        st_functions := st_functions s; st_triggers := st_triggers s |}.

(** DO $$ BEGIN IF NOT EXISTS (SELECT 1 FROM pg_type WHERE typname = ..) THEN
    CREATE TYPE .. AS ENUM (..); END IF; END $$ *)
Definition create_enum_if_not_exists (name : string) (labels : list string) : step := fun s =>
  match lookup name (st_types s) with
  | Some _ => Ok s
  | None =>
      Ok {| st_extensions := st_extensions s;
            st_types := st_types s ++ [(name, labels)];
            st_tables := st_tables s;
            st_functions := st_functions s; st_triggers := st_triggers s |}
  end.

(** CREATE TABLE IF NOT EXISTS: nothing at all happens when a table of that
    name exists, whatever its shape. *)
Definition create_table_if_not_exists (t : string) (cols : list coldef) : step := fun s =>
  match get_table s t with
  | Some _ => Ok s
  | None =>
      let cs := flat_map (constraints_of_coldef t) cols in
      match missing_reference s t cs with
      | Some rt => Err (UndefinedTable rt)
      | None =>
          Ok (set_table t {| t_columns := cols; t_constraints := cs; t_rls := false;
                             t_policies := []; t_rows := [] |} s)
      end
  end.

(** ALTER TABLE .. ADD COLUMN IF NOT EXISTS: skipped as a whole (constraints
    included) when the column exists; otherwise the rows in place receive the
    default. *)
Definition add_column (t : string) (cd : coldef) : step := fun s =>
  match get_table s t with
  | None => Err (UndefinedTable t)
  | Some tb =>
      let cs := constraints_of_coldef t cd in
      match missing_reference s t cs with
      | Some rt => Err (UndefinedTable rt)
      | None =>
          let v := default_cell (t_rows tb) (cd_default cd) in
          let rs := map (fun r => r ++ [(cd_name cd, v)]) (t_rows tb) in
          if cd_notnull cd && value_eqb v VNull && negb (match rs with [] => true | _ => false end)
          then Err (NotNullViolation t (cd_name cd))
          else match first_violated s cs rs with
               | Some e => Err e
               | None =>
                   Ok (set_table t {| t_columns := t_columns tb ++ [cd];
                                      t_constraints := t_constraints tb ++ cs;
                                      t_rls := t_rls tb; t_policies := t_policies tb;
                                      t_rows := rs |} s)
               end
      end
  end.

Definition add_column_if_not_exists (t : string) (cd : coldef) : step := fun s =>
  if has_column s t (cd_name cd) then Ok s else add_column t cd s.

Definition mentions (c : string) (k : constraint) : bool :=
  match con_kind_of k with
  | PrimaryKey c' | Unique c' | ForeignKey c' _ _ _ => String.eqb c' c
  | Check _ => false
  end.

(** ALTER TABLE .. DROP COLUMN *)
Definition drop_column (t c : string) : step := fun s =>
  match get_table s t with
  | None => Err (UndefinedTable t)
  | Some tb =>
      if has_column_in c tb then
        Ok (set_table t
              {| t_columns := filter (fun cd => negb (String.eqb (cd_name cd) c)) (t_columns tb);
                 t_constraints := filter (fun k => negb (mentions c k)) (t_constraints tb);
                 t_rls := t_rls tb; t_policies := t_policies tb;
                 t_rows := map (filter (fun kv => negb (String.eqb (fst kv) c))) (t_rows tb) |} s)
      else Err (UndefinedColumn t c)
  end.

(** ALTER TABLE IF EXISTS .. DROP COLUMN IF EXISTS *)
Definition drop_column_if_exists (t c : string) : step := fun s =>
  if has_column s t c then drop_column t c s else Ok s.

(** ALTER TABLE .. ADD CONSTRAINT: refused when the table already has a
    constraint of that name, and when the rows in place break it. *)
Definition add_constraint (t : string) (k : constraint) : step := fun s =>
  match get_table s t with
  | None => Err (UndefinedTable t)
  | Some tb =>
      if has_constraint_in (con_name k) tb then Err (DuplicateObject (con_name k))
      else match missing_reference s t [k] with
           | Some rt => Err (UndefinedTable rt)
           | None =>
               if rows_satisfy s k (t_rows tb)
               then Ok (set_table t (with_constraints tb (t_constraints tb ++ [k])) s)
               else Err (violation k)
           end
  end.

(** DO $$ BEGIN IF NOT EXISTS (SELECT 1 FROM pg_constraint WHERE conname = n
    AND conrelid = 't'::regclass) THEN body END IF; END $$: the test is by
    name alone; the cast to regclass fails on a missing table. *)
Definition unless_constraint_named (t n : string) (body : step) : step := fun s =>
  match get_table s t with
  | None => Err (UndefinedTable t)
  | Some tb => if has_constraint_in n tb then Ok s else body s
  end.

(** ALTER TABLE .. ENABLE ROW LEVEL SECURITY *)
Definition enable_rls (t : string) : step := fun s =>
  match get_table s t with
  | None => Err (UndefinedTable t)
  | Some tb => Ok (set_table t (with_rls tb true) s)
  end.

(** DROP POLICY IF EXISTS name ON t *)
Definition drop_policy_if_exists (n t : string) : step := fun s =>
  match get_table s t with
  | None => Ok s
  | Some tb => Ok (set_table t (with_policies tb (drop_named n (t_policies tb))) s)
  end.

(** CREATE POLICY: refused when the table has a policy of that name. *)
Definition create_policy (t : string) (p : policy) : step := fun s =>
  match get_table s t with
  | None => Err (UndefinedTable t)
  | Some tb =>
      if has_policy (pol_name p) (t_policies tb) then Err (DuplicateObject (pol_name p))
      else Ok (set_table t (with_policies tb (t_policies tb ++ [p])) s)
  end.

(** CREATE OR REPLACE FUNCTION *)
Definition create_or_replace_function (name : string) (body : trigger_fn) : step := fun s =>
  Ok {| st_extensions := st_extensions s; st_types := st_types s; st_tables := st_tables s;
        st_functions := put name body (st_functions s);
        st_triggers := st_triggers s |}.

Definition is_trigger (n t : string) (g : trigger) : bool :=
  String.eqb (tg_name g) n && String.eqb (tg_table g) t.

(** DROP TRIGGER IF EXISTS name ON t *)
Definition drop_trigger_if_exists (n t : string) : step := fun s =>
  Ok {| st_extensions := st_extensions s; st_types := st_types s; st_tables := st_tables s;
        st_functions := st_functions s;
        st_triggers := filter (fun g => negb (is_trigger n t g)) (st_triggers s) |}.

(** CREATE TRIGGER name AFTER INSERT ON t FOR EACH ROW EXECUTE FUNCTION f() *)
Definition create_trigger_after_insert (n t f : string) : step := fun s =>
  match get_table s t with
  | None => Err (UndefinedTable t)
  | Some _ =>
      match lookup f (st_functions s) with
      | None => Err (UndefinedFunction f)
      | Some _ =>
          if existsb (is_trigger n t) (st_triggers s) then Err (DuplicateObject n)
          else Ok {| st_extensions := st_extensions s; st_types := st_types s;
                     st_tables := st_tables s; st_functions := st_functions s;
                     st_triggers := st_triggers s ++ [ {| tg_name := n; tg_table := t; tg_function := f |} ] |}
      end
  end.

(** ** Data manipulation statements *)

Inductive on_conflict : Type :=
| NoOnConflict
| OnConflictDoNothing (target : string)
| OnConflictDoUpdate (target : string) (set_excluded : list string).

Definition conflict_target (oc : on_conflict) : option string :=
  match oc with
  | NoOnConflict => None
  | OnConflictDoNothing c | OnConflictDoUpdate c _ => Some c
  end.

(** ON CONFLICT (c) needs a unique or primary-key constraint on exactly [c]
    to arbitrate. *)
Definition has_arbiter (c : string) (tb : table) : bool :=
  existsb (fun k => match con_kind_of k with
                    | PrimaryKey c' | Unique c' => String.eqb c' c
                    | _ => false
                    end) (t_constraints tb).

(** The row an INSERT proposes: the listed values, and the default of every
    column that is not listed.  A listed NULL stays NULL. *)
Definition build_row (tb : table) (cols : list string) (vals : list value) : row :=
  map (fun cd => (cd_name cd,
                  match lookup (cd_name cd) (combine cols vals) with
                  | Some v => v
                  | None => default_cell (t_rows tb) (cd_default cd)
                  end))
      (t_columns tb).

Definition null_column (tb : table) (r : row) : option string :=
  option_map cd_name
    (find (fun cd => cd_notnull cd && value_eqb (col r (cd_name cd)) VNull) (t_columns tb)).

(** Would adding [r] to the rows [rs] break constraint [k]? *)
Definition breaks (s : store) (k : constraint) (rs : list row) (r : row) : bool :=
  match con_kind_of k with
  | PrimaryKey c | Unique c => existsb (fun r' => holds (sql_eq (col r' c) (col r c))) rs
  | ForeignKey c rt rc _ =>
      negb (value_eqb (col r c) VNull)
      && negb (existsb (fun r' => holds (sql_eq (col r' rc) (col r c))) (rows_of s rt))
  | Check p => match p r with Some false => true | _ => false end
  end.

Definition first_broken (s : store) (tb : table) (rs : list row) (r : row) : option error :=
  option_map violation (find (fun k => breaks s k rs r) (t_constraints tb)).

Fixpoint update_first (w : row -> bool) (f : row -> row) (rs : list row) : list row :=
  match rs with
  | [] => []
  | r :: rs' => if w r then f r :: rs' else r :: update_first w f rs'
  end.

Fixpoint remove_first (w : row -> bool) (rs : list row) : list row :=
  match rs with
  | [] => []
  | r :: rs' => if w r then rs' else r :: remove_first w rs'
  end.

(** Does the stored row [r'] clash with the proposed row [r] on the
    conflict target? *)
Definition clash (oc : on_conflict) (r r' : row) : bool :=
  match conflict_target oc with
  | Some c => holds (sql_eq (col r' c) (col r c))
  | None => false
  end.

Definition arbiter_missing (oc : on_conflict) (tb : table) : bool :=
  match conflict_target oc with
  | Some c => negb (has_arbiter c tb)
  | None => false
  end.

Definition target_name (oc : on_conflict) : string :=
  match conflict_target oc with
  | Some c => c
  | None => EmptyString
  end.

(** The row [r] goes in, unless a constraint of the table refuses it. *)
Definition plain_insert (t : string) (tb : table) (r : row) (s : store)
    : result (store * option row) :=
  match first_broken s tb (t_rows tb) r with
  | Some e => Err e
  | None => Ok (set_table t (with_rows tb (t_rows tb ++ [r])) s, Some r)
  end.

(** DO UPDATE SET c = EXCLUDED.c, ..: the stored row that clashes takes the
    listed cells of the proposed row [r]. *)
Definition conflict_update (t : string) (tb : table) (oc : on_conflict)
    (sets : list string) (old r : row) (s : store) : result (store * option row) :=
  let new := fold_left (fun acc c => set_col c (col r c) acc) sets old in
  match null_column tb new with
  | Some c => Err (NotNullViolation t c)
  | None =>
      match first_broken s tb (remove_first (clash oc r) (t_rows tb)) new with
      | Some e => Err e
      | None =>
          Ok (set_table t (with_rows tb (update_first (clash oc r) (fun _ => new) (t_rows tb))) s,
              Some new)
      end
  end.

(** INSERT INTO t (cols) VALUES (vals) [ON CONFLICT ..], one row; the result
    carries the row written, or nothing when the row was skipped.  The
    column list and the conflict target are resolved before any row is
    looked at; NOT NULL is checked on the proposed row before the conflict
    test. *)
Definition insert_row (t : string) (cols : list string) (vals : list value)
    (oc : on_conflict) (s : store) : result (store * option row) :=
  match get_table s t with
  | None => Err (UndefinedTable t)
  | Some tb =>
      match find (fun c => negb (has_column_in c tb)) cols with
      | Some c => Err (UndefinedColumn t c)
      | None =>
          if arbiter_missing oc tb then Err (NoUniqueConstraintForOnConflict t (target_name oc))
          else
            let r := build_row tb cols vals in
            match null_column tb r with
            | Some c => Err (NotNullViolation t c)
            | None =>
                match find (clash oc r) (t_rows tb) with
                | None => plain_insert t tb r s
                | Some old =>
                    match oc with
                    | OnConflictDoUpdate _ sets => conflict_update t tb oc sets old r s
                    | _ => Ok (s, None)
                    end
                end
            end
      end
  end.

(** INSERT INTO t (cols) VALUES (..), (..), .. [ON CONFLICT ..] *)
Fixpoint insert_into (t : string) (cols : list string) (rows : list (list value))
    (oc : on_conflict) (s : store) : result store :=
  match rows with
  | [] => Ok s
  | vals :: rows' =>
      '(s', _) <- insert_row t cols vals oc s ;;
      insert_into t cols rows' oc s'
  end.

(** INSERT .. RETURNING id INTO variable *)
Definition insert_returning_id (t : string) (cols : list string) (vals : list value)
    (oc : on_conflict) (s : store) : result (store * value) :=
  '(s', r) <- insert_row t cols vals oc s ;;
  Ok (s', match r with Some r => col r "id" | None => VNull end).

(** SELECT c INTO variable FROM t WHERE w: the first row found, NULL when
    there is none. *)
Definition select_into (s : store) (c t : string) (w : row -> option bool) : value :=
  match filter (fun r => holds (w r)) (rows_of s t) with
  | r :: _ => col r c
  | [] => VNull
  end.

(** The foreign keys, of any table, that refer to table [t]. *)
Definition referencing (s : store) (t : string) : list (string * constraint) :=
  flat_map
    (fun e => map (fun k => (fst e, k))
                  (filter (fun k => match con_kind_of k with
                                    | ForeignKey _ rt _ _ => String.eqb rt t
                                    | _ => false
                                    end) (t_constraints (snd e))))
    (st_tables s).

(** DELETE FROM t WHERE w, with the action of every foreign key that refers
    to [t]: NO ACTION and RESTRICT refuse the statement while a row still
    refers to a deleted one, SET NULL blanks the referring cell, CASCADE
    deletes the referring rows in turn. *)
Fixpoint delete_where (fuel : nat) (t : string) (w : row -> bool) (s : store) : result store :=
  match fuel with
  | O => Err CascadeTooDeep
  | S fuel' =>
      match get_table s t with
      | None => Err (UndefinedTable t)
      | Some tb =>
          let victims := filter w (t_rows tb) in
          s1 <- fold_left
                  (fun acc e =>
                     s' <- acc ;;
                     match con_kind_of (snd e) with
                     | ForeignKey c _ rc a =>
                         let refers r' :=
                           existsb (fun v => holds (sql_eq (col r' c) (col v rc))) victims in
                         match a with
                         | NoAction | Restrict =>
                             if existsb refers (rows_of s' (fst e))
                             then Err (ForeignKeyViolation (con_name (snd e)))
                             else Ok s'
                         | SetNull =>
                             match get_table s' (fst e) with
                             | None => Ok s'
                             | Some tb' =>
                                 Ok (set_table (fst e)
                                       (with_rows tb'
                                          (map (fun r' => if refers r' then set_col c VNull r' else r')
                                               (t_rows tb'))) s')
                             end
                         | Cascade => delete_where fuel' (fst e) refers s'
                         end
                     | _ => Ok s'
                     end)
                  (referencing s t) (Ok s) ;;
          match get_table s1 t with
          | None => Err (UndefinedTable t)
          | Some tb1 => Ok (set_table t (with_rows tb1 (filter (fun r => negb (w r)) (t_rows tb1))) s1)
          end
      end
  end.

Definition delete_from (t : string) (w : row -> bool) : step := fun s =>
  delete_where (S (List.length (st_tables s))) t w s.

(** ** Row-level security *)

(** A policy declared FOR ALL covers every command. *)
Definition applies (cmd : command) (p : policy) : bool :=
  match pol_cmd p with
  | ALL => true
  | c => command_eqb c cmd
  end.

Definition using_passes (d : db) (uid : value) (r : row) (p : policy) : bool :=
  match pol_using p with
  | Some e => holds (e d uid r)
  | None => false
  end.

(** Policies are permissive: with row-level security enabled, a row is
    within reach of a command when the USING expression of at least one
    policy for that command is true; with no such policy nothing is. *)
Definition row_visible (s : store) (uid : value) (cmd : command) (t : string) (r : row) : bool :=
  match get_table s t with
  | None => false
  | Some tb =>
      if t_rls tb
      then existsb (fun p => applies cmd p && using_passes (db_of s) uid r p) (t_policies tb)
      else true
  end.

(** Reading row [r] of table [t] as the caller [uid]. *)
Definition read (s : store) (uid : value) (t : string) (r : row) : result row :=
  if row_visible s uid SELECT t r then Ok r else Err Forbidden.

(** Sub-selects of the policies.  They read the referenced table as it is:
    every sub-select below filters on the caller's own identifier, and the
    rows it can match are rows the caller may see. *)
Definition select_where (d : db) (t : string) (w : row -> option bool) : list row :=
  filter (fun r => holds (w r)) (d t).

(** EXISTS (SELECT 1 FROM t WHERE w) *)
Definition sql_exists (d : db) (t : string) (w : row -> option bool) : option bool :=
  Some (existsb (fun r => holds (w r)) (d t)).

(** v IN (SELECT c FROM t WHERE w) *)
Definition sql_in (v : value) (d : db) (c t : string) (w : row -> option bool) : option bool :=
  let cells := map (fun r => col r c) (select_where d t w) in
  if existsb (fun x => holds (sql_eq v x)) cells then Some true
  else if value_eqb v VNull || existsb (value_eqb VNull) cells
       then match cells with [] => Some false | _ => None end
       else Some false.

(** (SELECT c FROM t WHERE w) used as a value: NULL when no row matches.
    More than one matching row makes the engine raise an error, which
    denies the command just as an unknown condition does. *)
Definition scalar_subquery (d : db) (c t : string) (w : row -> option bool) : value :=
  match select_where d t w with
  | [r] => col r c
  | _ => VNull
  end.

(** ** Identities *)

(** The hosting platform's own table of identities, reduced to the columns
    the scripts use. *)
Definition auth_users : table :=
  {| t_columns := [ column "id" "uuid" [PRIMARY_KEY];
                    column "email" "text" [];
                    column "raw_user_meta_data" "jsonb" [] ];
     t_constraints := [ {| con_name := "users_pkey"; con_kind_of := PrimaryKey "id" |} ];
     t_rls := false; t_policies := []; t_rows := [] |}.

(** A new project: no table but the platform's. *)
Definition new_project : store :=
  {| st_extensions := []; st_types := []; st_tables := [("auth.users", auth_users)];
     st_functions := []; st_triggers := [] |}.

Definition fire (new : row) (s : store) (g : trigger) : result store :=
  match lookup (tg_function g) (st_functions s) with
  | None => Err (UndefinedFunction (tg_function g))
  | Some f =>
      '(t, cols, vals) <- f new ;;
      '(s', _) <- insert_row t cols vals NoOnConflict s ;;
      Ok s'
  end.

(** The authentication provider registers an identity: one row goes into
    auth.users, and every AFTER INSERT trigger of that table runs on it
    within the same transaction, so a failing trigger undoes the
    registration. *)
Definition on_identity_created (id : N) (email : string) (meta : list (string * string)) : step :=
  fun s =>
    '(s1, r) <- insert_row "auth.users" ["id"; "email"; "raw_user_meta_data"]
                  [VUuid id; VText email; VJson meta] NoOnConflict s ;;
    match r with
    | None => Ok s1
    | Some new =>
        fold_left (fun acc g => s' <- acc ;; fire new s' g)
                  (filter (fun g => String.eqb (tg_table g) "auth.users") (st_triggers s1))
                  (Ok s1)
    end.

(** ** Expressions the policies are written with *)

(** [true] *)
Definition always : pexpr := fun _ _ _ => Some true.

(** [auth.uid() = c], for a column [c] of the candidate row *)
Definition uid_equals (c : string) : pexpr := fun _ uid r => sql_eq uid (col r c).

(** [EXISTS (SELECT 1 FROM profiles WHERE profiles.id = auth.uid()
             AND profiles.role = 'admin')] *)
Definition exists_admin_profile : pexpr := fun d uid _ =>
  sql_exists d "profiles"
    (fun p => sql_and (sql_eq (col p "id") uid) (sql_eq (col p "role") (VText "admin"))).

(** [auth.uid() IN (SELECT id FROM public.profiles WHERE role = 'admin')] *)
Definition uid_in_admin_ids : pexpr := fun d uid _ =>
  sql_in uid d "id" "profiles" (fun p => sql_eq (col p "role") (VText "admin")).

(** [(SELECT role FROM public.profiles WHERE id = auth.uid()) = 'admin'] *)
Definition role_of_uid_is_admin : pexpr := fun d uid _ =>
  sql_eq (scalar_subquery d "role" "profiles" (fun p => sql_eq (col p "id") uid))
         (VText "admin").

(** [EXISTS (SELECT 1 FROM orders WHERE orders.id = order_items.order_id
             AND orders.user_id = auth.uid())] *)
Definition exists_own_parent_order : pexpr := fun d uid r =>
  sql_exists d "orders"
    (fun o => sql_and (sql_eq (col o "id") (col r "order_id")) (sql_eq (col o "user_id") uid)).

(** [(SELECT user_id FROM public.orders WHERE id = order_id) = auth.uid()] *)
Definition parent_order_owner_equals_uid : pexpr := fun d uid r =>
  sql_eq (scalar_subquery d "user_id" "orders" (fun o => sql_eq (col o "id") (col r "order_id")))
         uid.

(** [auth.uid() = (SELECT user_id FROM public.orders WHERE id = order_id)] *)
Definition uid_equals_parent_order_owner : pexpr := fun d uid r =>
  sql_eq uid
         (scalar_subquery d "user_id" "orders" (fun o => sql_eq (col o "id") (col r "order_id"))).

(** ** Trigger functions *)

Definition user_role_labels : list string := ["admin"; "user"; "mitra"].

(** [text::enum]: NULL stays NULL, a label of the type is accepted, any
    other text is an invalid input value. *)
Definition cast_enum (type_name : string) (labels : list string) (v : value) : result value :=
  match v with
  | VNull => Ok VNull
  | VText x => if existsb (String.eqb x) labels then Ok (VText x) else Err (InvalidEnumValue type_name x)
  | _ => Err (InvalidEnumValue type_name EmptyString)
  end.

Definition coalesce (a b : value) : value :=
  match a with
  | VNull => b
  | _ => a
  end.

(** handle_new_user as the scripts 20250120120002, 20250120120006 and
    20250120120007 define it:
    INSERT INTO public.profiles (id, full_name, role)
    VALUES (new.id, new.raw_user_meta_data->>'full_name',
            new.raw_user_meta_data->>'role') *)
Definition handle_new_user : trigger_fn := fun new =>
  Ok ("profiles", ["id"; "full_name"; "role"],
      [ col new "id";
        json_text (col new "raw_user_meta_data") "full_name";
        json_text (col new "raw_user_meta_data") "role" ]).

(** handle_new_user as the second script of unnamed/part_001 defines it:
    .. VALUES (new.id, new.raw_user_meta_data->>'full_name',
       COALESCE((new.raw_user_meta_data->>'role')::public.user_role,
                'user'::public.user_role)) *)
Definition handle_new_user_coalesce : trigger_fn := fun new =>
  r <- cast_enum "user_role" user_role_labels (json_text (col new "raw_user_meta_data") "role") ;;
  Ok ("profiles", ["id"; "full_name"; "role"],
      [ col new "id";
        json_text (col new "raw_user_meta_data") "full_name";
        coalesce r (VText "user") ]).

(** ** Sample catalog *)

Definition sample_product_columns : list string :=
  ["name"; "description"; "price"; "image_urls"; "stock"; "rating"; "category_id"].

(** The six products of the scripts 20250120120002 and 20250120120007. *)
Definition sample_products_2 (tas_id dekorasi_id aksesori_id premium_id : value) : list (list value) :=
    [
      [ VText "Tas Tote Premium";
        VText "Tas anyaman eceng gondok dengan handle kulit asli.";
        VNum 180000 0;
        VArr ["https://img-wrapper.vercel.app/image?url=https://img-wrapper.vercel.app/image?url=https://placehold.co/300x300/8ea071/ffffff?text=Tas+Tote"];
        VInt 20; VNum 48 1; tas_id ];
      [ VText "Alas Meja Natural";
        VText "Alas meja bundar untuk sentuhan alami di ruang makan.";
        VNum 95000 0;
        VArr ["https://img-wrapper.vercel.app/image?url=https://img-wrapper.vercel.app/image?url=https://placehold.co/300x300/b4a47e/ffffff?text=Alas+Meja"];
        VInt 35; VNum 45 1; aksesori_id ];
      [ VText "Hiasan Dinding Mandala";
        VText "Hiasan dinding besar dengan pola mandala yang rumit.";
        VNum 125000 0;
        VArr ["https://img-wrapper.vercel.app/image?url=https://img-wrapper.vercel.app/image?url=https://placehold.co/300x300/a08d63/ffffff?text=Hiasan+Dinding"];
        VInt 15; VNum 47 1; dekorasi_id ];
      [ VText "Tempat Pensil Minimalis";
        VText "Tempat pensil elegan untuk meja kerja Anda.";
        VNum 45000 0;
        VArr ["https://img-wrapper.vercel.app/image?url=https://img-wrapper.vercel.app/image?url=https://placehold.co/300x300/708158/ffffff?text=Tempat+Pensil"];
        VInt 50; VNum 43 1; aksesori_id ];
      [ VText "Keranjang Multifungsi";
        VText "Keranjang serbaguna untuk penyimpanan mainan atau laundry.";
        VNum 110000 0;
        VArr ["https://img-wrapper.vercel.app/image?url=https://img-wrapper.vercel.app/image?url=https://placehold.co/300x300/c8bea2/ffffff?text=Keranjang"];
        VInt 25; VNum 46 1; aksesori_id ];
      [ VText "Clutch Pesta Elegan";
        VText "Clutch malam yang mewah dan ramah lingkungan.";
        VNum 250000 0;
        VArr ["https://img-wrapper.vercel.app/image?url=https://img-wrapper.vercel.app/image?url=https://placehold.co/300x300/f59e0b/ffffff?text=Clutch"];
        VInt 10; VNum 49 1; premium_id ]
    ].

(** The six products of the script 20250120120006 and of the two scripts of
    unnamed/part_001; only the image addresses differ from the above. *)
Definition sample_products_3 (tas_id dekorasi_id aksesori_id premium_id : value) : list (list value) :=
    [
      [ VText "Tas Tote Premium";
        VText "Tas anyaman eceng gondok dengan handle kulit asli.";
        VNum 180000 0;
        VArr ["https://img-wrapper.vercel.app/image?url=https://img-wrapper.vercel.app/image?url=https://img-wrapper.vercel.app/image?url=https://placehold.co/300x300/8ea071/ffffff?text=Tas+Tote"];
        VInt 20; VNum 48 1; tas_id ];
      [ VText "Alas Meja Natural";
        VText "Alas meja bundar untuk sentuhan alami di ruang makan.";
        VNum 95000 0;
        VArr ["https://img-wrapper.vercel.app/image?url=https://img-wrapper.vercel.app/image?url=https://img-wrapper.vercel.app/image?url=https://placehold.co/300x300/b4a47e/ffffff?text=Alas+Meja"];
        VInt 35; VNum 45 1; aksesori_id ];
      [ VText "Hiasan Dinding Mandala";
        VText "Hiasan dinding besar dengan pola mandala yang rumit.";
        VNum 125000 0;
        VArr ["https://img-wrapper.vercel.app/image?url=https://img-wrapper.vercel.app/image?url=https://img-wrapper.vercel.app/image?url=https://placehold.co/300x300/a08d63/ffffff?text=Hiasan+Dinding"];
        VInt 15; VNum 47 1; dekorasi_id ];
      [ VText "Tempat Pensil Minimalis";
        VText "Tempat pensil elegan untuk meja kerja Anda.";
        VNum 45000 0;
        VArr ["https://img-wrapper.vercel.app/image?url=https://img-wrapper.vercel.app/image?url=https://img-wrapper.vercel.app/image?url=https://placehold.co/300x300/708158/ffffff?text=Tempat+Pensil"];
        VInt 50; VNum 43 1; aksesori_id ];
      [ VText "Keranjang Multifungsi";
        VText "Keranjang serbaguna untuk penyimpanan mainan atau laundry.";
        VNum 110000 0;
        VArr ["https://img-wrapper.vercel.app/image?url=https://img-wrapper.vercel.app/image?url=https://img-wrapper.vercel.app/image?url=https://placehold.co/300x300/c8bea2/ffffff?text=Keranjang"];
        VInt 25; VNum 46 1; aksesori_id ];
      [ VText "Clutch Pesta Elegan";
        VText "Clutch malam yang mewah dan ramah lingkungan.";
        VNum 250000 0;
        VArr ["https://img-wrapper.vercel.app/image?url=https://img-wrapper.vercel.app/image?url=https://img-wrapper.vercel.app/image?url=https://placehold.co/300x300/f59e0b/ffffff?text=Clutch"];
        VInt 10; VNum 49 1; premium_id ]
    ].

(** ** supabase/migrations/20250120120009_enable_rls_and_policies.sql *)

Module Migration_20250120120009.

Definition users_can_view_their_own_profile : policy :=
  Build_policy "Users can view their own profile." SELECT (Some (uid_equals "id")) None.

Definition users_can_update_their_own_profile : policy :=
  Build_policy "Users can update their own profile." UPDATE
    (Some (uid_equals "id")) (Some (uid_equals "id")).

Definition public_can_view_all_categories : policy :=
  Build_policy "Public can view all categories." SELECT (Some always) None.

Definition admins_can_manage_categories : policy :=
  Build_policy "Admins can manage categories." ALL
    (Some exists_admin_profile) (Some exists_admin_profile).

Definition public_can_view_all_products : policy :=
  Build_policy "Public can view all products." SELECT (Some always) None.

Definition admins_can_manage_products : policy :=
  Build_policy "Admins can manage products." ALL
    (Some exists_admin_profile) (Some exists_admin_profile).

Definition users_can_view_their_own_orders : policy :=
  Build_policy "Users can view their own orders." SELECT (Some (uid_equals "user_id")) None.

Definition users_can_create_new_orders : policy :=
  Build_policy "Users can create new orders." INSERT None (Some (uid_equals "user_id")).

Definition admins_can_manage_all_orders : policy :=
  Build_policy "Admins can manage all orders." ALL (Some exists_admin_profile) None.

Definition users_can_view_their_own_order_items : policy :=
  Build_policy "Users can view their own order items." SELECT (Some exists_own_parent_order) None.

Definition users_can_create_new_order_items : policy :=
  Build_policy "Users can create new order items." INSERT None (Some exists_own_parent_order).

Definition admins_can_manage_all_order_items : policy :=
  Build_policy "Admins can manage all order items." ALL (Some exists_admin_profile) None.

Definition public_can_view_all_reviews : policy :=
  Build_policy "Public can view all reviews." SELECT (Some always) None.

Definition users_can_create_reviews : policy :=
  Build_policy "Users can create reviews." INSERT None (Some (uid_equals "user_id")).

Definition users_can_manage_their_own_reviews : policy :=
  Build_policy "Users can manage their own reviews." UPDATE
    (Some (uid_equals "user_id")) (Some (uid_equals "user_id")).

Definition users_can_delete_their_own_reviews : policy :=
  Build_policy "Users can delete their own reviews." DELETE (Some (uid_equals "user_id")) None.

Definition admins_can_manage_all_reviews : policy :=
  Build_policy "Admins can manage all reviews." ALL (Some exists_admin_profile) None.

(** Step 1: enable row-level security on all public tables. *)
Definition step_1 : list step :=
  [ enable_rls "profiles";
    enable_rls "categories";
    enable_rls "products";
    enable_rls "orders";
    enable_rls "order_items";
    enable_rls "reviews" ].

(** Step 2: drop existing policies "to ensure a clean slate and make the
    script re-runnable". *)
Definition step_2 : list step :=
  [ drop_policy_if_exists "Public can view all categories." "categories";
    drop_policy_if_exists "Admins can manage categories." "categories";
    drop_policy_if_exists "Public can view all products." "products";
    drop_policy_if_exists "Admins can manage products." "products";
    drop_policy_if_exists "Users can view their own profile." "profiles";
    drop_policy_if_exists "Users can update their own profile." "profiles";
    drop_policy_if_exists "Users can view their own orders." "orders";
    drop_policy_if_exists "Users can create new orders." "orders";
    drop_policy_if_exists "Admins can manage all orders." "orders";
    drop_policy_if_exists "Users can view their own order items." "order_items";
    drop_policy_if_exists "Users can create new order items." "order_items";
    drop_policy_if_exists "Admins can manage all order items." "order_items";
    drop_policy_if_exists "Public can view all reviews." "reviews";
    drop_policy_if_exists "Users can create reviews." "reviews";
    drop_policy_if_exists "Users can manage their own reviews." "reviews";
    drop_policy_if_exists "Users can delete their own reviews." "reviews";
    drop_policy_if_exists "Admins can manage all reviews." "reviews" ].

(** Step 3: create the policies of each table. *)
Definition step_3 : list step :=
  [ create_policy "profiles" users_can_view_their_own_profile;
    create_policy "profiles" users_can_update_their_own_profile;
    create_policy "categories" public_can_view_all_categories;
    create_policy "categories" admins_can_manage_categories;
    create_policy "products" public_can_view_all_products;
    create_policy "products" admins_can_manage_products;
    create_policy "orders" users_can_view_their_own_orders;
    create_policy "orders" users_can_create_new_orders;
    create_policy "orders" admins_can_manage_all_orders;
    create_policy "order_items" users_can_view_their_own_order_items;
    create_policy "order_items" users_can_create_new_order_items;
    create_policy "order_items" admins_can_manage_all_order_items;
    create_policy "reviews" public_can_view_all_reviews;
    create_policy "reviews" users_can_create_reviews;
    create_policy "reviews" users_can_manage_their_own_reviews;
    create_policy "reviews" users_can_delete_their_own_reviews;
    create_policy "reviews" admins_can_manage_all_reviews ].

Definition script : list step := step_1 ++ step_2 ++ step_3.

End Migration_20250120120009.

(** ** unnamed/part_001, second script: "FINAL COMPREHENSIVE SCHEMA FIX"
    (the revision with the [user_role] type) *)

Module Part_001_comprehensive_fix.

Definition public_profiles_are_viewable_by_everyone : policy :=
  Build_policy "Public profiles are viewable by everyone." SELECT (Some always) None.

Definition users_can_insert_their_own_profile : policy :=
  Build_policy "Users can insert their own profile." INSERT None (Some (uid_equals "id")).

Definition users_can_update_their_own_profile : policy :=
  Build_policy "Users can update their own profile." UPDATE (Some (uid_equals "id")) None.

Definition categories_are_viewable_by_everyone : policy :=
  Build_policy "Categories are viewable by everyone." SELECT (Some always) None.

Definition admins_can_manage_categories : policy :=
  Build_policy "Admins can manage categories." ALL (Some uid_in_admin_ids) None.

Definition products_are_viewable_by_everyone : policy :=
  Build_policy "Products are viewable by everyone." SELECT (Some always) None.

Definition admins_can_manage_products : policy :=
  Build_policy "Admins can manage products." ALL (Some uid_in_admin_ids) None.

Definition users_can_view_their_own_orders : policy :=
  Build_policy "Users can view their own orders." SELECT (Some (uid_equals "user_id")) None.

Definition users_can_create_orders_for_themselves : policy :=
  Build_policy "Users can create orders for themselves." INSERT None (Some (uid_equals "user_id")).

Definition admins_can_manage_all_orders : policy :=
  Build_policy "Admins can manage all orders." ALL (Some uid_in_admin_ids) None.

Definition users_can_view_their_own_order_items : policy :=
  Build_policy "Users can view their own order items." SELECT
    (Some uid_equals_parent_order_owner) None.

Definition admins_can_manage_all_order_items : policy :=
  Build_policy "Admins can manage all order items." ALL (Some uid_in_admin_ids) None.

(** The columns of [public.profiles] as this script creates the table. *)
Definition profiles_columns : list coldef :=
  [ column "id" "uuid" [NOT_NULL; PRIMARY_KEY; REFERENCES "auth.users" "id" Cascade];
    column "full_name" "text" [];
    column "role" "public.user_role" [DEFAULT (DConst (VText "user"))];
    column "updated_at" "timestamp with time zone" [] ].

(** The columns of [public.categories] as this script creates the table. *)
Definition categories_columns : list coldef :=
  [ column "id" "uuid" [NOT_NULL; DEFAULT DGenUuid; PRIMARY_KEY];
    column "name" "text" [NOT_NULL];
    column "slug" "text" [NOT_NULL; UNIQUE];
    column "description" "text" [];
    column "created_at" "timestamp with time zone" [DEFAULT DNow] ].

(** The columns of [public.products] as this script creates the table. *)
Definition products_columns : list coldef :=
  [ column "id" "uuid" [NOT_NULL; DEFAULT DGenUuid; PRIMARY_KEY];
    column "name" "text" [NOT_NULL];
    column "description" "text" [];
    column "price" "numeric" [NOT_NULL];
    column "category_id" "uuid" [REFERENCES "categories" "id" NoAction];
    column "created_at" "timestamp with time zone" [DEFAULT DNow] ].

Definition schema : list step :=
  [ create_enum_if_not_exists "user_role" user_role_labels;
    create_table_if_not_exists "profiles" profiles_columns;
    enable_rls "profiles";
    create_policy "profiles" public_profiles_are_viewable_by_everyone;
    create_policy "profiles" users_can_insert_their_own_profile;
    create_policy "profiles" users_can_update_their_own_profile;
    create_table_if_not_exists "categories" categories_columns;
    enable_rls "categories";
    create_policy "categories" categories_are_viewable_by_everyone;
    create_policy "categories" admins_can_manage_categories;
    create_table_if_not_exists "products" products_columns;
    add_column_if_not_exists "products" (column "image_urls" "text[]" []);
    add_column_if_not_exists "products" (column "stock" "integer" [DEFAULT (DConst (VInt 0))]);
    add_column_if_not_exists "products"
      (column "rating" "numeric(2,1)" [DEFAULT (DConst (VNum 0 1))]);
    enable_rls "products";
    create_policy "products" products_are_viewable_by_everyone;
    create_policy "products" admins_can_manage_products;
    create_table_if_not_exists "orders"
      [ column "id" "uuid" [NOT_NULL; DEFAULT DGenUuid; PRIMARY_KEY];
        column "user_id" "uuid" [REFERENCES "auth.users" "id" NoAction];
        column "total_amount" "numeric" [NOT_NULL];
        column "status" "text" [DEFAULT (DConst (VText "pending"))];
        column "created_at" "timestamp with time zone" [DEFAULT DNow] ];
    enable_rls "orders";
    create_policy "orders" users_can_view_their_own_orders;
    create_policy "orders" users_can_create_orders_for_themselves;
    create_policy "orders" admins_can_manage_all_orders;
    create_table_if_not_exists "order_items"
      [ column "id" "uuid" [NOT_NULL; DEFAULT DGenUuid; PRIMARY_KEY];
        column "order_id" "uuid" [REFERENCES "orders" "id" Cascade];
        column "product_id" "uuid" [REFERENCES "products" "id" NoAction];
        column "quantity" "integer" [NOT_NULL];
        column "price" "numeric" [NOT_NULL] ];
    enable_rls "order_items";
    create_policy "order_items" users_can_view_their_own_order_items;
    create_policy "order_items" admins_can_manage_all_order_items;
    create_or_replace_function "handle_new_user" handle_new_user_coalesce;
    drop_trigger_if_exists "on_auth_user_created" "auth.users";
    create_trigger_after_insert "on_auth_user_created" "auth.users" "handle_new_user" ].

(** "Seed categories and get their IDs, do nothing on conflict" *)
Definition seed_categories : step := fun s =>
  s <- insert_into "categories" ["name"; "slug"; "description"]
         [[VText "Tas"; VText "tas"; VText "Koleksi tas anyaman tangan."]]
         (OnConflictDoNothing "slug") s ;;
  s <- insert_into "categories" ["name"; "slug"; "description"]
         [[VText "Dekorasi"; VText "dekorasi"; VText "Hiasan rumah yang estetik."]]
         (OnConflictDoNothing "slug") s ;;
  s <- insert_into "categories" ["name"; "slug"; "description"]
         [[VText "Aksesori Rumah"; VText "aksesori-rumah"; VText "Perlengkapan rumah fungsional."]]
         (OnConflictDoNothing "slug") s ;;
  insert_into "categories" ["name"; "slug"; "description"]
    [[VText "Premium"; VText "premium"; VText "Koleksi eksklusif dan terbatas."]]
    (OnConflictDoNothing "slug") s.

Definition seed_products : step := fun s =>
  let tas_id := select_into s "id" "categories" (fun r => sql_eq (col r "slug") (VText "tas")) in
  let dekorasi_id :=
    select_into s "id" "categories" (fun r => sql_eq (col r "slug") (VText "dekorasi")) in
  let aksesori_id :=
    select_into s "id" "categories" (fun r => sql_eq (col r "slug") (VText "aksesori-rumah")) in
  let premium_id :=
    select_into s "id" "categories" (fun r => sql_eq (col r "slug") (VText "premium")) in
  (* "Clear existing products to ensure a clean seed. This is safe for development." *)
  s <- delete_from "products" (fun _ => true) s ;;
  insert_into "products" sample_product_columns
    (sample_products_3 tas_id dekorasi_id aksesori_id premium_id) NoOnConflict s.

(** "Seed data in a safe, idempotent block" *)
Definition seed : step := fun s => s <- seed_categories s ;; seed_products s.

Definition script : list step := schema ++ [seed].

End Part_001_comprehensive_fix.

(** Modelled from the spec: the reviews table.  The policy script
    20250120120009 enables row-level security on [public.reviews] and
    defines its policies, but no script of the repository creates the table;
    section 3 of the specification gives its content: a review belongs to
    one profile, references one product and carries a rating and a
    comment. *)
Definition create_reviews : step :=
  create_table_if_not_exists "reviews"
    [ column "id" "uuid" [NOT_NULL; DEFAULT DGenUuid; PRIMARY_KEY];
      column "user_id" "uuid" [REFERENCES "profiles" "id" NoAction];
      column "product_id" "uuid" [REFERENCES "products" "id" NoAction];
      column "rating" "integer" [];
      column "comment" "text" [] ].

(** ** supabase/migrations/20250120120002_fix_product_seeding.sql *)

Module Migration_20250120120002.

Definition users_can_view_their_own_profile : policy :=
  Build_policy "Users can view their own profile" SELECT (Some (uid_equals "id")) None.

Definition users_can_update_their_own_profile : policy :=
  Build_policy "Users can update their own profile" UPDATE (Some (uid_equals "id")) None.

(** The columns of [public.profiles] as this script creates the table. *)
Definition profiles_columns : list coldef :=
  [ column "id" "uuid" [PRIMARY_KEY; REFERENCES "auth.users" "id" Cascade];
    column "full_name" "varchar(255)" [];
    column "role" "varchar(50)" [DEFAULT (DConst (VText "user"))];
    column "created_at" "timestamptz" [DEFAULT DNow];
    column "updated_at" "timestamptz" [DEFAULT DNow] ].

(** The columns of [public.categories] as this script creates the table. *)
Definition categories_columns : list coldef :=
  [ column "id" "uuid" [PRIMARY_KEY; DEFAULT DGenUuid];
    column "name" "varchar(255)" [NOT_NULL];
    column "slug" "varchar(255)" [UNIQUE; NOT_NULL];
    column "description" "text" [];
    column "created_at" "timestamptz" [DEFAULT DNow] ].

(** The columns of [public.products] as this script creates the table. *)
Definition products_columns : list coldef :=
  [ column "id" "uuid" [PRIMARY_KEY; DEFAULT DGenUuid];
    column "name" "varchar(255)" [NOT_NULL];
    column "description" "text" [];
    column "price" "numeric(10,2)" [NOT_NULL];
    column "image_urls" "text[]" [];
    column "stock" "int" [NOT_NULL; DEFAULT (DConst (VInt 0))];
    column "rating" "numeric(2,1)" [];
    column "category_id" "uuid" [REFERENCES "categories" "id" NoAction];
    column "created_at" "timestamptz" [DEFAULT DNow];
    column "updated_at" "timestamptz" [DEFAULT DNow] ].

Definition schema : list step :=
  [ create_extension_if_not_exists "postgis";
    create_table_if_not_exists "roles"
      [ column "id" "serial" [DEFAULT DSerial; PRIMARY_KEY];
        column "name" "varchar(50)" [UNIQUE; NOT_NULL] ];
    insert_into "roles" ["name"] [[VText "admin"]; [VText "user"]; [VText "mitra"]]
      (OnConflictDoNothing "name");
    create_table_if_not_exists "profiles" profiles_columns;
    create_or_replace_function "handle_new_user" handle_new_user;
    drop_trigger_if_exists "on_auth_user_created" "auth.users";
    create_trigger_after_insert "on_auth_user_created" "auth.users" "handle_new_user";
    enable_rls "profiles";
    drop_policy_if_exists "Users can view their own profile" "profiles";
    create_policy "profiles" users_can_view_their_own_profile;
    drop_policy_if_exists "Users can update their own profile" "profiles";
    create_policy "profiles" users_can_update_their_own_profile;
    create_table_if_not_exists "categories" categories_columns;
    create_table_if_not_exists "products" products_columns;
    create_table_if_not_exists "orders"
      [ column "id" "uuid" [PRIMARY_KEY; DEFAULT DGenUuid];
        column "user_id" "uuid" [REFERENCES "auth.users" "id" NoAction];
        column "total_amount" "numeric(10,2)" [NOT_NULL];
        column "status" "varchar(50)" [DEFAULT (DConst (VText "pending"))];
        column "shipping_address" "text" [];
        column "created_at" "timestamptz" [DEFAULT DNow] ];
    create_table_if_not_exists "order_items"
      [ column "id" "uuid" [PRIMARY_KEY; DEFAULT DGenUuid];
        column "order_id" "uuid" [REFERENCES "orders" "id" Cascade];
        column "product_id" "uuid" [REFERENCES "products" "id" NoAction];
        column "quantity" "int" [NOT_NULL];
        column "price" "numeric(10,2)" [NOT_NULL] ] ].

(** "Seed categories if they don't exist" *)
Definition seed_categories : step :=
  insert_into "categories" ["name"; "slug"; "description"]
    [ [VText "Tas"; VText "tas"; VText "Koleksi tas anyaman eceng gondok."];
      [VText "Dekorasi"; VText "dekorasi"; VText "Hiasan rumah yang natural dan estetik."];
      [VText "Aksesori Rumah"; VText "aksesori-rumah"; VText "Perlengkapan rumah fungsional."];
      [VText "Premium"; VText "premium"; VText "Koleksi eksklusif dengan kualitas terbaik."] ]
    (OnConflictDoNothing "slug").

(** "Insert products only if the table is empty":
    IF NOT EXISTS (SELECT 1 FROM public.products) THEN INSERT .. END IF *)
Definition seed_products : step := fun s =>
  let tas_id := select_into s "id" "categories" (fun r => sql_eq (col r "slug") (VText "tas")) in
  let dekorasi_id :=
    select_into s "id" "categories" (fun r => sql_eq (col r "slug") (VText "dekorasi")) in
  let aksesori_id :=
    select_into s "id" "categories" (fun r => sql_eq (col r "slug") (VText "aksesori-rumah")) in
  let premium_id :=
    select_into s "id" "categories" (fun r => sql_eq (col r "slug") (VText "premium")) in
  match get_table s "products" with
  | None => Err (UndefinedTable "products")
  | Some tb =>
      match t_rows tb with
      | [] => insert_into "products" sample_product_columns
                (sample_products_2 tas_id dekorasi_id aksesori_id premium_id) NoOnConflict s
      | _ :: _ => Ok s
      end
  end.

Definition seed : step := fun s => s <- seed_categories s ;; seed_products s.

Definition script : list step := schema ++ [seed].

End Migration_20250120120002.

(** CHECK (rating >= 0 AND rating <= 5) *)
Definition rating_in_range : row -> option bool := fun r =>
  match col r "rating" with
  | VNum m k => Some ((0 <=? m)%Z && (m <=? 5 * 10 ^ Z.of_nat k)%Z)
  | VInt z => Some ((0 <=? z)%Z && (z <=? 5)%Z)
  | _ => None
  end.

(** ALTER TABLE public.products ADD CONSTRAINT products_category_id_fkey
    FOREIGN KEY (category_id) REFERENCES public.categories(id) ON DELETE SET NULL *)
Definition products_category_id_fkey : constraint :=
  {| con_name := "products_category_id_fkey";
     con_kind_of := ForeignKey "category_id" "categories" "id" SetNull |}.

(** ** supabase/migrations/20250120120006_final_comprehensive_schema_fix.sql *)

Module Migration_20250120120006.

Definition users_can_view_their_own_profile : policy :=
  Build_policy "Users can view their own profile" SELECT (Some (uid_equals "id")) None.

Definition users_can_update_their_own_profile : policy :=
  Build_policy "Users can update their own profile" UPDATE (Some (uid_equals "id")) None.

Definition products_are_publicly_visible : policy :=
  Build_policy "Products are publicly visible" SELECT (Some always) None.

Definition categories_are_publicly_visible : policy :=
  Build_policy "Categories are publicly visible" SELECT (Some always) None.

Definition users_can_view_their_own_orders : policy :=
  Build_policy "Users can view their own orders" SELECT (Some (uid_equals "user_id")) None.

Definition users_can_create_their_own_orders : policy :=
  Build_policy "Users can create their own orders" INSERT None (Some (uid_equals "user_id")).

Definition users_can_view_items_in_their_own_orders : policy :=
  Build_policy "Users can view items in their own orders" SELECT
    (Some parent_order_owner_equals_uid) None.

(** The columns of [public.profiles] as this script creates the table. *)
Definition profiles_columns : list coldef :=
  [ column "id" "uuid" [PRIMARY_KEY; REFERENCES "auth.users" "id" Cascade];
    column "full_name" "text" [];
    column "role" "text" [NOT_NULL; DEFAULT (DConst (VText "user"))];
    column "created_at" "timestamptz" [DEFAULT DNow] ].

(** The columns of [public.categories] as this script creates the table. *)
Definition categories_columns : list coldef :=
  [ column "id" "uuid" [PRIMARY_KEY; DEFAULT DGenUuid];
    column "name" "text" [NOT_NULL];
    column "slug" "text" [NOT_NULL; UNIQUE];
    column "description" "text" [];
    column "created_at" "timestamptz" [DEFAULT DNow] ].

(** The columns of [public.products] as this script creates the table. *)
Definition products_columns : list coldef :=
  [ column "id" "uuid" [PRIMARY_KEY; DEFAULT DGenUuid];
    column "name" "text" [NOT_NULL];
    column "description" "text" [];
    column "price" "numeric(10,2)" [NOT_NULL];
    column "created_at" "timestamptz" [DEFAULT DNow] ].

Definition schema : list step :=
  [ (* 1. *)
    create_table_if_not_exists "categories" categories_columns;
    (* 2. *)
    create_table_if_not_exists "products" products_columns;
    (* 3. *)
    add_column_if_not_exists "products"
      (column "image_urls" "text[]" [DEFAULT (DConst (VArr []))]);
    add_column_if_not_exists "products"
      (column "stock" "integer" [NOT_NULL; DEFAULT (DConst (VInt 0))]);
    add_column_if_not_exists "products"
      (column "rating" "numeric(2,1)" [NOT_NULL; DEFAULT (DConst (VNum 0 1)); CHECK rating_in_range]);
    add_column_if_not_exists "products" (column "category_id" "uuid" []);
    (* 4. *)
    unless_constraint_named "products" "products_category_id_fkey"
      (add_constraint "products" products_category_id_fkey);
    (* 5. *)
    create_table_if_not_exists "profiles" profiles_columns;
    (* 6. *)
    create_table_if_not_exists "orders"
      [ column "id" "bigint" [PRIMARY_KEY; DEFAULT DSerial];
        column "user_id" "uuid" [NOT_NULL; REFERENCES "profiles" "id" NoAction];
        column "total_amount" "numeric(10,2)" [NOT_NULL];
        column "status" "text" [NOT_NULL; DEFAULT (DConst (VText "pending"))];
        column "created_at" "timestamptz" [DEFAULT DNow] ];
    (* 7. *)
    create_table_if_not_exists "order_items"
      [ column "id" "bigint" [PRIMARY_KEY; DEFAULT DSerial];
        column "order_id" "bigint" [NOT_NULL; REFERENCES "orders" "id" NoAction];
        column "product_id" "uuid" [NOT_NULL; REFERENCES "products" "id" NoAction];
        column "quantity" "int" [NOT_NULL];
        column "price" "numeric(10,2)" [NOT_NULL] ];
    (* 8. *)
    create_or_replace_function "handle_new_user" handle_new_user;
    drop_trigger_if_exists "on_auth_user_created" "auth.users";
    create_trigger_after_insert "on_auth_user_created" "auth.users" "handle_new_user";
    (* 9. *)
    enable_rls "profiles";
    drop_policy_if_exists "Users can view their own profile" "profiles";
    create_policy "profiles" users_can_view_their_own_profile;
    drop_policy_if_exists "Users can update their own profile" "profiles";
    create_policy "profiles" users_can_update_their_own_profile;
    enable_rls "products";
    drop_policy_if_exists "Products are publicly visible" "products";
    create_policy "products" products_are_publicly_visible;
    enable_rls "categories";
    drop_policy_if_exists "Categories are publicly visible" "categories";
    create_policy "categories" categories_are_publicly_visible;
    enable_rls "orders";
    drop_policy_if_exists "Users can view their own orders" "orders";
    create_policy "orders" users_can_view_their_own_orders;
    drop_policy_if_exists "Users can create their own orders" "orders";
    create_policy "orders" users_can_create_their_own_orders;
    enable_rls "order_items";
    drop_policy_if_exists "Users can view items in their own orders" "order_items";
    create_policy "order_items" users_can_view_items_in_their_own_orders ].

Definition seed_categories : step :=
  insert_into "categories" ["name"; "slug"; "description"]
    [ [VText "Tas"; VText "tas"; VText "Koleksi tas anyaman eceng gondok"];
      [VText "Dekorasi"; VText "dekorasi"; VText "Hiasan dinding dan dekorasi rumah"];
      [VText "Aksesori Rumah"; VText "aksesori-rumah"; VText "Aksesori fungsional untuk rumah"];
      [VText "Premium"; VText "premium"; VText "Koleksi produk premium dan edisi terbatas"] ]
    (OnConflictDoNothing "slug").

Definition seed_products : step := fun s =>
  let tas_id := select_into s "id" "categories" (fun r => sql_eq (col r "slug") (VText "tas")) in
  let dekorasi_id :=
    select_into s "id" "categories" (fun r => sql_eq (col r "slug") (VText "dekorasi")) in
  let aksesori_id :=
    select_into s "id" "categories" (fun r => sql_eq (col r "slug") (VText "aksesori-rumah")) in
  let premium_id :=
    select_into s "id" "categories" (fun r => sql_eq (col r "slug") (VText "premium")) in
  (* "Clear existing products to avoid duplicates during re-runs of the script" *)
  s <- delete_from "products" (fun _ => true) s ;;
  insert_into "products" sample_product_columns
    (sample_products_3 tas_id dekorasi_id aksesori_id premium_id) NoOnConflict s.

(** 10. Seed data *)
Definition seed : step := fun s => s <- seed_categories s ;; seed_products s.

Definition script : list step := schema ++ [seed].

End Migration_20250120120006.

(** ** supabase/migrations/20250120120007_final_definitive_schema_fix.sql *)

Module Migration_20250120120007.

Definition public_profiles_are_viewable_by_everyone : policy :=
  Build_policy "Public profiles are viewable by everyone." SELECT (Some always) None.

Definition users_can_insert_their_own_profile : policy :=
  Build_policy "Users can insert their own profile." INSERT None (Some (uid_equals "id")).

Definition users_can_update_their_own_profile : policy :=
  Build_policy "Users can update their own profile." UPDATE (Some (uid_equals "id")) None.

Definition public_categories_are_viewable_by_everyone : policy :=
  Build_policy "Public categories are viewable by everyone." SELECT (Some always) None.

Definition public_products_are_viewable_by_everyone : policy :=
  Build_policy "Public products are viewable by everyone." SELECT (Some always) None.

Definition users_can_view_their_own_orders : policy :=
  Build_policy "Users can view their own orders." SELECT (Some (uid_equals "user_id")) None.

Definition users_can_view_items_in_their_own_orders : policy :=
  Build_policy "Users can view items in their own orders." SELECT
    (Some parent_order_owner_equals_uid) None.

Definition admins_have_full_access : policy :=
  Build_policy "Admins have full access" ALL
    (Some role_of_uid_is_admin) (Some role_of_uid_is_admin).

(** ALTER TABLE public.order_items ADD CONSTRAINT order_items_product_id_fkey
    FOREIGN KEY (product_id) REFERENCES public.products(id) ON DELETE RESTRICT *)
Definition order_items_product_id_fkey : constraint :=
  {| con_name := "order_items_product_id_fkey";
     con_kind_of := ForeignKey "product_id" "products" "id" Restrict |}.

(** The columns of [public.profiles] as this script creates the table. *)
Definition profiles_columns : list coldef :=
  [ column "id" "uuid" [NOT_NULL; PRIMARY_KEY; REFERENCES "auth.users" "id" Cascade];
    column "full_name" "text" [];
    column "role" "text" [DEFAULT (DConst (VText "user"))];
    column "updated_at" "timestamptz" [] ].

(** The columns of [public.categories] as this script creates the table. *)
Definition categories_columns : list coldef :=
  [ column "id" "uuid" [NOT_NULL; DEFAULT DGenUuid; PRIMARY_KEY];
    column "name" "text" [NOT_NULL];
    column "slug" "text" [NOT_NULL; UNIQUE];
    column "description" "text" [] ].

(** The columns of [public.products] as this script creates the table. *)
Definition products_columns : list coldef :=
  [ column "id" "uuid" [NOT_NULL; DEFAULT DGenUuid; PRIMARY_KEY];
    column "name" "text" [NOT_NULL];
    column "price" "numeric(10,2)" [NOT_NULL];
    column "description" "text" [];
    column "is_featured" "boolean" [DEFAULT (DConst (VBool false))];
    column "is_published" "boolean" [DEFAULT (DConst (VBool true))];
    column "created_at" "timestamptz" [DEFAULT DNow];
    column "updated_at" "timestamptz" [DEFAULT DNow] ].

Definition schema : list step :=
  [ (* 1. *)
    create_extension_if_not_exists "pgcrypto";
    (* 2. *)
    create_table_if_not_exists "profiles" profiles_columns;
    (* 3. *)
    create_table_if_not_exists "categories" categories_columns;
    (* 4. *)
    create_table_if_not_exists "products" products_columns;
    (* 5. IF EXISTS (.. column_name = 'category') THEN
            ALTER TABLE public.products DROP COLUMN category; END IF *)
    (fun s => if has_column s "products" "category"
              then drop_column "products" "category" s else Ok s);
    (* 6. *)
    add_column_if_not_exists "products" (column "image_urls" "text[]" []);
    add_column_if_not_exists "products"
      (column "stock" "integer" [NOT_NULL; DEFAULT (DConst (VInt 0))]);
    add_column_if_not_exists "products"
      (column "rating" "numeric(2,1)" [DEFAULT (DConst (VNum 0 1))]);
    add_column_if_not_exists "products" (column "category_id" "uuid" []);
    (* 7. *)
    unless_constraint_named "products" "products_category_id_fkey"
      (add_constraint "products" products_category_id_fkey);
    (* 8. *)
    create_table_if_not_exists "orders"
      [ column "id" "uuid" [NOT_NULL; DEFAULT DGenUuid; PRIMARY_KEY];
        column "user_id" "uuid" [NOT_NULL; REFERENCES "profiles" "id" NoAction];
        column "total_amount" "numeric(10,2)" [NOT_NULL];
        column "status" "text" [DEFAULT (DConst (VText "pending"))];
        column "created_at" "timestamptz" [DEFAULT DNow] ];
    create_table_if_not_exists "order_items"
      [ column "id" "uuid" [NOT_NULL; DEFAULT DGenUuid; PRIMARY_KEY];
        column "order_id" "uuid" [NOT_NULL; REFERENCES "orders" "id" Cascade];
        column "product_id" "uuid" [NOT_NULL];
        column "quantity" "integer" [NOT_NULL];
        column "price" "numeric(10,2)" [NOT_NULL] ];
    (* 9. *)
    unless_constraint_named "order_items" "order_items_product_id_fkey"
      (add_constraint "order_items" order_items_product_id_fkey);
    (* 10. *)
    enable_rls "profiles";
    enable_rls "categories";
    enable_rls "products";
    enable_rls "orders";
    enable_rls "order_items";
    drop_policy_if_exists "Public profiles are viewable by everyone." "profiles";
    create_policy "profiles" public_profiles_are_viewable_by_everyone;
    drop_policy_if_exists "Users can insert their own profile." "profiles";
    create_policy "profiles" users_can_insert_their_own_profile;
    drop_policy_if_exists "Users can update their own profile." "profiles";
    create_policy "profiles" users_can_update_their_own_profile;
    drop_policy_if_exists "Public categories are viewable by everyone." "categories";
    create_policy "categories" public_categories_are_viewable_by_everyone;
    drop_policy_if_exists "Public products are viewable by everyone." "products";
    create_policy "products" public_products_are_viewable_by_everyone;
    drop_policy_if_exists "Users can view their own orders." "orders";
    create_policy "orders" users_can_view_their_own_orders;
    drop_policy_if_exists "Users can view items in their own orders." "order_items";
    create_policy "order_items" users_can_view_items_in_their_own_orders;
    drop_policy_if_exists "Admins have full access" "products";
    create_policy "products" admins_have_full_access;
    (* 11. *)
    create_or_replace_function "handle_new_user" handle_new_user;
    (* 12. *)
    drop_trigger_if_exists "on_auth_user_created" "auth.users";
    create_trigger_after_insert "on_auth_user_created" "auth.users" "handle_new_user" ].

(** "Seed Categories and get their IDs" *)
Definition seed_categories : step :=
  insert_into "categories" ["name"; "slug"; "description"]
    [ [VText "Tas"; VText "tas"; VText "Koleksi tas anyaman eceng gondok."];
      [VText "Dekorasi"; VText "dekorasi"; VText "Hiasan rumah yang natural dan estetik."];
      [VText "Aksesori Rumah"; VText "aksesori-rumah"; VText "Perlengkapan rumah fungsional."];
      [VText "Premium"; VText "premium"; VText "Koleksi eksklusif dengan detail premium."] ]
    (OnConflictDoNothing "slug").

(** "Seed Products": .. ON CONFLICT (name) DO NOTHING; "Use name to
    prevent duplicates if script is re-run" *)
Definition seed_products : step := fun s =>
  let tas_id := select_into s "id" "categories" (fun r => sql_eq (col r "slug") (VText "tas")) in
  let dekorasi_id :=
    select_into s "id" "categories" (fun r => sql_eq (col r "slug") (VText "dekorasi")) in
  let aksesori_id :=
    select_into s "id" "categories" (fun r => sql_eq (col r "slug") (VText "aksesori-rumah")) in
  let premium_id :=
    select_into s "id" "categories" (fun r => sql_eq (col r "slug") (VText "premium")) in
  insert_into "products" sample_product_columns
    (sample_products_2 tas_id dekorasi_id aksesori_id premium_id) (OnConflictDoNothing "name") s.

(** 13. Seed Data (Idempotent) *)
Definition seed : step := fun s => s <- seed_categories s ;; seed_products s.

Definition script : list step := schema ++ [seed].

End Migration_20250120120007.

(** ** unnamed/part_001, first script: "Definitive Schema Fix & Seeding"
    (the revision that adds UNIQUE to products.name) *)

Module Part_001_definitive_fix.

(** ALTER TABLE public.products ADD CONSTRAINT products_name_key UNIQUE (name) *)
Definition products_name_key : constraint :=
  {| con_name := "products_name_key"; con_kind_of := Unique "name" |}.

(** The columns of [public.categories] as this script creates the table. *)
Definition categories_columns : list coldef :=
  [ column "id" "uuid" [PRIMARY_KEY; DEFAULT DGenUuid];
    column "name" "text" [NOT_NULL; UNIQUE];
    column "slug" "text" [NOT_NULL; UNIQUE] ].

(** The columns of [public.products] as this script creates the table. *)
Definition products_columns : list coldef :=
  [ column "id" "uuid" [PRIMARY_KEY; DEFAULT DGenUuid];
    column "name" "text" [NOT_NULL; UNIQUE];
    column "description" "text" [];
    column "price" "numeric(10,2)" [NOT_NULL];
    column "image_urls" "text[]" [];
    column "stock" "integer" [NOT_NULL; DEFAULT (DConst (VInt 0))];
    column "rating" "numeric(2,1)" [];
    column "category_id" "uuid" [REFERENCES "categories" "id" NoAction];
    column "created_at" "timestamptz" [DEFAULT DNow];
    column "updated_at" "timestamptz" [DEFAULT DNow] ].

Definition schema : list step :=
  [ create_extension_if_not_exists "uuid-ossp";
    drop_column_if_exists "products" "category";
    create_table_if_not_exists "categories" categories_columns;
    create_table_if_not_exists "products" products_columns;
    add_column_if_not_exists "products" (column "image_urls" "text[]" []);
    add_column_if_not_exists "products"
      (column "stock" "integer" [NOT_NULL; DEFAULT (DConst (VInt 0))]);
    add_column_if_not_exists "products" (column "rating" "numeric(2,1)" []);
    add_column_if_not_exists "products"
      (column "category_id" "uuid" [REFERENCES "categories" "id" NoAction]);
    unless_constraint_named "products" "products_name_key"
      (add_constraint "products" products_name_key) ].

(** INSERT INTO public.categories (name, slug) VALUES (n, g)
    ON CONFLICT (name) DO UPDATE SET slug = EXCLUDED.slug RETURNING id INTO .. *)
Definition upsert_category (n g : string) (s : store) : result (store * value) :=
  insert_returning_id "categories" ["name"; "slug"] [VText n; VText g]
    (OnConflictDoUpdate "name" ["slug"]) s.

(** "Insert categories and get their IDs" *)
Definition seed_categories (s : store) : result (store * (value * value * value * value)) :=
  '(s, tas_id) <- upsert_category "Tas" "tas" s ;;
  '(s, dekorasi_id) <- upsert_category "Dekorasi" "dekorasi" s ;;
  '(s, aksesori_id) <- upsert_category "Aksesori Rumah" "aksesori-rumah" s ;;
  '(s, premium_id) <- upsert_category "Premium" "premium" s ;;
  Ok (s, (tas_id, dekorasi_id, aksesori_id, premium_id)).

(** "Insert products, now with a working ON CONFLICT clause" *)
Definition seed_products (ids : value * value * value * value) : step :=
  let '(tas_id, dekorasi_id, aksesori_id, premium_id) := ids in
  insert_into "products" sample_product_columns
    (sample_products_3 tas_id dekorasi_id aksesori_id premium_id) (OnConflictDoNothing "name").

Definition seed : step := fun s =>
  '(s, ids) <- seed_categories s ;; seed_products ids s.

Definition script : list step := schema ++ [seed].

End Part_001_definitive_fix.

(** ** supabase/migrations/20250120120002_fix_product_seeding.sql, second
    document: "Initial Schema & Data Seeding"

    The later scripts supersede this one; of it, the policies on orders and
    on order items are recorded, which a database that once ran it still
    carries. *)

Module Initial_schema.

Definition users_can_manage_their_own_orders : policy :=
  Build_policy "Users can manage their own orders." ALL (Some (uid_equals "user_id")) None.

Definition admins_can_manage_all_orders : policy :=
  Build_policy "Admins can manage all orders." ALL (Some role_of_uid_is_admin) None.

Definition users_can_manage_their_own_order_items : policy :=
  Build_policy "Users can manage their own order items." ALL
    (Some parent_order_owner_equals_uid) None.

Definition admins_can_manage_all_order_items : policy :=
  Build_policy "Admins can manage all order items." ALL (Some role_of_uid_is_admin) None.

End Initial_schema.

(** Every policy that some script of the repository creates on orders. *)
Definition repository_orders_policies : list policy :=
  [ Initial_schema.users_can_manage_their_own_orders;
    Initial_schema.admins_can_manage_all_orders;
    Migration_20250120120006.users_can_view_their_own_orders;
    Migration_20250120120006.users_can_create_their_own_orders;
    Migration_20250120120007.users_can_view_their_own_orders;
    Part_001_comprehensive_fix.users_can_view_their_own_orders;
    Part_001_comprehensive_fix.users_can_create_orders_for_themselves;
    Part_001_comprehensive_fix.admins_can_manage_all_orders;
    Migration_20250120120009.users_can_view_their_own_orders;
    Migration_20250120120009.users_can_create_new_orders;
    Migration_20250120120009.admins_can_manage_all_orders ].

(** Every policy that some script of the repository creates on order_items. *)
Definition repository_order_items_policies : list policy :=
  [ Initial_schema.users_can_manage_their_own_order_items;
    Initial_schema.admins_can_manage_all_order_items;
    Migration_20250120120006.users_can_view_items_in_their_own_orders;
    Migration_20250120120007.users_can_view_items_in_their_own_orders;
    Part_001_comprehensive_fix.users_can_view_their_own_order_items;
    Part_001_comprehensive_fix.admins_can_manage_all_order_items;
    Migration_20250120120009.users_can_view_their_own_order_items;
    Migration_20250120120009.users_can_create_new_order_items;
    Migration_20250120120009.admins_can_manage_all_order_items ].

(** A primary key or unique constraint on column [c] holds of the rows. *)
Definition key_holds (c : string) (rs : list row) : Prop :=
  distinct_values (non_null_cells c rs) = true.

(** ** main.js: the dashboard button *)

Module Main_js.

Inductive js_value : Type :=
| JsUndefined
| JsNull
| JsString (s : string)
| JsNumber (z : Z)
| JsBool (b : bool).

(** [v === 'literal'] *)
Definition strict_equals (v : js_value) (literal : string) : bool :=
  match v with
  | JsString s => String.eqb s literal
  | _ => false
  end.

(** [v || 'literal'], for a text *)
Definition or_else (v : js_value) (literal : string) : string :=
  match v with
  | JsString EmptyString => literal
  | JsString s => s
  | _ => literal
  end.

(** A row of [select('full_name, role')]. *)
Record profile : Type := {
  full_name : js_value;
  role : js_value
}.

Record window : Type := { location_href : string }.

Record login_button : Type := {
  textContent : string;
  href : string;
  onclick : option (window -> window)
}.

Inductive auth_event : Type := SIGNED_IN | SIGNED_OUT | OTHER_EVENT.

(** The outcome of the profiles query: [{ data, error }]. *)
Inductive query_result : Type :=
| QueryError
| QueryData (profiles : option (list profile)).

(** loginBtn.onclick = (e) => { .. } *)
Definition dashboard_click (p : profile) : window -> window := fun _ =>
  let role := role p in
  if strict_equals role "admin" then {| location_href := "admin-dashboard.html" |}
  else if strict_equals role "user" then {| location_href := "user-dashboard.html" |}
  else if strict_equals role "mitra" then {| location_href := "mitra-dashboard.html" |}
  else {| location_href := "login.html" |}.

(** supabase.auth.onAuthStateChange(async (event, session) => { .. }),
    for a page that has the button; [signed_in_user] is [session?.user]
    and [q] the answer to the query the handler sends when it needs it. *)
Definition on_auth_state_change (event : auth_event) (signed_in_user : bool)
    (q : query_result) (btn : login_button) : login_button :=
  match event, signed_in_user with
  | SIGNED_IN, true =>
      match q with
      | QueryError => btn
      | QueryData (Some (p :: _)) =>
          {| textContent := or_else (full_name p) "Dashboard";
             href := "#";
             onclick := Some (dashboard_click p) |}
      | QueryData _ => btn
      end
  | SIGNED_OUT, _ =>
      {| textContent := "Masuk"; href := "login.html"; onclick := None |}
  | _, _ => btn
  end.

End Main_js.

(** ** Example databases *)

Definition unwrap (r : result store) : store :=
  match r with
  | Ok s => s
  | Err _ => new_project
  end.

(** A shop set up by the comprehensive fix, with the reviews table, an
    administrator (identity 1), two customers (identities 2 and 3), an
    order of customer 2 and one item in it. *)
Definition shop_before_policies : store :=
  unwrap
    (run (Part_001_comprehensive_fix.script
          ++ [ create_reviews;
               on_identity_created 1 "admin@admin.com"
                 [("full_name", "Administrator"); ("role", "admin")];
               on_identity_created 2 "user@user.com"
                 [("full_name", "Customer User"); ("role", "user")];
               on_identity_created 3 "mitra@mitra.com"
                 [("full_name", "Partner Mitra"); ("role", "mitra")];
               insert_into "orders" ["user_id"; "total_amount"]
                 [[VUuid 2; VNum 180000 0]] NoOnConflict;
               insert_into "order_items" ["order_id"; "product_id"; "quantity"; "price"]
                 [[VUuid 1; VUuid 1; VInt 1; VNum 180000 0]] NoOnConflict ])
         new_project).

(** The same shop once the policy script 20250120120009 has run. *)
Definition shop : store :=
  unwrap (run Migration_20250120120009.script shop_before_policies).

Definition administrator : row :=
  [ ("id", VUuid 1); ("full_name", VText "Administrator"); ("role", VText "admin");
    ("updated_at", VNull) ].

Definition customer : row :=
  [ ("id", VUuid 2); ("full_name", VText "Customer User"); ("role", VText "user");
    ("updated_at", VNull) ].

Definition partner : row :=
  [ ("id", VUuid 3); ("full_name", VText "Partner Mitra"); ("role", VText "mitra");
    ("updated_at", VNull) ].

Definition customers_order : row :=
  [ ("id", VUuid 1); ("user_id", VUuid 2); ("total_amount", VNum 180000 0);
    ("status", VText "pending"); ("created_at", VNow) ].

Definition customers_item : row :=
  [ ("id", VUuid 1); ("order_id", VUuid 1); ("product_id", VUuid 1); ("quantity", VInt 1);
    ("price", VNum 180000 0) ].

Definition is_ok {A : Type} (r : result A) : bool :=
  match r with
  | Ok _ => true
  | Err _ => false
  end.

(** The caller [uid] has a profile whose role is admin. *)
Definition is_admin (d : db) (uid : value) : bool :=
  existsb (fun p => holds (sql_eq (col p "id") uid)
                    && holds (sql_eq (col p "role") (VText "admin")))
          (d "profiles").

(** A project on which the scripts 20250120120002 and 20250120120006 ran,
    in the order of their timestamps. *)
Definition migrated_project : store :=
  unwrap (run (Migration_20250120120002.script ++ Migration_20250120120006.script) new_project).

(** A new project on which the script 20250120120006 ran alone. *)
Definition project_from_20250120120006 : store :=
  unwrap (run Migration_20250120120006.script new_project).

(** DELETE FROM public.categories WHERE slug = g *)
Definition delete_category (g : string) : step :=
  delete_from "categories" (fun r => holds (sql_eq (col r "slug") (VText g))).

(** The ON DELETE action of the foreign key named [n] on table [t]. *)
Definition on_delete_action (s : store) (t n : string) : option fk_action :=
  match find (fun k => String.eqb (con_name k) n) (constraints_of s t) with
  | Some k =>
      match con_kind_of k with
      | ForeignKey _ _ _ a => Some a
      | _ => None
      end
  | None => None
  end.

(** Name and category of every product. *)
Definition product_categories (s : store) : list (value * value) :=
  map (fun r => (col r "name", col r "category_id")) (rows_of s "products").

(** Every row of [s] is still in [s'], at its place. *)
Definition keeps_rows (s s' : store) : Prop :=
  forall t, exists extra, rows_of s' t = rows_of s t ++ extra.

(** ** Notions used in the properties *)

(** What a statement does to each table: table [t] goes through [f], the
    others stay. *)
Definition touches (t : string) (f : table -> table) (s s' : store) : Prop :=
  forall t', get_table s' t' =
             if String.eqb t t' then option_map f (get_table s t') else get_table s t'.

(** Does the conflict clause rewrite the row in place? *)
Definition is_update (oc : on_conflict) : bool :=
  match oc with
  | OnConflictDoUpdate _ _ => true
  | _ => false
  end.


(** The value an INSERT lists for column [c]; NULL when it lists none. *)
Definition proposed (c : string) (cols : list string) (vals : list value) : value :=
  match lookup c (combine cols vals) with
  | Some v => v
  | None => VNull
  end.

(** The number of rows whose column [c] is [v]. *)
Definition count_where (c : string) (v : value) (rs : list row) : nat :=
  List.length (filter (fun r => holds (sql_eq (col r c) v)) rs).

(** Row [r] is the row some value list of [L] proposes for table [tb]. *)
Definition from_values (cols : list string) (tb : table) (L : list (list value)) (r : row) : Prop :=
  exists vals rs, In vals L /\ r = build_row (with_rows tb rs) cols vals.

(** The constraints every script gives [public.categories] on creating it,
    the definitive fix of unnamed/part_001 apart. *)
Definition categories_constraints : list constraint :=
  [ {| con_name := "categories_pkey"; con_kind_of := PrimaryKey "id" |};
    {| con_name := "categories_slug_key"; con_kind_of := Unique "slug" |} ].

(** The categories table as one of the scripts 20250120120002,
    20250120120006, 20250120120007 and the comprehensive fix creates it. *)
Definition categories_as_created (tb : table) : Prop :=
  In (t_columns tb)
     [ Migration_20250120120002.categories_columns;
       Migration_20250120120006.categories_columns;
       Migration_20250120120007.categories_columns;
       Part_001_comprehensive_fix.categories_columns ]
  /\ t_constraints tb = categories_constraints.

(** The seed steps that insert the categories ON CONFLICT (slug) DO NOTHING. *)
Definition category_seeds : list step :=
  [ Migration_20250120120002.seed_categories;
    Migration_20250120120006.seed_categories;
    Migration_20250120120007.seed_categories;
    Part_001_comprehensive_fix.seed_categories ].

Definition seeded_slugs : list string := ["tas"; "dekorasi"; "aksesori-rumah"; "premium"].

(** A new project on which the schema steps of 20250120120007 ran. *)
Definition project_with_schema_20250120120007 : store :=
  unwrap (run Migration_20250120120007.schema new_project).

(** The product seed steps that insert ON CONFLICT (name) DO NOTHING: the one
    of 20250120120007, and the one of the definitive fix of unnamed/part_001
    for the category ids its category seed returned. *)
Definition product_seeds_on_name (seed : step) : Prop :=
  seed = Migration_20250120120007.seed_products
  \/ exists ids, seed = Part_001_definitive_fix.seed_products ids.

(** A new project on which the schema steps and the category seed of the
    definitive fix ran, with the category ids the seed returned. *)
Definition definitive_fix_categories : store * (value * value * value * value) :=
  match s <- run Part_001_definitive_fix.schema new_project ;;
        Part_001_definitive_fix.seed_categories s with
  | Ok x => x
  | Err _ => (new_project, (VNull, VNull, VNull, VNull))
  end.

(** The table named [t], or a table without columns when there is none. *)
Definition table_of (s : store) (t : string) : table :=
  match get_table s t with
  | Some tb => tb
  | None => {| t_columns := []; t_constraints := []; t_rls := false;
               t_policies := []; t_rows := [] |}
  end.

Definition has_table (s : store) (t : string) : bool :=
  match get_table s t with
  | Some _ => true
  | None => false
  end.

(** The names of the six sample products. *)
Definition sample_names : list value :=
  [ VText "Tas Tote Premium"; VText "Alas Meja Natural"; VText "Hiasan Dinding Mandala";
    VText "Tempat Pensil Minimalis"; VText "Keranjang Multifungsi"; VText "Clutch Pesta Elegan" ].

(** The seed steps made of INSERT statements alone. *)
Definition only_inserts (seed : step) : Prop :=
  seed = Migration_20250120120002.seed
  \/ seed = Migration_20250120120007.seed
  \/ exists ids, seed = Part_001_definitive_fix.seed_products ids.

(** The seed steps that run DELETE FROM public.products before inserting. *)
Definition clears_products (seed : step) : Prop :=
  seed = Migration_20250120120006.seed \/ seed = Part_001_comprehensive_fix.seed.

(** The project of 20250120120006 after an operator entered a product of
    their own. *)
Definition operators_shop : store :=
  unwrap (insert_into "products" ["name"; "price"]
            [[VText "Vas Bunga Anyaman"; VNum 75000 0]] NoOnConflict
            project_from_20250120120006).

Definition named (n : string) (r : row) : bool := value_eqb (col r "name") (VText n).

(** A new project on which the script 20250120120002 ran alone. *)
Definition project_from_20250120120002 : store :=
  unwrap (run Migration_20250120120002.script new_project).

(** The constraints every script gives [public.profiles] on creating it. *)
Definition profiles_constraints : list constraint :=
  [ {| con_name := "profiles_pkey"; con_kind_of := PrimaryKey "id" |};
    {| con_name := "profiles_id_fkey";
       con_kind_of := ForeignKey "id" "auth.users" "id" Cascade |} ].

(** The profiles table as one of the scripts 20250120120002,
    20250120120006, 20250120120007 and the comprehensive fix creates it. *)
Definition profiles_as_created (pf : table) : Prop :=
  In (t_columns pf)
     [ Migration_20250120120002.profiles_columns;
       Migration_20250120120006.profiles_columns;
       Migration_20250120120007.profiles_columns;
       Part_001_comprehensive_fix.profiles_columns ]
  /\ t_constraints pf = profiles_constraints.

(** The identities table with the columns and the key the platform gives it. *)
Definition identities_as_created (au : table) : Prop :=
  t_columns au = t_columns auth_users /\ t_constraints au = t_constraints auth_users.

(** The role the sign-up form put into the identity's metadata. *)
Definition requested_role (meta : list (string * string)) : option string :=
  option_map snd (find (fun kv => String.eqb (fst kv) "role") meta).

(** The profiles of identity [id]. *)
Definition profiles_of_identity (s : store) (id : N) : list row :=
  filter (fun r => holds (sql_eq (col r "id") (VUuid id))) (rows_of s "profiles").

(** The identity [id] is not registered and has no profile. *)
Definition unknown_identity (s : store) (id : N) : Prop :=
  existsb (fun r => holds (sql_eq (col r "id") (VUuid id))) (rows_of s "auth.users") = false
  /\ profiles_of_identity s id = [].

(** CREATE TRIGGER on_auth_user_created AFTER INSERT ON auth.users
    FOR EACH ROW EXECUTE FUNCTION public.handle_new_user() *)
Definition on_auth_user_created : trigger :=
  {| tg_name := "on_auth_user_created"; tg_table := "auth.users";
     tg_function := "handle_new_user" |}.

(** The one trigger on auth.users is on_auth_user_created, and it runs [f]. *)
Definition profile_trigger_installed (s : store) (f : trigger_fn) : Prop :=
  filter (fun g => String.eqb (tg_table g) "auth.users") (st_triggers s) = [on_auth_user_created]
  /\ lookup "handle_new_user" (st_functions s) = Some f.

(** Registration of identity [id] in [s] gives exactly one profile for it,
    with role [v]. *)
Definition registers_with_role (s : store) (id : N) (email : string)
    (meta : list (string * string)) (v : value) : Prop :=
  exists s' p,
    on_identity_created id email meta s = Ok s'
    /\ profiles_of_identity s' id = [p]
    /\ col p "role" = v.

(** The trigger function goes with the role column it was written for: the
    one with the cast with the enum column of the comprehensive fix, the
    one without with a text column. *)
Definition fits_role_column (f : trigger_fn) (pf : table) : Prop :=
  (f = handle_new_user /\ t_columns pf <> Part_001_comprehensive_fix.profiles_columns)
  \/ (f = handle_new_user_coalesce
      /\ t_columns pf = Part_001_comprehensive_fix.profiles_columns).

(** Sign-up metadata: a role outside the three, and no role at all. *)
Definition superuser_meta : list (string * string) :=
  [("full_name", "Sari"); ("role", "superuser")].

Definition roleless_meta : list (string * string) := [("full_name", "Sari")].

Definition mitra_meta : list (string * string) := [("full_name", "Sari"); ("role", "mitra")].

(** The names of the policies on each table the policy script covers. *)
Definition policy_names (s : store) : list (string * list string) :=
  map (fun t => (t, map pol_name (policies_of s t)))
      ["profiles"; "categories"; "products"; "orders"; "order_items"; "reviews"].

(** The category rows and the ids a category seed left. *)
Definition category_rows (r : result (store * (value * value * value * value)))
    : option (list row * (value * value * value * value)) :=
  match r with
  | Ok (s, ids) => Some (rows_of s "categories", ids)
  | Err _ => None
  end.

(** The project of 20250120120002 with the reviews table added. *)
Definition project_from_20250120120002_with_reviews : store :=
  unwrap (create_reviews project_from_20250120120002).

(** A new project on which the schema steps and the category seed of
    20250120120002 ran: the product table is still empty. *)
Definition project_before_product_seed_20250120120002 : store :=
  unwrap (s <- run Migration_20250120120002.schema new_project ;;
          Migration_20250120120002.seed_categories s).

(** ** What the policy script does, table by table *)

(** The tables the policy script 20250120120009 names. *)
Definition secured_tables : list string :=
  ["profiles"; "categories"; "products"; "orders"; "order_items"; "reviews"].

(** For each of them, the policy names step 2 drops and the policies step 3
    creates, in the order of the script. *)
Definition policy_script_plan : list (string * (list string * list policy)) :=
  [ ("profiles",
     ([ "Users can view their own profile."; "Users can update their own profile." ],
      [ Migration_20250120120009.users_can_view_their_own_profile;
        Migration_20250120120009.users_can_update_their_own_profile ]));
    ("categories",
     ([ "Public can view all categories."; "Admins can manage categories." ],
      [ Migration_20250120120009.public_can_view_all_categories;
        Migration_20250120120009.admins_can_manage_categories ]));
    ("products",
     ([ "Public can view all products."; "Admins can manage products." ],
      [ Migration_20250120120009.public_can_view_all_products;
        Migration_20250120120009.admins_can_manage_products ]));
    ("orders",
     ([ "Users can view their own orders."; "Users can create new orders.";
        "Admins can manage all orders." ],
      [ Migration_20250120120009.users_can_view_their_own_orders;
        Migration_20250120120009.users_can_create_new_orders;
        Migration_20250120120009.admins_can_manage_all_orders ]));
    ("order_items",
     ([ "Users can view their own order items."; "Users can create new order items.";
        "Admins can manage all order items." ],
      [ Migration_20250120120009.users_can_view_their_own_order_items;
        Migration_20250120120009.users_can_create_new_order_items;
        Migration_20250120120009.admins_can_manage_all_order_items ]));
    ("reviews",
     ([ "Public can view all reviews."; "Users can create reviews.";
        "Users can manage their own reviews."; "Users can delete their own reviews.";
        "Admins can manage all reviews." ],
      [ Migration_20250120120009.public_can_view_all_reviews;
        Migration_20250120120009.users_can_create_reviews;
        Migration_20250120120009.users_can_manage_their_own_reviews;
        Migration_20250120120009.users_can_delete_their_own_reviews;
        Migration_20250120120009.admins_can_manage_all_reviews ])) ].

Definition drop_all (names : list string) (ps : list policy) : list policy :=
  fold_left (fun l n => drop_named n l) names ps.

(** Table [tb], named [t], once the policy script has run. *)
Definition after_policy_script (t : string) (tb : table) : table :=
  match lookup t policy_script_plan with
  | Some (dropped, created) =>
      {| t_columns := t_columns tb; t_constraints := t_constraints tb; t_rls := true;
         t_policies := drop_all dropped (t_policies tb) ++ created;
         t_rows := t_rows tb |}
  | None => tb
  end.

(** Everything in a store but its tables. *)
Definition beside_tables (s : store)
    : list string * list (string * list string) * list (string * trigger_fn) * list trigger :=
  (st_extensions s, st_types s, st_functions s, st_triggers s).

(** Two stores hold the same database: the same table under every name,
    and the same types, functions and triggers. *)
Definition same_database (a b : store) : Prop :=
  (forall t, get_table a t = get_table b t) /\ beside_tables a = beside_tables b.

(** ** Writing under row-level security *)

(** The WITH CHECK expression of a policy; a policy declared without one
    checks a new row with its USING expression. *)
Definition check_passes (d : db) (uid : value) (r : row) (p : policy) : bool :=
  match pol_check p with
  | Some e => holds (e d uid r)
  | None => using_passes d uid r p
  end.

(** A new row is let in by a command when the check of at least one policy
    for that command is true. *)
Definition row_admissible (s : store) (uid : value) (cmd : command) (t : string) (r : row)
    : bool :=
  match get_table s t with
  | None => false
  | Some tb =>
      if t_rls tb
      then existsb (fun p => applies cmd p && check_passes (db_of s) uid r p) (t_policies tb)
      else true
  end.

(** INSERT of row [r]. *)
Definition can_insert (s : store) (uid : value) (t : string) (r : row) : bool :=
  row_admissible s uid INSERT t r.

(** UPDATE .. WHERE, turning row [old] into [new]: the statement has to see
    the old row, both as a SELECT and as an UPDATE, and the new row has to
    pass the check. *)
Definition can_update (s : store) (uid : value) (t : string) (old new : row) : bool :=
  row_visible s uid SELECT t old && row_visible s uid UPDATE t old
  && row_admissible s uid UPDATE t new.

(** DELETE .. WHERE of row [r]. *)
Definition can_delete (s : store) (uid : value) (t : string) (r : row) : bool :=
  row_visible s uid SELECT t r && row_visible s uid DELETE t r.

(** The caller owns row [r], whose owner is in column [c]. *)
Definition owns (uid : value) (c : string) (r : row) : bool := holds (sql_eq uid (col r c)).

(** ** The other policies of the "Initial Schema & Data Seeding" script *)

Module Initial_schema_policies.

Definition users_can_view_their_own_profile : policy :=
  Build_policy "Users can view their own profile." SELECT (Some (uid_equals "id")) None.

Definition users_can_update_their_own_profile : policy :=
  Build_policy "Users can update their own profile." UPDATE (Some (uid_equals "id")) None.

Definition admins_can_manage_all_profiles : policy :=
  Build_policy "Admins can manage all profiles." ALL (Some role_of_uid_is_admin) None.

Definition allow_public_read_access_to_categories : policy :=
  Build_policy "Allow public read access to categories" SELECT (Some always) None.

Definition allow_public_read_access_to_products : policy :=
  Build_policy "Allow public read access to products" SELECT (Some always) None.

Definition admins_can_manage_categories : policy :=
  Build_policy "Admins can manage categories" ALL (Some role_of_uid_is_admin) None.

Definition admins_can_manage_products : policy :=
  Build_policy "Admins can manage products" ALL (Some role_of_uid_is_admin) None.

End Initial_schema_policies.

(** Every policy that some script of the repository creates on products. *)
Definition repository_products_policies : list policy :=
  [ Initial_schema_policies.allow_public_read_access_to_products;
    Initial_schema_policies.admins_can_manage_products;
    Migration_20250120120006.products_are_publicly_visible;
    Migration_20250120120007.public_products_are_viewable_by_everyone;
    Migration_20250120120007.admins_have_full_access;
    Part_001_comprehensive_fix.products_are_viewable_by_everyone;
    Part_001_comprehensive_fix.admins_can_manage_products;
    Migration_20250120120009.public_can_view_all_products;
    Migration_20250120120009.admins_can_manage_products ].

(** Every policy that some script of the repository creates on categories. *)
Definition repository_categories_policies : list policy :=
  [ Initial_schema_policies.allow_public_read_access_to_categories;
    Initial_schema_policies.admins_can_manage_categories;
    Migration_20250120120006.categories_are_publicly_visible;
    Migration_20250120120007.public_categories_are_viewable_by_everyone;
    Part_001_comprehensive_fix.categories_are_viewable_by_everyone;
    Part_001_comprehensive_fix.admins_can_manage_categories;
    Migration_20250120120009.public_can_view_all_categories;
    Migration_20250120120009.admins_can_manage_categories ].

(** The policies on profiles of the scripts 20250120120002, 20250120120006,
    20250120120007 and 20250120120009 and of the comprehensive fix: none of
    them is for DELETE or for ALL. *)
Definition later_profiles_policies : list policy :=
  [ Migration_20250120120002.users_can_view_their_own_profile;
    Migration_20250120120002.users_can_update_their_own_profile;
    Migration_20250120120006.users_can_view_their_own_profile;
    Migration_20250120120006.users_can_update_their_own_profile;
    Migration_20250120120007.public_profiles_are_viewable_by_everyone;
    Migration_20250120120007.users_can_insert_their_own_profile;
    Migration_20250120120007.users_can_update_their_own_profile;
    Part_001_comprehensive_fix.public_profiles_are_viewable_by_everyone;
    Part_001_comprehensive_fix.users_can_insert_their_own_profile;
    Part_001_comprehensive_fix.users_can_update_their_own_profile;
    Migration_20250120120009.users_can_view_their_own_profile;
    Migration_20250120120009.users_can_update_their_own_profile ].

(** The policy names the policy script drops from table [t]. *)
Definition dropped_by_policy_script (t : string) : list string :=
  match lookup t policy_script_plan with
  | Some (dropped, _) => dropped
  | None => []
  end.

(** ** Notions used in the properties of whole scripts *)

(** A primary key or unique constraint on column [c]. *)
Definition backs (c : string) (k : constraint) : bool :=
  match con_kind_of k with
  | PrimaryKey c' | Unique c' => String.eqb c' c
  | _ => false
  end.

(** No primary key or unique constraint of table [t] is on column [c]; so
    too when there is no table [t]. *)
Definition unbacked (s : store) (t c : string) : bool :=
  match get_table s t with
  | Some tb => negb (has_arbiter c tb)
  | None => true
  end.

(** Table [t] has a policy named [n]. *)
Definition carries_policy (s : store) (t n : string) : bool :=
  match get_table s t with
  | Some tb => has_policy n (t_policies tb)
  | None => false
  end.

(** A property of the constraints and the policies of table [T]; [absent]
    says whether it holds when there is no such table. *)
Definition table_invariant (T : string) (absent : Prop)
    (Q : list constraint -> list policy -> Prop) (s : store) : Prop :=
  match get_table s T with
  | Some tb => Q (t_constraints tb) (t_policies tb)
  | None => absent
  end.

(** A table without its rows. *)
Definition shape (tb : table) : table := with_rows tb [].

(** The two databases have the same tables, up to their rows. *)
Definition same_shapes (s s' : store) : Prop :=
  forall t, option_map shape (get_table s' t) = option_map shape (get_table s t).

(** The constraints hold no primary key or unique constraint on [c]. *)
Definition no_arbiter_on (c : string) : list constraint -> list policy -> Prop :=
  fun cs _ => existsb (backs c) cs = false.

(** The policies hold one named [n]. *)
Definition with_policy (n : string) : list constraint -> list policy -> Prop :=
  fun _ ps => has_policy n ps = true.

(** ** Notions used in the properties of DELETE *)

(** A foreign key declared ON DELETE NO ACTION (the default) or RESTRICT. *)
Definition restrictive (k : constraint) : bool :=
  match con_kind_of k with
  | ForeignKey _ _ _ (NoAction | Restrict) => true
  | _ => false
  end.

(** Some row of the table that carries the foreign key [e] refers, through
    it, to a row of table [t] that [w] selects. *)
Definition refers_to (s : store) (t : string) (w : row -> bool) (e : string * constraint) : bool :=
  match con_kind_of (snd e) with
  | ForeignKey c _ rc _ =>
      existsb (fun r' => existsb (fun v => holds (sql_eq (col r' c) (col v rc)))
                                 (filter w (rows_of s t)))
              (rows_of s (fst e))
  | _ => false
  end.

(** The project of 20250120120006 with a registered customer and one order
    of one piece of the first sample product. *)
Definition ordering_shop : store :=
  unwrap
    (run [ on_identity_created 2 "user@user.com"
             [("full_name", "Customer User"); ("role", "user")];
           insert_into "orders" ["user_id"; "total_amount"]
             [[VUuid 2; VNum 180000 0]] NoOnConflict;
           insert_into "order_items" ["order_id"; "product_id"; "quantity"; "price"]
             [[VInt 1; VUuid 1; VInt 1; VNum 180000 0]] NoOnConflict ]
         project_from_20250120120006).

(** ** main.js: the product grid *)

From Stdlib Require QArith Qround.

Module Product_grid.

(** What evaluating an expression gives: a value, or an exception, named. *)
Inductive outcome (A : Type) : Type :=
| Returned (a : A)
| Thrown (exception : string).

Arguments Returned {A} a.
Arguments Thrown {A} exception.

(** A row of [products] as the client receives it: [null] is [None]; a
    number is the rational it stands for. *)
Record product : Type := {
  name : string;
  description : option string;
  price : QArith_base.Q;
  image_urls : option (list string);
  stock : option Z;
  rating : option QArith_base.Q
}.

Definition placeholder : string :=
  "https://img-wrapper.vercel.app/image?url=https://img-wrapper.vercel.app/image?url=https://img-wrapper.vercel.app/image?url=https://placehold.co/300x300".

(** (product.image_urls && product.image_urls.length > 0)
      ? product.image_urls[0] : '..placehold.co/300x300' *)
Definition image_url (p : product) : string :=
  match image_urls p with
  | Some (u :: _) => u
  | _ => placeholder
  end.

(** The number a relational operator compares: [null] counts as 0. *)
Definition to_number (n : option Z) : Z :=
  match n with
  | Some z => z
  | None => 0
  end.

(** The badge in the corner of the picture. *)
Inductive badge : Type :=
| Stok_tersedia
| Stok_terbatas (shown : option Z)
| Habis.

(** product.stock > 5 ? 'Stok Tersedia'
      : product.stock > 0 ? `Stok Terbatas: ${product.stock}` : 'Habis' *)
Definition stock_status (p : product) : badge :=
  if (5 <? to_number (stock p))%Z then Stok_tersedia
  else if (0 <? to_number (stock p))%Z then Stok_terbatas (stock p)
  else Habis.

(** product.stock === 0 *)
Definition stock_is_zero (p : product) : bool :=
  match stock p with
  | Some 0%Z => true
  | _ => false
  end.

Record button : Type := {
  classes : list string;
  disabled : bool;
  text : string
}.

(** The button of the card: its class attribute is
      btn-primary text-sm px-4 py-2 ${product.stock === 0 ? 'opacity-50 cursor-not-allowed' : ''}
    it carries ${product.stock === 0 ? 'disabled' : ''} and its text is
      ${product.stock === 0 ? 'Stok Habis' : 'Tambah ke Keranjang'} *)
Definition cart_button (p : product) : button :=
  {| classes := ["btn-primary"; "text-sm"; "px-4"; "py-2"]
                ++ (if stock_is_zero p then ["opacity-50"; "cursor-not-allowed"] else []);
     disabled := stock_is_zero p;
     text := if stock_is_zero p then "Stok Habis" else "Tambah ke Keranjang" |}.

Inductive star : Type := Filled | Hollow.

(** Math.round: the nearest integer, a tie going up. *)
Definition math_round (q : QArith_base.Q) : Z :=
  Qround.Qfloor (QArith_base.Qplus q (QArith_base.Qmake 1 2)).

(** String.prototype.repeat: a negative count is a RangeError. *)
Definition repeat_string {A : Type} (x : A) (count : Z) : outcome (list A) :=
  if (count <? 0)%Z then Thrown "RangeError" else Returned (List.repeat x (Z.to_nat count)).

(** product.rating || 0 *)
Definition rating_or_zero (p : product) : QArith_base.Q :=
  match rating p with
  | Some q => q
  | None => QArith_base.Qmake 0 1
  end.

(** ${'★'.repeat(Math.round(product.rating || 0))}
    ${'☆'.repeat(5 - Math.round(product.rating || 0))} *)
Definition stars (p : product) : outcome (list star) :=
  match repeat_string Filled (math_round (rating_or_zero p)) with
  | Thrown e => Thrown e
  | Returned filled =>
      match repeat_string Hollow (5 - math_round (rating_or_zero p)) with
      | Thrown e => Thrown e
      | Returned hollow => Returned (filled ++ hollow)
      end
  end.

(** The parts of a card that the template fills in. *)
Record card : Type := {
  card_image : string;
  card_badge : badge;
  card_stars : list star;
  card_name : string;
  card_description : option string;
  card_price : QArith_base.Q;
  card_button : button
}.

(** The body of products.map(product => { .. }), for one product. *)
Definition render_card (p : product) : outcome card :=
  let imageUrl := image_url p in
  let stockStatus := stock_status p in
  match stars p with
  | Thrown e => Thrown e
  | Returned s =>
      Returned {| card_image := imageUrl; card_badge := stockStatus; card_stars := s;
                  card_name := name p; card_description := description p;
                  card_price := price p; card_button := cart_button p |}
  end.

(** products.map(..): the first exception ends the loop. *)
Fixpoint render_cards (ps : list product) : outcome (list card) :=
  match ps with
  | [] => Returned []
  | p :: ps' =>
      match render_card p with
      | Thrown e => Thrown e
      | Returned c =>
          match render_cards ps' with
          | Thrown e => Thrown e
          | Returned cs => Returned (c :: cs)
          end
      end
  end.

(** What #product-grid shows. *)
Inductive grid : Type :=
| Memuat_produk
| Gagal_memuat_produk (message : string)
| Tidak_ada_produk_ditemukan
| Cards (cards : list card).

(** The query [loadProducts] sends. *)
Inductive query : Type :=
| All_products
| Products_of_category (slug : string).

(** { data: products, error } *)
Inductive response : Type :=
| Failure (message : string)
| Data (products : list product).

(** if (filterCategory !== 'all') { .. .eq('categories.slug', filterCategory) }
    else { .. select('*') } *)
Definition query_for (filterCategory : string) : query :=
  if String.eqb filterCategory "all" then All_products
  else Products_of_category filterCategory.

(** async function loadProducts(filterCategory = 'all'), on a page that has
    the grid: the grid at the end, and the exception that ended the
    function early, if any.  [argument] is what the caller passed,
    [None] for nothing or [undefined]; [server] answers the query. *)
Definition loadProducts (argument : option string) (server : query -> response)
    : grid * option string :=
  let filterCategory := match argument with Some f => f | None => "all" end in
  match server (query_for filterCategory) with
  | Failure message => (Gagal_memuat_produk message, None)
  | Data [] => (Tidak_ada_produk_ditemukan, None)
  | Data products =>
      match render_cards products with
      | Thrown e => (Memuat_produk, Some e)
      | Returned cards => (Cards cards, None)
      end
  end.

(** The rows the two queries select, given the products and the categories
    the caller can read: [select('*')] gives every product,
    [select('*, categories!inner(slug)').eq('categories.slug', g)] the
    products whose category_id is the id of a category with slug [g]. *)
Definition answer (products categories : list row) (q : query) : list row :=
  match q with
  | All_products => products
  | Products_of_category g =>
      filter (fun p => existsb (fun c => holds (sql_eq (col c "id") (col p "category_id"))
                                         && holds (sql_eq (col c "slug") (VText g)))
                               categories)
             products
  end.

(** String.prototype.includes *)
Fixpoint starts_with (needle hay : string) : bool :=
  match needle, hay with
  | EmptyString, _ => true
  | String a n, String b h => Ascii.eqb a b && starts_with n h
  | String _ _, EmptyString => false
  end.

Fixpoint includes (hay needle : string) : bool :=
  starts_with needle hay
  || match hay with
     | EmptyString => false
     | String _ h => includes h needle
     end.

(** document.addEventListener('click', (e) => {
      if (e.target.matches('.btn-primary')
          && e.target.textContent.includes('Tambah ke Keranjang')) { .. } }):
    the text of the notification the click puts on the page, if any. *)
Definition add_to_cart_click (target : button) : option string :=
  if existsb (String.eqb "btn-primary") (classes target)
     && includes (text target) "Tambah ke Keranjang"
  then Some "Produk berhasil ditambahkan ke keranjang!"
  else None.

End Product_grid.

(** ** main.js: the category buttons *)

Module Category_buttons.

(** An element's class list: tokens, none twice. *)
Definition class_list : Type := list string.

(** classList.add *)
Definition add (token : string) (l : class_list) : class_list :=
  if existsb (String.eqb token) l then l else l ++ [token].

(** classList.remove *)
Definition remove (token : string) (l : class_list) : class_list :=
  filter (fun x => negb (String.eqb x token)) l.

Definition contains (token : string) (l : class_list) : bool :=
  existsb (String.eqb token) l.

(** b.classList.remove('bg-natural-600', 'text-white');
    b.classList.add('bg-white', 'text-earth-600') *)
Definition plain (b : class_list) : class_list :=
  add "text-earth-600" (add "bg-white" (remove "text-white" (remove "bg-natural-600" b))).

(** e.target.classList.add('bg-natural-600', 'text-white');
    e.target.classList.remove('bg-white', 'text-earth-600') *)
Definition highlighted (b : class_list) : class_list :=
  remove "text-earth-600" (remove "bg-white" (add "text-white" (add "bg-natural-600" b))).

Fixpoint update_nth {A : Type} (n : nat) (f : A -> A) (l : list A) : list A :=
  match n, l with
  | _, [] => []
  | O, a :: l' => f a :: l'
  | S n', a :: l' => a :: update_nth n' f l'
  end.

(** The click handler of the button at position [target] among the
    .category-btn elements: every button is made plain, then the one that
    was clicked is highlighted. *)
Definition click (target : nat) (buttons : list class_list) : list class_list :=
  update_nth target highlighted (map plain buttons).

End Category_buttons.

(** ** main.js: the WhatsApp link *)

Module Whatsapp.

Import Product_grid.

(** A JavaScript string: its UTF-16 code units. *)
Definition js_string : Type := list N.

Definition code (a : ascii) : N := N_of_ascii a.

Fixpoint js_of_string (s : string) : js_string :=
  match s with
  | EmptyString => []
  | String a s' => code a :: js_of_string s'
  end.

(** The characters encodeURIComponent leaves as they are:
    A-Z a-z 0-9 - _ . ! ~ * ' ( ) *)
Definition unreserved (c : N) : bool :=
  ((65 <=? c) && (c <=? 90) || (97 <=? c) && (c <=? 122) || (48 <=? c) && (c <=? 57)
   || existsb (N.eqb c) [45; 95; 46; 33; 126; 42; 39; 40; 41])%N.

Definition hex_digit (n : N) : ascii :=
  ascii_of_N (if (n <? 10)%N then 48 + n else 55 + n)%N.

(** A percent sign and the two upper-case hexadecimal digits of an octet. *)
Definition percent (octet : N) : string :=
  String "%" (String (hex_digit (octet / 16)) (String (hex_digit (octet mod 16)) EmptyString)).

(** The octets of the UTF-8 encoding of a code point. *)
Definition utf8 (cp : N) : list N :=
  (if cp <? 128 then [cp]
   else if cp <? 2048 then [192 + cp / 64; 128 + cp mod 64]
   else if cp <? 65536 then [224 + cp / 4096; 128 + (cp / 64) mod 64; 128 + cp mod 64]
   else [240 + cp / 262144; 128 + (cp / 4096) mod 64; 128 + (cp / 64) mod 64;
         128 + cp mod 64])%N.

Definition percent_encoded (cp : N) : string :=
  fold_right (fun o acc => (percent o ++ acc)%string) EmptyString (utf8 cp).

Definition is_high_surrogate (c : N) : bool := ((55296 <=? c) && (c <=? 56319))%N.

Definition is_low_surrogate (c : N) : bool := ((56320 <=? c) && (c <=? 57343))%N.

(** encodeURIComponent *)
Fixpoint encodeURIComponent (s : js_string) : outcome string :=
  match s with
  | [] => Returned EmptyString
  | c :: rest =>
      if unreserved c then
        match encodeURIComponent rest with
        | Thrown e => Thrown e
        | Returned r => Returned (String (ascii_of_N c) r)
        end
      else if is_low_surrogate c then Thrown "URIError"
      else if is_high_surrogate c then
        match rest with
        | d :: rest' =>
            if is_low_surrogate d then
              match encodeURIComponent rest' with
              | Thrown e => Thrown e
              | Returned r =>
                  Returned (percent_encoded ((c - 55296) * 1024 + (d - 56320) + 65536)%N ++ r)%string
              end
            else Thrown "URIError"
        | [] => Thrown "URIError"
        end
      else
        match encodeURIComponent rest with
        | Thrown e => Thrown e
        | Returned r => Returned (percent_encoded c ++ r)%string
        end
  end.

Definition phoneNumber : string := "6281354803858".

Definition greeting : js_string :=
  js_of_string "Halo, saya tertarik dengan produk Alatacrat".

(** function openWhatsApp(message = '') { .. window.open(whatsappUrl, '_blank') }:
    the address it opens.  [argument] is what the caller passed. *)
Definition openWhatsApp (argument : option js_string) : outcome string :=
  let message := match argument with Some m => m | None => [] end in
  match encodeURIComponent (match message with [] => greeting | _ => message end) with
  | Thrown e => Thrown e
  | Returned encodedMessage =>
      Returned ("https://wa.me/" ++ phoneNumber ++ "?text=" ++ encodedMessage)%string
  end.

End Whatsapp.

(** ** Notions used in the properties of main.js *)

(** -1/2 <= q < 11/2 *)
Definition rounds_to_a_star_count (q : QArith_base.Q) : bool :=
  QArith_base.Qle_bool (QArith_base.Qmake (-1) 2) q
  && negb (QArith_base.Qle_bool (QArith_base.Qmake 11 2) q).

(** No lone surrogate: every high surrogate is followed by a low one, and
    no low surrogate stands without its high one. *)
Fixpoint well_formed (s : Whatsapp.js_string) : bool :=
  match s with
  | [] => true
  | c :: rest =>
      if Whatsapp.is_low_surrogate c then false
      else if Whatsapp.is_high_surrogate c then
        match rest with
        | d :: rest' => Whatsapp.is_low_surrogate d && well_formed rest'
        | [] => false
        end
      else well_formed rest
  end.

Fixpoint all_characters (f : ascii -> bool) (s : string) : bool :=
  match s with
  | EmptyString => true
  | String a s' => f a && all_characters f s'
  end.

(** A character that cannot end or split the value of a query parameter:
    an unreserved one, or the percent sign of an escape. *)
Definition query_safe (a : ascii) : bool :=
  Whatsapp.unreserved (N_of_ascii a) || Ascii.eqb a "%".

(** The button as the page has it before anybody signs in, and as the
    handler leaves it on SIGNED_OUT. *)
Definition signed_out_button : Main_js.login_button :=
  {| Main_js.textContent := "Masuk"; Main_js.href := "login.html"; Main_js.onclick := None |}.

(** One call of the handler of onAuthStateChange. *)
Definition auth_call : Type := Main_js.auth_event * bool * Main_js.query_result.

Definition handle (btn : Main_js.login_button) (c : auth_call) : Main_js.login_button :=
  let '(event, user, q) := c in Main_js.on_auth_state_change event user q btn.

(** The button is the link to the login page, or a link that goes nowhere
    by itself and carries the dashboard handler of some profile. *)
Definition button_is_coherent (btn : Main_js.login_button) : Prop :=
  btn = signed_out_button
  \/ exists p, Main_js.onclick btn = Some (Main_js.dashboard_click p)
               /\ Main_js.href btn = "#".

(** The pages a click on the button can lead to. *)
Definition pages : list string :=
  ["admin-dashboard.html"; "user-dashboard.html"; "mitra-dashboard.html"; "login.html"].

(** The classes the click handler of the category buttons adds and removes. *)
Definition highlight_tokens : list string :=
  ["bg-natural-600"; "text-white"; "bg-white"; "text-earth-600"].


(** The text openWhatsApp sends: the message, or the greeting when the
    message is missing or empty. *)
Definition message_sent (argument : option Whatsapp.js_string) : Whatsapp.js_string :=
  match argument with
  | Some (c :: m) => c :: m
  | _ => Whatsapp.greeting
  end.

(** ** main.js: the mobile menu and the navigation bar *)

Module Page_chrome.

Import Category_buttons.

(** classList.toggle *)
Definition toggle (token : string) (l : class_list) : class_list :=
  if contains token l then remove token l else add token l.

(** mobileMenuBtn.addEventListener('click', () => {
      mobileMenu.classList.toggle('hidden') }) *)
Definition menu_button_click (mobileMenu : class_list) : class_list :=
  toggle "hidden" mobileMenu.

(** window.addEventListener('scroll', () => {
      if (nav && window.scrollY > 100) nav.classList.add('bg-white/95', 'backdrop-blur-sm')
      else if (nav) nav.classList.remove('bg-white/95', 'backdrop-blur-sm') }),
    on a page that has the nav element. *)
Definition beyond_100 (scrollY : QArith_base.Q) : bool :=
  negb (QArith_base.Qle_bool scrollY (QArith_base.Qmake 100 1)).

Definition on_scroll (nav : class_list) (scrollY : QArith_base.Q) : class_list :=
  if beyond_100 scrollY then add "backdrop-blur-sm" (add "bg-white/95" nav)
  else remove "backdrop-blur-sm" (remove "bg-white/95" nav).

End Page_chrome.

(** * Properties *)

(** ** The store as a map of tables *)

Lemma lookup_put_same {A : Type} (k : string) (a : A) (l : list (string * A)) :
  lookup k (put k a l) = Some a.
Proof.
  induction l as [|[k' a'] l IH]; simpl.
  - now rewrite String.eqb_refl.
  - destruct (String.eqb k' k) eqn:E; simpl; rewrite E; auto.
Qed.

Lemma lookup_put_other {A : Type} (k k' : string) (a : A) (l : list (string * A)) :
  k <> k' -> lookup k' (put k a l) = lookup k' l.
Proof.
  intros Hne. induction l as [|[k0 a0] l IH]; simpl.
  - destruct (String.eqb k k') eqn:E; auto.
    apply String.eqb_eq in E. contradiction.
  - destruct (String.eqb k0 k) eqn:E; simpl.
    + apply String.eqb_eq in E. subst k0.
      destruct (String.eqb k k') eqn:E'; auto.
      apply String.eqb_eq in E'. contradiction.
    + destruct (String.eqb k0 k'); auto.
Qed.

Lemma put_same {A : Type} (k : string) (a : A) (l : list (string * A)) :
  lookup k l = Some a -> put k a l = l.
Proof.
  induction l as [|[k' a'] l IH]; simpl; intros H; try discriminate.
  destruct (String.eqb k' k) eqn:E.
  - now inversion H.
  - now rewrite IH.
Qed.

Lemma get_set_table (t t' : string) (tb : table) (s : store) :
  get_table (set_table t tb s) t' = if String.eqb t t' then Some tb else get_table s t'.
Proof.
  unfold get_table, set_table; simpl.
  destruct (String.eqb t t') eqn:E.
  - apply String.eqb_eq in E. subst. apply lookup_put_same.
  - apply lookup_put_other. intros ->. now rewrite String.eqb_refl in E.
Qed.

Lemma set_table_same (t : string) (tb : table) (s : store) :
  get_table s t = Some tb -> set_table t tb s = s.
Proof.
  unfold get_table, set_table. intros H. rewrite (put_same _ _ _ H). now destruct s.
Qed.

Lemma with_rows_same (tb : table) : with_rows tb (t_rows tb) = tb.
Proof. now destruct tb. Qed.

Lemma enable_rls_touches t s s' :
  enable_rls t s = Ok s' -> touches t (fun tb => with_rls tb true) s s'.
Proof.
  unfold enable_rls, touches. intros H t'.
  destruct (get_table s t) as [tb|] eqn:E; try discriminate.
  inversion H; subst. rewrite get_set_table.
  destruct (String.eqb t t') eqn:Et; auto.
  apply String.eqb_eq in Et. subst. now rewrite E.
Qed.

Lemma drop_policy_touches n t s s' :
  drop_policy_if_exists n t s = Ok s' ->
  touches t (fun tb => with_policies tb (drop_named n (t_policies tb))) s s'.
Proof.
  unfold drop_policy_if_exists, touches. intros H t'.
  destruct (get_table s t) as [tb|] eqn:E; inversion H; subst.
  - rewrite get_set_table. destruct (String.eqb t t') eqn:Et; auto.
    apply String.eqb_eq in Et. subst. now rewrite E.
  - destruct (String.eqb t t') eqn:Et; auto.
    apply String.eqb_eq in Et. subst. now rewrite E.
Qed.

Lemma create_policy_touches t p s s' :
  create_policy t p s = Ok s' ->
  touches t (fun tb => with_policies tb (t_policies tb ++ [p])) s s'.
Proof.
  unfold create_policy, touches. intros H t'.
  destruct (get_table s t) as [tb|] eqn:E; try discriminate.
  destruct (has_policy (pol_name p) (t_policies tb)); try discriminate.
  inversion H; subst. rewrite get_set_table.
  destruct (String.eqb t t') eqn:Et; auto.
  apply String.eqb_eq in Et. subst. now rewrite E.
Qed.

Lemma run_cons st rest s s' :
  run (st :: rest) s = Ok s' -> exists s1, st s = Ok s1 /\ run rest s1 = Ok s'.
Proof.
  simpl. destruct (st s) as [s1|e]; simpl; intros H; try discriminate. eauto.
Qed.

Lemma run_app a b s s' :
  run (a ++ b) s = Ok s' -> exists s1, run a s = Ok s1 /\ run b s1 = Ok s'.
Proof.
  revert s. induction a as [|st a IH]; simpl; intros s H.
  - eauto.
  - destruct (st s) as [s1|e]; simpl in *; try discriminate. auto.
Qed.

(** ** What the policy script leaves on each table *)

Lemma enable_rls_exists t s s' :
  enable_rls t s = Ok s' -> exists tb, get_table s t = Some tb.
Proof.
  unfold enable_rls. destruct (get_table s t); intros H; try discriminate. eauto.
Qed.

(** Steps through a script of ENABLE ROW LEVEL SECURITY, DROP POLICY and
    CREATE POLICY statements, recording what each does to table [T]. *)
Ltac through_policy_script H T :=
  repeat match type of H with
  | run (_ :: _) _ = Ok _ =>
      let s1 := fresh "s" in
      let E := fresh "E" in
      apply run_cons in H; destruct H as (s1 & E & H);
      first [ let X := fresh "X" in
              pose proof (enable_rls_exists _ _ _ E) as X;
              apply enable_rls_touches in E;
              match type of X with
              | context [get_table _ T] => idtac
              | _ => clear X
              end
            | apply drop_policy_touches in E
            | apply create_policy_touches in E ];
      specialize (E T); simpl in E
  | run [] _ = Ok _ => simpl in H; inversion H; subst; clear H
  end.

Ltac chain_tables :=
  repeat match goal with
  | E : get_table ?s' _ = _ |- context [get_table ?s' _] => rewrite E; clear E
  end.

Ltac chain_tables_in X :=
  repeat match goal with
  | E : get_table ?s' _ = _ |- _ =>
      match type of X with context [get_table s' _] => rewrite E in X end
  end.

Import Migration_20250120120009.

Lemma policy_script_on_orders s0 s :
  run script s0 = Ok s ->
  exists tb0 tb,
    get_table s0 "orders" = Some tb0 /\ get_table s "orders" = Some tb /\
    t_rls tb = true /\ t_rows tb = t_rows tb0 /\
    t_policies tb =
      drop_named "Admins can manage all orders."
        (drop_named "Users can create new orders."
           (drop_named "Users can view their own orders." (t_policies tb0)))
      ++ [users_can_view_their_own_orders; users_can_create_new_orders;
          admins_can_manage_all_orders].
Proof.
  intros H. unfold script, step_1, step_2, step_3 in H. simpl app in H.
  through_policy_script H "orders".
  chain_tables_in X. destruct X as [tb0 X].
  exists tb0. eexists. split; [exact X|]. split.
  - chain_tables. simpl. reflexivity.
  - simpl. repeat split. now rewrite <- !app_assoc.
Qed.

Lemma policy_script_on_order_items s0 s :
  run script s0 = Ok s ->
  exists tb0 tb,
    get_table s0 "order_items" = Some tb0 /\ get_table s "order_items" = Some tb /\
    t_rls tb = true /\ t_rows tb = t_rows tb0 /\
    t_policies tb =
      drop_named "Admins can manage all order items."
        (drop_named "Users can create new order items."
           (drop_named "Users can view their own order items." (t_policies tb0)))
      ++ [users_can_view_their_own_order_items; users_can_create_new_order_items;
          admins_can_manage_all_order_items].
Proof.
  intros H. unfold script, step_1, step_2, step_3 in H. simpl app in H.
  through_policy_script H "order_items".
  chain_tables_in X. destruct X as [tb0 X].
  exists tb0. eexists. split; [exact X|]. split.
  - chain_tables. simpl. reflexivity.
  - simpl. repeat split. now rewrite <- !app_assoc.
Qed.

Lemma policy_script_on_profiles s0 s :
  run script s0 = Ok s ->
  exists tb0 tb,
    get_table s0 "profiles" = Some tb0 /\ get_table s "profiles" = Some tb /\
    t_rls tb = true /\ t_rows tb = t_rows tb0 /\
    t_policies tb =
      drop_named "Users can update their own profile."
        (drop_named "Users can view their own profile." (t_policies tb0))
      ++ [users_can_view_their_own_profile; users_can_update_their_own_profile].
Proof.
  intros H. unfold script, step_1, step_2, step_3 in H. simpl app in H.
  through_policy_script H "profiles".
  chain_tables_in X. destruct X as [tb0 X].
  exists tb0. eexists. split; [exact X|]. split.
  - chain_tables. simpl. reflexivity.
  - simpl. repeat split. now rewrite <- !app_assoc.
Qed.

(** ** Conditions of the policies *)

Lemma list_eqb_eq {A : Type} (eqb : A -> A -> bool) :
  (forall x y, eqb x y = true <-> x = y) ->
  forall l1 l2, list_eqb eqb l1 l2 = true <-> l1 = l2.
Proof.
  intros He. induction l1 as [|a l1 IH]; intros [|b l2]; simpl;
    try (split; [discriminate | discriminate]); try tauto.
  rewrite andb_true_iff, He, IH. split.
  - intros [-> ->]. reflexivity.
  - intros H. inversion H. auto.
Qed.

Lemma pair_eqb_eq p q : pair_eqb p q = true <-> p = q.
Proof.
  destruct p, q. unfold pair_eqb. simpl.
  rewrite andb_true_iff, !String.eqb_eq. split.
  - intros [-> ->]. reflexivity.
  - intros H. inversion H. auto.
Qed.

Lemma value_eqb_eq a b : value_eqb a b = true <-> a = b.
Proof.
  destruct a, b; simpl; try (split; [discriminate | discriminate]); try tauto.
  - rewrite N.eqb_eq. split; [intros -> | intros H; inversion H]; auto.
  - rewrite String.eqb_eq. split; [intros -> | intros H; inversion H]; auto.
  - rewrite Z.eqb_eq. split; [intros -> | intros H; inversion H]; auto.
  - rewrite andb_true_iff, Z.eqb_eq, Nat.eqb_eq.
    split; [intros [-> ->] | intros H; inversion H]; auto.
  - rewrite Bool.eqb_true_iff. split; [intros -> | intros H; inversion H]; auto.
  - rewrite (list_eqb_eq String.eqb String.eqb_eq).
    split; [intros -> | intros H; inversion H]; auto.
  - rewrite (list_eqb_eq pair_eqb pair_eqb_eq).
    split; [intros -> | intros H; inversion H]; auto.
Qed.

Lemma value_eq_dec (a b : value) : {a = b} + {a <> b}.
Proof.
  destruct (value_eqb a b) eqn:E.
  - left. now apply value_eqb_eq.
  - right. intros H. apply value_eqb_eq in H. congruence.
Qed.

Lemma value_eqb_refl a : value_eqb a a = true.
Proof. now apply value_eqb_eq. Qed.

Lemma sql_eq_non_null a b :
  a <> VNull -> b <> VNull -> sql_eq a b = Some (value_eqb a b).
Proof. destruct a, b; simpl; intros; congruence. Qed.

Lemma holds_sql_eq a b : holds (sql_eq a b) = true <-> a = b /\ a <> VNull.
Proof.
  destruct (value_eq_dec a VNull) as [->|Ha].
  - simpl. split; [discriminate | tauto].
  - destruct (value_eq_dec b VNull) as [->|Hb].
    + replace (sql_eq a VNull) with (@None bool) by (destruct a; reflexivity).
      simpl. split; [discriminate | intros [H _]; contradiction].
    + rewrite sql_eq_non_null by assumption. simpl.
      destruct (value_eqb a b) eqn:E.
      * apply value_eqb_eq in E. tauto.
      * split; [discriminate|]. intros [H _]. apply value_eqb_eq in H. congruence.
Qed.

Lemma holds_sql_eq_uuid a u : holds (sql_eq a (VUuid u)) = true <-> a = VUuid u.
Proof.
  rewrite holds_sql_eq. split; [tauto | intros ->; split; [reflexivity | discriminate]].
Qed.

Lemma holds_sql_eq_sym a b : holds (sql_eq a b) = holds (sql_eq b a).
Proof.
  destruct (holds (sql_eq a b)) eqn:E1; destruct (holds (sql_eq b a)) eqn:E2; auto.
  - apply holds_sql_eq in E1. destruct E1 as [-> Hn].
    assert (holds (sql_eq b b) = true) by (apply holds_sql_eq; auto). congruence.
  - apply holds_sql_eq in E2. destruct E2 as [-> Hn].
    assert (holds (sql_eq a a) = true) by (apply holds_sql_eq; auto). congruence.
Qed.

Lemma holds_some b : holds (Some b) = b.
Proof. now destruct b. Qed.

Lemma holds_sql_and a b : holds (sql_and a b) = holds a && holds b.
Proof. destruct a as [[|]|], b as [[|]|]; reflexivity. Qed.

Lemma existsb_none {A : Type} (f : A -> bool) (l : list A) :
  existsb f l = false <-> forall x, In x l -> f x = false.
Proof.
  induction l as [|a l IH]; simpl.
  - split; auto. intros _ x [].
  - rewrite orb_false_iff, IH. split.
    + intros [Ha Hl] x [<-|Hx]; auto.
    + intros H. split; auto.
Qed.

Lemma non_null_cells_cons c r rs :
  non_null_cells c (r :: rs) =
  if value_eqb (col r c) VNull then non_null_cells c rs else col r c :: non_null_cells c rs.
Proof.
  unfold non_null_cells. simpl. now destruct (value_eqb (col r c) VNull).
Qed.

Lemma in_non_null_cells c r rs :
  In r rs -> col r c <> VNull -> In (col r c) (non_null_cells c rs).
Proof.
  intros Hin Hn. unfold non_null_cells. apply filter_In. split.
  - apply (in_map (fun r0 => col r0 c)). assumption.
  - destruct (value_eqb (col r c) VNull) eqn:E; auto.
    apply value_eqb_eq in E. contradiction.
Qed.

Lemma key_holds_tail c r rs : key_holds c (r :: rs) -> key_holds c rs.
Proof.
  unfold key_holds. rewrite non_null_cells_cons.
  destruct (value_eqb (col r c) VNull); simpl; auto.
  intros H. now apply andb_true_iff in H.
Qed.

Lemma key_holds_head c r rs r' :
  key_holds c (r :: rs) -> In r' rs -> col r c <> VNull -> col r' c <> col r c.
Proof.
  unfold key_holds. rewrite non_null_cells_cons.
  destruct (value_eqb (col r c) VNull) eqn:En.
  - apply value_eqb_eq in En. intros _ _ Hn. contradiction.
  - simpl. intros H Hin Hn Heq. apply andb_true_iff in H. destruct H as [H _].
    apply negb_true_iff in H.
    rewrite existsb_none in H.
    assert (In (col r' c) (non_null_cells c rs)) as Hi.
    { apply in_non_null_cells; auto. congruence. }
    specialize (H _ Hi). rewrite Heq, value_eqb_refl in H. discriminate.
Qed.

(** Under a key on [c], the rows whose [c] is [v] are exactly the one row
    known to carry [v]. *)
Lemma key_selects_one c rs r v :
  key_holds c rs -> In r rs -> col r c = v -> v <> VNull ->
  filter (fun r' => holds (sql_eq (col r' c) v)) rs = [r].
Proof.
  intros Hk Hin Hv Hn. induction rs as [|a rs IH]; [destruct Hin|].
  simpl. destruct (holds (sql_eq (col a c) v)) eqn:E.
  - apply holds_sql_eq in E. destruct E as [E _].
    assert (Hnone : filter (fun r' => holds (sql_eq (col r' c) v)) rs = []).
    { destruct (filter _ rs) as [|x l] eqn:F; auto.
      assert (In x (filter (fun r' => holds (sql_eq (col r' c) v)) rs)) as Hx
          by (rewrite F; now left).
      apply filter_In in Hx. destruct Hx as [Hx1 Hx2].
      apply holds_sql_eq in Hx2. destruct Hx2 as [Hx2 _].
      exfalso. apply (key_holds_head c a rs x Hk Hx1); congruence. }
    rewrite Hnone. destruct Hin as [->|Hin]; auto.
    exfalso. apply (key_holds_head c a rs r Hk Hin); congruence.
  - destruct Hin as [->|Hin].
    + assert (holds (sql_eq (col r c) v) = true) by (apply holds_sql_eq; split; congruence).
      congruence.
    + apply IH; auto. eapply key_holds_tail; eauto.
Qed.

Lemma key_selects_at_most_one c rs v :
  key_holds c rs ->
  filter (fun r' => holds (sql_eq (col r' c) v)) rs = []
  \/ exists r, In r rs /\ col r c = v /\ filter (fun r' => holds (sql_eq (col r' c) v)) rs = [r].
Proof.
  intros Hk.
  destruct (filter (fun r' => holds (sql_eq (col r' c) v)) rs) as [|r l] eqn:F; auto.
  right. exists r.
  assert (In r (filter (fun r' => holds (sql_eq (col r' c) v)) rs)) as Hr by (rewrite F; now left).
  apply filter_In in Hr. destruct Hr as [Hin Hh]. apply holds_sql_eq in Hh.
  destruct Hh as [Hv Hn]. repeat split; auto.
  rewrite <- F. apply key_selects_one; auto. congruence.
Qed.

Lemma exists_admin_profile_is_admin d uid r :
  holds (exists_admin_profile d uid r) = is_admin d uid.
Proof.
  unfold exists_admin_profile, sql_exists, is_admin. rewrite holds_some.
  induction (d "profiles") as [|p l IH]; simpl; auto.
  now rewrite holds_sql_and, IH.
Qed.

Lemma uid_in_admin_ids_is_admin d uid r :
  holds (uid_in_admin_ids d uid r) = is_admin d uid.
Proof.
  unfold uid_in_admin_ids, sql_in, is_admin, select_where.
  set (cells := map (fun r0 => col r0 "id") _).
  assert (Hc : existsb (fun x => holds (sql_eq uid x)) cells =
               existsb (fun p => holds (sql_eq (col p "id") uid)
                                 && holds (sql_eq (col p "role") (VText "admin")))
                       (d "profiles")).
  { unfold cells. induction (d "profiles") as [|p l IH]; simpl; auto.
    destruct (holds (sql_eq (col p "role") (VText "admin"))); simpl.
    - now rewrite IH, (holds_sql_eq_sym uid), andb_true_r.
    - now rewrite IH, andb_false_r. }
  rewrite <- Hc.
  destruct (existsb (fun x => holds (sql_eq uid x)) cells); auto.
  destruct (value_eqb uid VNull || existsb (value_eqb VNull) cells); [destruct cells|]; auto.
Qed.

Lemma is_admin_none d uid :
  filter (fun p => holds (sql_eq (col p "id") uid)) (d "profiles") = [] ->
  is_admin d uid = false.
Proof.
  unfold is_admin. induction (d "profiles") as [|p l IH]; simpl; auto.
  destruct (holds (sql_eq (col p "id") uid)); simpl; [discriminate | auto].
Qed.

Lemma is_admin_one d uid p :
  filter (fun p => holds (sql_eq (col p "id") uid)) (d "profiles") = [p] ->
  is_admin d uid = holds (sql_eq (col p "role") (VText "admin")).
Proof.
  unfold is_admin. induction (d "profiles") as [|q l IH]; simpl; [discriminate|].
  destruct (holds (sql_eq (col q "id") uid)) eqn:E; simpl.
  - intros H. inversion H; subst.
    assert (existsb (fun p0 => holds (sql_eq (col p0 "id") uid)
                               && holds (sql_eq (col p0 "role") (VText "admin"))) l = false) as Hl.
    { apply existsb_none. intros x Hx.
      destruct (holds (sql_eq (col x "id") uid)) eqn:Ex; auto.
      assert (In x (filter (fun p0 => holds (sql_eq (col p0 "id") uid)) l)) as Hf
          by (apply filter_In; auto).
      rewrite H2 in Hf. destruct Hf. }
    rewrite Hl. apply orb_false_r.
  - auto.
Qed.

Lemma role_of_uid_is_admin_is_admin d uid r :
  key_holds "id" (d "profiles") ->
  holds (role_of_uid_is_admin d uid r) = is_admin d uid.
Proof.
  intros Hk. unfold role_of_uid_is_admin, scalar_subquery, select_where.
  destruct (key_selects_at_most_one "id" (d "profiles") uid Hk) as [E|(p & _ & _ & E)]; rewrite E.
  - now rewrite is_admin_none.
  - now rewrite (is_admin_one d uid p E).
Qed.

(** For a caller with a profile, being an admin is the role of that
    profile. *)
Lemma is_admin_profile d P :
  key_holds "id" (d "profiles") -> In P (d "profiles") -> col P "id" <> VNull ->
  (is_admin d (col P "id") = true <-> col P "role" = VText "admin").
Proof.
  intros Hk Hin Hn.
  rewrite (is_admin_one d (col P "id") P) by (apply key_selects_one; auto).
  rewrite holds_sql_eq. split; [tauto|].
  intros Hr. split; auto. rewrite Hr. discriminate.
Qed.

(** The order an item belongs to decides the ownership conditions written
    on order items. *)
Section Parent_order.

Variable d : db.
Variables I O : row.
Hypothesis orders_key : key_holds "id" (d "orders").
Hypothesis O_in : In O (d "orders").
Hypothesis belongs : col I "order_id" = col O "id".
Hypothesis O_id : col O "id" <> VNull.

Lemma parent_order_selected :
  filter (fun o => holds (sql_eq (col o "id") (col I "order_id"))) (d "orders") = [O].
Proof. apply key_selects_one; auto. congruence. Qed.

Lemma exists_own_parent_order_owner uid :
  holds (exists_own_parent_order d uid I) = holds (sql_eq (col O "user_id") uid).
Proof.
  unfold exists_own_parent_order, sql_exists. rewrite holds_some.
  pose proof parent_order_selected as Hsel.
  induction (d "orders") as [|o l IH]; simpl in *; [discriminate|].
  rewrite holds_sql_and.
  destruct (holds (sql_eq (col o "id") (col I "order_id"))) eqn:E; simpl.
  - inversion Hsel; subst.
    assert (existsb (fun o0 => holds (sql_and (sql_eq (col o0 "id") (col I "order_id"))
                                              (sql_eq (col o0 "user_id") uid))) l = false) as Hl.
    { apply existsb_none. intros x Hx. rewrite holds_sql_and.
      destruct (holds (sql_eq (col x "id") (col I "order_id"))) eqn:Ex; auto.
      assert (In x (filter (fun o0 => holds (sql_eq (col o0 "id") (col I "order_id"))) l)) as Hf
          by (apply filter_In; auto).
      rewrite H1 in Hf. destruct Hf. }
    rewrite Hl. apply orb_false_r.
  - apply IH; auto.
    + eapply key_holds_tail; eauto.
    + destruct O_in as [->|Hin]; auto.
      assert (holds (sql_eq (col O "id") (col I "order_id")) = true)
        by (apply holds_sql_eq; split; congruence).
      congruence.
Qed.

Lemma parent_order_owner_equals_uid_owner uid :
  holds (parent_order_owner_equals_uid d uid I) = holds (sql_eq (col O "user_id") uid).
Proof.
  unfold parent_order_owner_equals_uid, scalar_subquery, select_where.
  now rewrite parent_order_selected.
Qed.

Lemma uid_equals_parent_order_owner_owner uid :
  holds (uid_equals_parent_order_owner d uid I) = holds (sql_eq (col O "user_id") uid).
Proof.
  unfold uid_equals_parent_order_owner, scalar_subquery, select_where.
  rewrite parent_order_selected. apply holds_sql_eq_sym.
Qed.

End Parent_order.

(** ** Reading orders and order items *)

Lemma unwrap_ok r : is_ok r = true -> r = Ok (unwrap r).
Proof. destruct r; simpl; intros; congruence. Qed.

Lemma in_drop_named n p ps : In p (drop_named n ps) -> In p ps.
Proof. unfold drop_named. intros H. now apply filter_In in H. Qed.

(** Each policy the repository puts on orders lets a SELECT through for the
    owner of the order, or for an admin. *)
Lemma repository_orders_policies_pass d uid O p :
  key_holds "id" (d "profiles") ->
  In p repository_orders_policies ->
  applies SELECT p = true ->
  using_passes d uid O p = holds (sql_eq uid (col O "user_id"))
  \/ using_passes d uid O p = is_admin d uid.
Proof.
  intros Hk Hp Ha.
  unfold repository_orders_policies in Hp. simpl in Hp.
  repeat destruct Hp as [<-|Hp]; try contradiction; try discriminate Ha;
    unfold using_passes;
    cbn -[sql_eq exists_admin_profile uid_in_admin_ids role_of_uid_is_admin];
    try (left; reflexivity); right.
  - now apply role_of_uid_is_admin_is_admin.
  - apply uid_in_admin_ids_is_admin.
  - apply exists_admin_profile_is_admin.
Qed.

Lemma orders_visible s0 s uid O :
  run Migration_20250120120009.script s0 = Ok s ->
  incl (policies_of s0 "orders") repository_orders_policies ->
  key_holds "id" (rows_of s "profiles") ->
  row_visible s uid SELECT "orders" O
  = holds (sql_eq uid (col O "user_id")) || is_admin (db_of s) uid.
Proof.
  intros Hrun Hincl Hk.
  destruct (policy_script_on_orders _ _ Hrun) as (tb0 & tb & H0 & H1 & Hrls & _ & Hpol).
  unfold row_visible. rewrite H1, Hrls, Hpol.
  unfold policies_of in Hincl. rewrite H0 in Hincl.
  apply Bool.eq_iff_eq_true. rewrite existsb_exists, orb_true_iff. split.
  - intros (p & Hp & Hc). apply andb_true_iff in Hc. destruct Hc as [Ha Hu].
    assert (Hr : In p repository_orders_policies).
    { apply in_app_or in Hp. destruct Hp as [Hp|Hp].
      - apply Hincl. repeat apply in_drop_named in Hp. exact Hp.
      - unfold repository_orders_policies. simpl in Hp |- *. tauto. }
    destruct (repository_orders_policies_pass (db_of s) uid O p Hk Hr Ha) as [E|E];
      rewrite E in Hu; auto.
  - intros [Ho|Hadm].
    + exists Migration_20250120120009.users_can_view_their_own_orders. split.
      * apply in_or_app. right. simpl. tauto.
      * apply andb_true_iff. split; [reflexivity|]. exact Ho.
    + exists Migration_20250120120009.admins_can_manage_all_orders. split.
      * apply in_or_app. right. simpl. tauto.
      * apply andb_true_iff. split; [reflexivity|].
        unfold using_passes. cbn -[exists_admin_profile].
        now rewrite exists_admin_profile_is_admin.
Qed.


Lemma shop_ran_policy_script :
  run Migration_20250120120009.script shop_before_policies = Ok shop.
Proof. apply unwrap_ok. vm_compute. reflexivity. Qed.

Lemma shop_orders_policies_before :
  incl (policies_of shop_before_policies "orders") repository_orders_policies.
Proof.
  assert (E : policies_of shop_before_policies "orders" =
              [ Part_001_comprehensive_fix.users_can_view_their_own_orders;
                Part_001_comprehensive_fix.users_can_create_orders_for_themselves;
                Part_001_comprehensive_fix.admins_can_manage_all_orders ]) by reflexivity.
  rewrite E. intros p Hp. unfold repository_orders_policies. simpl in Hp |- *. tauto.
Qed.

Lemma shop_order_items_policies_before :
  incl (policies_of shop_before_policies "order_items") repository_order_items_policies.
Proof.
  assert (E : policies_of shop_before_policies "order_items" =
              [ Part_001_comprehensive_fix.users_can_view_their_own_order_items;
                Part_001_comprehensive_fix.admins_can_manage_all_order_items ]) by reflexivity.
  rewrite E. intros p Hp. unfold repository_order_items_policies. simpl in Hp |- *. tauto.
Qed.

Lemma shop_profiles_key : key_holds "id" (rows_of shop "profiles").
Proof. vm_compute. reflexivity. Qed.

Lemma shop_orders_key : key_holds "id" (rows_of shop "orders").
Proof. vm_compute. reflexivity. Qed.


Lemma repository_order_items_policies_pass d uid I O p :
  key_holds "id" (d "profiles") ->
  key_holds "id" (d "orders") -> In O (d "orders") ->
  col I "order_id" = col O "id" -> col O "id" <> VNull ->
  In p repository_order_items_policies ->
  applies SELECT p = true ->
  using_passes d uid I p = holds (sql_eq (col O "user_id") uid)
  \/ using_passes d uid I p = is_admin d uid.
Proof.
  intros Hk Hko Hin Hb Hn Hp Ha.
  unfold repository_order_items_policies in Hp. simpl in Hp.
  repeat destruct Hp as [<-|Hp]; try contradiction; try discriminate Ha;
    unfold using_passes;
    cbn -[sql_eq exists_admin_profile uid_in_admin_ids role_of_uid_is_admin
          exists_own_parent_order parent_order_owner_equals_uid uid_equals_parent_order_owner].
  - left. now apply parent_order_owner_equals_uid_owner.
  - right. now apply role_of_uid_is_admin_is_admin.
  - left. now apply parent_order_owner_equals_uid_owner.
  - left. now apply parent_order_owner_equals_uid_owner.
  - left. now apply uid_equals_parent_order_owner_owner.
  - right. apply uid_in_admin_ids_is_admin.
  - left. now apply exists_own_parent_order_owner.
  - right. apply exists_admin_profile_is_admin.
Qed.

Lemma order_items_visible s0 s uid I O :
  run Migration_20250120120009.script s0 = Ok s ->
  incl (policies_of s0 "order_items") repository_order_items_policies ->
  key_holds "id" (rows_of s "profiles") ->
  key_holds "id" (rows_of s "orders") -> In O (rows_of s "orders") ->
  col I "order_id" = col O "id" -> col O "id" <> VNull ->
  row_visible s uid SELECT "order_items" I
  = holds (sql_eq (col O "user_id") uid) || is_admin (db_of s) uid.
Proof.
  intros Hrun Hincl Hk Hko Hin Hb Hn.
  destruct (policy_script_on_order_items _ _ Hrun) as (tb0 & tb & H0 & H1 & Hrls & _ & Hpol).
  unfold row_visible. rewrite H1, Hrls, Hpol.
  unfold policies_of in Hincl. rewrite H0 in Hincl.
  apply Bool.eq_iff_eq_true. rewrite existsb_exists, orb_true_iff. split.
  - intros (p & Hp & Hc). apply andb_true_iff in Hc. destruct Hc as [Ha Hu].
    assert (Hr : In p repository_order_items_policies).
    { apply in_app_or in Hp. destruct Hp as [Hp|Hp].
      - apply Hincl. repeat apply in_drop_named in Hp. exact Hp.
      - unfold repository_order_items_policies. simpl in Hp |- *. tauto. }
    destruct (repository_order_items_policies_pass (db_of s) uid I O p Hk Hko Hin Hb Hn Hr Ha)
      as [E|E]; rewrite E in Hu; auto.
  - intros [Ho|Hadm].
    + exists Migration_20250120120009.users_can_view_their_own_order_items. split.
      * apply in_or_app. right. simpl. tauto.
      * apply andb_true_iff. split; [reflexivity|].
        unfold using_passes. cbn -[exists_own_parent_order].
        now rewrite (exists_own_parent_order_owner (db_of s) I O Hko Hin Hb Hn).
    + exists Migration_20250120120009.admins_can_manage_all_order_items. split.
      * apply in_or_app. right. simpl. tauto.
      * apply andb_true_iff. split; [reflexivity|].
        unfold using_passes. cbn -[exists_admin_profile].
        now rewrite exists_admin_profile_is_admin.
Qed.



(** ** Reading profiles *)

(** A policy on profiles that the policy script does not drop stays in
    force next to the policies the script creates. *)
Lemma policy_script_keeps_other_profile_policies s0 s p :
  run Migration_20250120120009.script s0 = Ok s ->
  In p (policies_of s0 "profiles") ->
  pol_name p <> "Users can view their own profile." ->
  pol_name p <> "Users can update their own profile." ->
  In p (policies_of s "profiles").
Proof.
  intros Hrun Hin Hn1 Hn2.
  destruct (policy_script_on_profiles _ _ Hrun) as (tb0 & tb & H0 & H1 & _ & _ & Hpol).
  unfold policies_of in *. rewrite H0 in Hin. rewrite H1, Hpol.
  apply in_or_app. left. unfold drop_named.
  apply filter_In. split.
  - apply filter_In. split; auto.
    unfold has_name. apply negb_true_iff. now apply String.eqb_neq.
  - unfold has_name. apply negb_true_iff. now apply String.eqb_neq.
Qed.

(** Where an earlier script left "Public profiles are viewable by
    everyone.", every caller reads every profile after the policy script. *)
Lemma public_profiles_policy_outlives_policy_script s0 s uid R :
  run Migration_20250120120009.script s0 = Ok s ->
  In Migration_20250120120007.public_profiles_are_viewable_by_everyone
     (policies_of s0 "profiles") ->
  read s uid "profiles" R = Ok R.
Proof.
  intros Hrun Hin.
  pose proof (policy_script_keeps_other_profile_policies s0 s _ Hrun Hin) as Hp.
  destruct (policy_script_on_profiles _ _ Hrun) as (tb0 & tb & H0 & H1 & Hrls & _ & _).
  unfold read, row_visible. unfold policies_of in Hp. rewrite H1 in *. rewrite Hrls.
  replace (existsb _ (t_policies tb)) with true; auto.
  symmetry. apply existsb_exists.
  exists Migration_20250120120007.public_profiles_are_viewable_by_everyone.
  split; [apply Hp; discriminate | reflexivity].
Qed.

(** C3 (refuted on the code).  In the shop, whose profiles table carries the
    policy "Public profiles are viewable by everyone." of the comprehensive
    fix, the partner (identity 3, not an admin) reads the profile of the
    customer (identity 2) after the policy script 20250120120009 has run. *)
Theorem profile_of_another_identity_is_read :
  run Migration_20250120120009.script shop_before_policies = Ok shop
  /\ In customer (rows_of shop "profiles")
  /\ col customer "id" <> VUuid 3
  /\ is_admin (db_of shop) (VUuid 3) = false
  /\ read shop (VUuid 3) "profiles" customer = Ok customer.
Proof.
  split; [exact shop_ran_policy_script|].
  split; [vm_compute; tauto|].
  split; [discriminate|].
  split; vm_compute; reflexivity.
Qed.

(** On a database that never had another SELECT policy on profiles, the
    policy script does leave each caller with its own profile only. *)
Lemma own_profile_only_on_a_clean_slate s0 s uid R :
  run Migration_20250120120009.script s0 = Ok s ->
  (forall p, In p (policies_of s0 "profiles") ->
             pol_name p = "Users can view their own profile."
             \/ pol_name p = "Users can update their own profile.") ->
  (read s uid "profiles" R = Ok R <-> (uid = col R "id" /\ uid <> VNull)).
Proof.
  intros Hrun Hclean.
  destruct (policy_script_on_profiles _ _ Hrun) as (tb0 & tb & H0 & H1 & Hrls & _ & Hpol).
  unfold policies_of in Hclean. rewrite H0 in Hclean.
  assert (Hdrop : drop_named "Users can update their own profile."
                    (drop_named "Users can view their own profile." (t_policies tb0)) = []).
  { destruct (drop_named _ (drop_named _ _)) as [|p l] eqn:E; auto.
    assert (Hp : In p (drop_named "Users can update their own profile."
                         (drop_named "Users can view their own profile." (t_policies tb0))))
      by (rewrite E; now left).
    unfold drop_named in Hp. apply filter_In in Hp. destruct Hp as [Hp Hn2].
    apply filter_In in Hp. destruct Hp as [Hp Hn1].
    unfold has_name in *. apply negb_true_iff in Hn1, Hn2.
    apply String.eqb_neq in Hn1, Hn2. destruct (Hclean p Hp); contradiction. }
  rewrite Hdrop in Hpol. simpl in Hpol.
  unfold read, row_visible. rewrite H1, Hrls, Hpol.
  cbn -[sql_eq]. rewrite orb_false_r, <- holds_sql_eq.
  unfold uid_equals.
  destruct (holds (sql_eq uid (col R "id"))); split; intros; congruence.
Qed.

(** ** Re-running the scripts *)

(** C4 (refuted on the code).  The comprehensive fix of unnamed/part_001,
    whose header reads "This script can be run multiple times without
    causing errors", runs on a new project and fails when run again on the
    database it produced: its CREATE POLICY statements are not guarded. *)
Theorem comprehensive_fix_fails_when_run_again :
  is_ok (run Part_001_comprehensive_fix.script new_project) = true
  /\ run Part_001_comprehensive_fix.script
         (unwrap (run Part_001_comprehensive_fix.script new_project))
     = Err (DuplicateObject "Public profiles are viewable by everyone.").
Proof. split; vm_compute; reflexivity. Qed.

(** ** Deleting a category *)

(** The guarded step of 20250120120006 and 20250120120007 adds nothing to a
    table that already has a constraint of that name, whatever that
    constraint says. *)
Lemma guarded_foreign_key_is_skipped s tb :
  get_table s "products" = Some tb ->
  has_constraint_in "products_category_id_fkey" tb = true ->
  unless_constraint_named "products" "products_category_id_fkey"
    (add_constraint "products" products_category_id_fkey) s = Ok s.
Proof. unfold unless_constraint_named. now intros -> ->. Qed.

(** C9 (refuted on the code).  After the scripts 20250120120002 and
    20250120120006 (and the schema steps of 20250120120007), the foreign key
    products_category_id_fkey is the one 20250120120002 declared, with no ON
    DELETE action, and deleting the category 'tas', which products refer to,
    is refused: nothing is set to null. *)
Theorem referenced_category_cannot_be_deleted :
  is_ok (run (Migration_20250120120002.script ++ Migration_20250120120006.script) new_project) = true
  /\ on_delete_action migrated_project "products" "products_category_id_fkey" = Some NoAction
  /\ delete_category "tas" migrated_project
     = Err (ForeignKeyViolation "products_category_id_fkey")
  /\ is_ok (run Migration_20250120120007.schema migrated_project) = true
  /\ delete_category "tas" (unwrap (run Migration_20250120120007.schema migrated_project))
     = Err (ForeignKeyViolation "products_category_id_fkey").
Proof. repeat split; vm_compute; reflexivity. Qed.

(** On a new project that ran 20250120120006 alone the key is the guarded
    one, and deleting the category sets the reference to null. *)
Lemma category_delete_sets_null_on_new_project :
  on_delete_action project_from_20250120120006 "products" "products_category_id_fkey"
  = Some SetNull
  /\ option_map product_categories
       (match delete_category "tas" project_from_20250120120006 with
        | Ok s => Some s
        | Err _ => None
        end)
     = Some [ (VText "Tas Tote Premium", VNull);
              (VText "Alas Meja Natural", VUuid 3);
              (VText "Hiasan Dinding Mandala", VUuid 2);
              (VText "Tempat Pensil Minimalis", VUuid 3);
              (VText "Keranjang Multifungsi", VUuid 3);
              (VText "Clutch Pesta Elegan", VUuid 4) ].
Proof. split; vm_compute; reflexivity. Qed.

(** ** The dashboard button *)

Import Main_js.

(** C10.  For a signed-in profile whose role is none of 'admin', 'user' and
    'mitra', the handler installed on the button sends the browser to
    login.html. *)
Theorem unknown_role_goes_to_login (p : profile) (rest : list profile)
    (btn : login_button) (w : window) :
  role p <> JsString "admin" ->
  role p <> JsString "user" ->
  role p <> JsString "mitra" ->
  exists click,
    onclick (on_auth_state_change SIGNED_IN true (QueryData (Some (p :: rest))) btn) = Some click
    /\ location_href (click w) = "login.html".
Proof.
  intros Ha Hu Hm. exists (dashboard_click p). split; [reflexivity|].
  unfold dashboard_click.
  assert (Hs : forall l, role p <> JsString l -> strict_equals (role p) l = false).
  { intros l Hl. unfold strict_equals. destruct (role p) as [| |x| |]; auto.
    apply String.eqb_neq. congruence. }
  now rewrite (Hs _ Ha), (Hs _ Hu), (Hs _ Hm).
Qed.

Lemma unknown_role_goes_to_login_witness :
  (exists click,
     onclick (on_auth_state_change SIGNED_IN true
                (QueryData (Some [ {| full_name := JsString "Budi"; role := JsNull |} ]))
                {| textContent := "Masuk"; href := "login.html"; onclick := None |}) = Some click
     /\ location_href (click {| location_href := "index.html" |}) = "login.html")
  /\ (exists click,
        onclick (on_auth_state_change SIGNED_IN true
                   (QueryData (Some [ {| full_name := JsNull; role := JsString "superuser" |} ]))
                   {| textContent := "Masuk"; href := "login.html"; onclick := None |}) = Some click
        /\ location_href (click {| location_href := "index.html" |}) = "login.html").
Proof.
  split.
  - apply (unknown_role_goes_to_login {| full_name := JsString "Budi"; role := JsNull |});
      simpl; discriminate.
  - apply (unknown_role_goes_to_login {| full_name := JsNull; role := JsString "superuser" |});
      simpl; discriminate.
Defined.

(** ** Inserting rows *)

Lemma put_put {A : Type} (k : string) (a b : A) (l : list (string * A)) :
  put k b (put k a l) = put k b l.
Proof.
  induction l as [|[k' a'] l IH]; simpl.
  - now rewrite String.eqb_refl.
  - destruct (String.eqb k' k) eqn:E; simpl; rewrite E; auto. now rewrite IH.
Qed.

Lemma set_table_set_table t tb1 tb2 s :
  set_table t tb2 (set_table t tb1 s) = set_table t tb2 s.
Proof. unfold set_table. simpl. now rewrite put_put. Qed.

Lemma get_set_table_same t tb s : get_table (set_table t tb s) t = Some tb.
Proof. rewrite get_set_table. now rewrite String.eqb_refl. Qed.

Lemma rows_of_set_table t t' tb s :
  rows_of (set_table t tb s) t' = if String.eqb t t' then t_rows tb else rows_of s t'.
Proof. unfold rows_of. rewrite get_set_table. now destruct (String.eqb t t'). Qed.

Lemma with_rows_with_rows tb a b : with_rows (with_rows tb a) b = with_rows tb b.
Proof. reflexivity. Qed.

Lemma find_none_existsb {A : Type} (f : A -> bool) (l : list A) :
  find f l = None <-> existsb f l = false.
Proof.
  induction l as [|a l IH]; simpl; [tauto|].
  destruct (f a); simpl; [split; discriminate | exact IH].
Qed.

Lemma find_some_existsb {A : Type} (f : A -> bool) (l : list A) :
  find f l <> None <-> existsb f l = true.
Proof.
  rewrite find_none_existsb. destruct (existsb f l); split; congruence.
Qed.

Lemma find_ext_eq {A : Type} (f g : A -> bool) (l : list A) :
  (forall a, f a = g a) -> find f l = find g l.
Proof.
  intros H. induction l as [|a l IH]; simpl; auto. rewrite H, IH. reflexivity.
Qed.

Lemma existsb_ext_eq {A : Type} (f g : A -> bool) (l : list A) :
  (forall a, f a = g a) -> existsb f l = existsb g l.
Proof.
  intros H. induction l as [|a l IH]; simpl; auto. now rewrite H, IH.
Qed.

(** *** The proposed row *)

Lemma col_map_cells (cell : coldef -> value) (cds : list coldef) (c : string) :
  col (map (fun cd => (cd_name cd, cell cd)) cds) c =
  match find (fun cd => String.eqb (cd_name cd) c) cds with
  | Some cd => cell cd
  | None => VNull
  end.
Proof.
  induction cds as [|cd cds IH]; simpl; auto.
  destruct (String.eqb (cd_name cd) c); auto.
Qed.

Lemma has_column_find c tb :
  has_column_in c tb = true ->
  exists cd, find (fun cd => String.eqb (cd_name cd) c) (t_columns tb) = Some cd
             /\ cd_name cd = c.
Proof.
  unfold has_column_in. intros H.
  destruct (find (fun cd => String.eqb (cd_name cd) c) (t_columns tb)) as [cd|] eqn:F.
  - exists cd. split; auto. apply find_some in F. now apply String.eqb_eq.
  - apply find_none_existsb in F. congruence.
Qed.

(** A listed column of the proposed row holds the listed value. *)
Lemma col_build_row_listed tb cols vals c v :
  has_column_in c tb = true ->
  lookup c (combine cols vals) = Some v ->
  col (build_row tb cols vals) c = v.
Proof.
  intros Hc Hl. unfold build_row. rewrite col_map_cells.
  destruct (has_column_find c tb Hc) as (cd & -> & Hn). now rewrite Hn, Hl.
Qed.

Lemma default_cell_null rs rs' d :
  value_eqb (default_cell rs d) VNull = value_eqb (default_cell rs' d) VNull.
Proof. destruct d; reflexivity. Qed.

(** Whether a cell of the proposed row is NULL does not depend on the rows
    in place. *)
Lemma col_build_row_null tb rs cols vals c :
  value_eqb (col (build_row (with_rows tb rs) cols vals) c) VNull
  = value_eqb (col (build_row tb cols vals) c) VNull.
Proof.
  unfold build_row. rewrite !col_map_cells. simpl.
  destruct (find (fun cd => String.eqb (cd_name cd) c) (t_columns tb)) as [cd|]; auto.
  destruct (lookup (cd_name cd) (combine cols vals)); auto.
  apply default_cell_null.
Qed.

Lemma null_column_with_rows tb rs cols vals :
  null_column (with_rows tb rs) (build_row (with_rows tb rs) cols vals)
  = null_column tb (build_row tb cols vals).
Proof.
  unfold null_column. simpl. f_equal.
  apply find_ext_eq. intros cd. now rewrite col_build_row_null.
Qed.

(** *** What a successful INSERT did *)

Lemma insert_row_inv t cols vals oc s s' res :
  is_update oc = false ->
  insert_row t cols vals oc s = Ok (s', res) ->
  exists tb,
    get_table s t = Some tb
    /\ find (fun c => negb (has_column_in c tb)) cols = None
    /\ arbiter_missing oc tb = false
    /\ null_column tb (build_row tb cols vals) = None
    /\ ((existsb (clash oc (build_row tb cols vals)) (t_rows tb) = true
         /\ s' = s /\ res = None)
        \/ (existsb (clash oc (build_row tb cols vals)) (t_rows tb) = false
            /\ first_broken s tb (t_rows tb) (build_row tb cols vals) = None
            /\ s' = set_table t (with_rows tb (t_rows tb ++ [build_row tb cols vals])) s
            /\ res = Some (build_row tb cols vals))).
Proof.
  intros Hu H. unfold insert_row in H.
  destruct (get_table s t) as [tb|] eqn:Ht; try discriminate H.
  destruct (find (fun c => negb (has_column_in c tb)) cols) eqn:Hc; try discriminate H.
  destruct (arbiter_missing oc tb) eqn:Ha; try discriminate H.
  destruct (null_column tb (build_row tb cols vals)) eqn:Hn; try discriminate H.
  exists tb. do 4 (split; [first [reflexivity | assumption]|]).
  destruct (find (clash oc (build_row tb cols vals)) (t_rows tb)) as [old|] eqn:F.
  - left. split.
    + apply find_some_existsb. congruence.
    + destruct oc; try discriminate; inversion H; auto.
  - right. apply find_none_existsb in F. split; auto.
    unfold plain_insert in H.
    destruct (first_broken s tb (t_rows tb) (build_row tb cols vals)); try discriminate.
    inversion H; auto.
Qed.

(** A row that clashes is skipped, once the statement itself is in order. *)
Lemma insert_row_skips t cols vals oc s tb :
  is_update oc = false ->
  get_table s t = Some tb ->
  find (fun c => negb (has_column_in c tb)) cols = None ->
  arbiter_missing oc tb = false ->
  null_column tb (build_row tb cols vals) = None ->
  existsb (clash oc (build_row tb cols vals)) (t_rows tb) = true ->
  insert_row t cols vals oc s = Ok (s, None).
Proof.
  intros Hu Ht Hc Ha Hn Hx. unfold insert_row. rewrite Ht, Hc, Ha, Hn.
  destruct (find (clash oc (build_row tb cols vals)) (t_rows tb)) eqn:F.
  - destruct oc; try discriminate; reflexivity.
  - apply find_none_existsb in F. congruence.
Qed.

(** *** Rows are kept *)

Lemma keeps_rows_refl s : keeps_rows s s.
Proof. intros t. exists []. now rewrite app_nil_r. Qed.

Lemma keeps_rows_trans s1 s2 s3 : keeps_rows s1 s2 -> keeps_rows s2 s3 -> keeps_rows s1 s3.
Proof.
  intros H12 H23 t. destruct (H12 t) as [e1 E1]. destruct (H23 t) as [e2 E2].
  exists (e1 ++ e2). now rewrite E2, E1, app_assoc.
Qed.

Lemma keeps_rows_append t tb extra s :
  get_table s t = Some tb ->
  keeps_rows s (set_table t (with_rows tb (t_rows tb ++ extra)) s).
Proof.
  intros Ht t'. rewrite rows_of_set_table.
  destruct (String.eqb t t') eqn:E.
  - apply String.eqb_eq in E. subst. exists extra. unfold rows_of. now rewrite Ht.
  - exists []. now rewrite app_nil_r.
Qed.

Lemma insert_row_keeps_rows t cols vals oc s s' res :
  is_update oc = false ->
  insert_row t cols vals oc s = Ok (s', res) -> keeps_rows s s'.
Proof.
  intros Hu H. destruct (insert_row_inv _ _ _ _ _ _ _ Hu H) as (tb & Ht & _ & _ & _ & Hc).
  destruct Hc as [(_ & -> & _)|(_ & _ & -> & _)].
  - apply keeps_rows_refl.
  - now apply keeps_rows_append.
Qed.

Lemma insert_into_keeps_rows t cols L oc s s' :
  is_update oc = false ->
  insert_into t cols L oc s = Ok s' -> keeps_rows s s'.
Proof.
  intros Hu. revert s. induction L as [|vals L IH]; simpl; intros s H.
  - inversion H. apply keeps_rows_refl.
  - destruct (insert_row t cols vals oc s) as [[s1 r]|] eqn:E; simpl in H; try discriminate.
    eapply keeps_rows_trans; [eapply insert_row_keeps_rows; eauto | auto].
Qed.

(** *** Keys and appended rows *)

Lemma non_null_cells_app c l1 l2 :
  non_null_cells c (l1 ++ l2) = non_null_cells c l1 ++ non_null_cells c l2.
Proof. unfold non_null_cells. now rewrite map_app, filter_app. Qed.

Lemma not_in_cells c v rs :
  v <> VNull ->
  existsb (fun r' => holds (sql_eq (col r' c) v)) rs = false ->
  existsb (value_eqb v) (non_null_cells c rs) = false.
Proof.
  intros Hv H. apply existsb_none. intros x Hx.
  unfold non_null_cells in Hx. apply filter_In in Hx. destruct Hx as [Hx _].
  apply in_map_iff in Hx. destruct Hx as (r' & <- & Hr').
  rewrite existsb_none in H. specialize (H r' Hr').
  destruct (value_eqb v (col r' c)) eqn:E; auto.
  apply value_eqb_eq in E. subst v.
  assert (holds (sql_eq (col r' c) (col r' c)) = true) by (apply holds_sql_eq; auto).
  congruence.
Qed.

Lemma distinct_values_snoc l v :
  distinct_values l = true -> existsb (value_eqb v) l = false ->
  distinct_values (l ++ [v]) = true.
Proof.
  induction l as [|a l IH]; simpl; auto.
  intros Hd Hv. apply andb_true_iff in Hd. destruct Hd as [Ha Hl].
  apply orb_false_iff in Hv. destruct Hv as [Hva Hvl].
  rewrite IH by assumption. rewrite andb_true_r.
  rewrite existsb_app. simpl. rewrite orb_false_r.
  apply negb_true_iff in Ha. rewrite Ha. simpl.
  destruct (value_eqb a v) eqn:E; auto.
  apply value_eqb_eq in E. subst. now rewrite value_eqb_refl in Hva.
Qed.

(** A row whose key no row in place carries keeps the key. *)
Lemma key_holds_snoc c rs r :
  key_holds c rs ->
  existsb (fun r' => holds (sql_eq (col r' c) (col r c))) rs = false ->
  key_holds c (rs ++ [r]).
Proof.
  unfold key_holds. intros Hk Hx. rewrite non_null_cells_app.
  unfold non_null_cells at 2. simpl.
  destruct (value_eqb (col r c) VNull) eqn:E; simpl.
  - now rewrite app_nil_r.
  - apply distinct_values_snoc; auto. apply not_in_cells; auto.
    intros Hn. rewrite Hn in E. discriminate.
Qed.

Lemma count_where_one c v rs :
  key_holds c rs ->
  existsb (fun r' => holds (sql_eq (col r' c) v)) rs = true ->
  count_where c v rs = 1.
Proof.
  intros Hk Hx. unfold count_where.
  destruct (key_selects_at_most_one c rs v Hk) as [E|(r & _ & _ & E)]; rewrite E; auto.
  apply existsb_exists in Hx. destruct Hx as (x & Hin & Hh).
  assert (In x (filter (fun r' => holds (sql_eq (col r' c) v)) rs)) as Hf
      by (apply filter_In; auto).
  rewrite E in Hf. destruct Hf.
Qed.

(** *** INSERT .. ON CONFLICT (c) DO NOTHING, run and run again *)

Section Do_nothing.

Variables (t : string) (cols : list string) (c : string).

Let oc : on_conflict := OnConflictDoNothing c.

Lemma all_columns_exist tb c' :
  find (fun c0 => negb (has_column_in c0 tb)) cols = None ->
  In c' cols -> has_column_in c' tb = true.
Proof.
  intros Hf Hin. apply find_none_existsb in Hf. rewrite existsb_none in Hf.
  specialize (Hf c' Hin). now apply negb_false_iff in Hf.
Qed.

Lemma lookup_combine_in {A : Type} (k : string) (ks : list string) (vs : list A) v :
  lookup k (combine ks vs) = Some v -> In k ks.
Proof.
  revert vs. induction ks as [|k0 ks IH]; intros [|v0 vs]; simpl; try discriminate.
  destruct (String.eqb k0 k) eqn:E.
  - apply String.eqb_eq in E. auto.
  - intros H. right. eapply IH; eauto.
Qed.

(** The proposed row carries the proposed key. *)
Lemma col_build_row_proposed tb vals c' :
  find (fun c0 => negb (has_column_in c0 tb)) cols = None ->
  proposed c' cols vals <> VNull ->
  col (build_row tb cols vals) c' = proposed c' cols vals.
Proof.
  intros Hf Hp. unfold proposed in *.
  destruct (lookup c' (combine cols vals)) as [v|] eqn:L; [|contradiction].
  apply col_build_row_listed; auto.
  eapply all_columns_exist; eauto. eapply lookup_combine_in; eauto.
Qed.

Lemma clash_proposed tb vals r' :
  find (fun c0 => negb (has_column_in c0 tb)) cols = None ->
  proposed c cols vals <> VNull ->
  clash oc (build_row tb cols vals) r' = holds (sql_eq (col r' c) (proposed c cols vals)).
Proof.
  intros Hf Hp. unfold clash, oc. simpl. now rewrite col_build_row_proposed.
Qed.

Lemma first_run L : forall s tb s1,
  get_table s t = Some tb ->
  (forall vals, In vals L -> proposed c cols vals <> VNull) ->
  insert_into t cols L oc s = Ok s1 ->
  exists extra,
    s1 = set_table t (with_rows tb (t_rows tb ++ extra)) s
    /\ (L <> [] -> find (fun c0 => negb (has_column_in c0 tb)) cols = None
                   /\ arbiter_missing oc tb = false)
    /\ (forall vals, In vals L ->
          null_column tb (build_row tb cols vals) = None
          /\ existsb (fun r' => holds (sql_eq (col r' c) (proposed c cols vals)))
                     (t_rows tb ++ extra) = true)
    /\ (key_holds c (t_rows tb) -> key_holds c (t_rows tb ++ extra))
    /\ Forall (from_values cols tb L) extra.
Proof.
  induction L as [|vals L IH]; intros s tb s1 Ht Hkey H.
  - simpl in H. inversion H; subst. exists []. rewrite app_nil_r.
    rewrite with_rows_same, (set_table_same _ _ _ Ht).
    repeat split; auto; try contradiction.
  - simpl in H.
    destruct (insert_row t cols vals oc s) as [[s' res]|] eqn:E; simpl in H; try discriminate.
    destruct (insert_row_inv t cols vals oc s s' res (eq_refl false) E) as (tb0 & Ht0 & Hc & Ha & Hn & Hcase).
    rewrite Ht in Ht0. inversion Ht0; subst tb0. clear Ht0.
    assert (Hv : proposed c cols vals <> VNull) by (apply Hkey; now left).
    assert (Hs' : exists e0,
               s' = set_table t (with_rows tb (t_rows tb ++ e0)) s
               /\ existsb (fun r' => holds (sql_eq (col r' c) (proposed c cols vals)))
                          (t_rows tb ++ e0) = true
               /\ (key_holds c (t_rows tb) -> key_holds c (t_rows tb ++ e0))
               /\ Forall (from_values cols tb (vals :: L)) e0).
    { destruct Hcase as [(Hx & -> & _)|(Hx & _ & -> & _)].
      - exists []. rewrite app_nil_r, with_rows_same, (set_table_same _ _ _ Ht).
        split; [reflexivity|]. split; [|split; [auto | constructor]].
        rewrite <- Hx. apply existsb_ext_eq. intros r'. now rewrite clash_proposed.
      - exists [build_row tb cols vals].
        split; [reflexivity|]. split; [|split].
        + rewrite existsb_app. simpl.
          rewrite col_build_row_proposed by assumption.
          replace (holds (sql_eq (proposed c cols vals) (proposed c cols vals))) with true
            by (symmetry; apply holds_sql_eq; auto).
          now rewrite orb_true_r.
        + intros Hk. apply key_holds_snoc; auto.
        + constructor; [|constructor]. exists vals, (t_rows tb). split; [now left|].
          now rewrite with_rows_same. }
    destruct Hs' as (e0 & -> & Hx0 & Hk0 & Hf0).
    assert (Ht' : get_table (set_table t (with_rows tb (t_rows tb ++ e0)) s) t
                  = Some (with_rows tb (t_rows tb ++ e0))) by apply get_set_table_same.
    destruct (IH _ _ _ Ht' (fun v Hin => Hkey v (or_intror Hin)) H)
      as (extra & -> & _ & Hvals & Hk & Hf).
    simpl in Hvals, Hk, Hf |- *.
    exists (e0 ++ extra). rewrite set_table_set_table, app_assoc.
    split; [reflexivity|]. split; [auto|]. split; [|split].
    + intros v [<-|Hin].
      * split; auto. rewrite existsb_app, Hx0. reflexivity.
      * destruct (Hvals v Hin) as [Hn' Hx']. split.
        -- now rewrite null_column_with_rows in Hn'.
        -- exact Hx'.
    + intros Hk'. apply Hk. now apply Hk0.
    + apply Forall_app. split.
      * exact Hf0.
      * eapply Forall_impl; [|exact Hf]. intros r (v & rs & Hin & ->).
        exists v, rs. split; [now right | reflexivity].
Qed.

Lemma rerun L : forall s1 tb1,
  get_table s1 t = Some tb1 ->
  (L <> [] -> find (fun c0 => negb (has_column_in c0 tb1)) cols = None
              /\ arbiter_missing oc tb1 = false) ->
  (forall vals, In vals L ->
     proposed c cols vals <> VNull
     /\ null_column tb1 (build_row tb1 cols vals) = None
     /\ existsb (fun r' => holds (sql_eq (col r' c) (proposed c cols vals))) (t_rows tb1) = true) ->
  insert_into t cols L oc s1 = Ok s1.
Proof.
  induction L as [|vals L IH]; intros s1 tb1 Ht Hst Hvals; simpl; auto.
  destruct Hst as [Hc Ha]; [discriminate|].
  destruct (Hvals vals (or_introl eq_refl)) as (Hv & Hn & Hx).
  rewrite (insert_row_skips t cols vals oc s1 tb1 (eq_refl false) Ht Hc Ha Hn).
  - simpl. apply (IH s1 tb1 Ht); auto.
    intros v Hin. apply Hvals. now right.
  - rewrite <- Hx. apply existsb_ext_eq. intros r'. now rewrite clash_proposed.
Qed.

(** Running the statement again on the database it produced changes
    nothing. *)
Lemma do_nothing_again L s s1 :
  (forall vals, In vals L -> proposed c cols vals <> VNull) ->
  insert_into t cols L oc s = Ok s1 ->
  insert_into t cols L oc s1 = Ok s1.
Proof.
  intros Hkey H. destruct L as [|vals0 L0] eqn:EL; [reflexivity|]. rewrite <- EL in *.
  assert (HL : L <> []) by (rewrite EL; discriminate).
  destruct (get_table s t) as [tb|] eqn:Ht.
  - destruct (first_run L s tb s1 Ht Hkey H) as (extra & -> & Hst & Hvals & _ & _).
    apply (rerun L _ (with_rows tb (t_rows tb ++ extra))).
    + apply get_set_table_same.
    + intros _. exact (Hst HL).
    + intros v Hin. destruct (Hvals v Hin) as [Hn Hx]. repeat split; auto.
      now rewrite null_column_with_rows.
  - rewrite EL in H. simpl in H. unfold insert_row in H. rewrite Ht in H. discriminate.
Qed.

End Do_nothing.

(** ** Seeding the categories *)

Lemma uuid_below_max u l : In u l -> (u <= fold_right N.max 0 l)%N.
Proof.
  induction l as [|a l IH]; simpl; [intros []|].
  intros [->|H]; [lia | specialize (IH H); lia].
Qed.

(** [gen_random_uuid()] never collides with an id in place. *)
Lemma fresh_uuid_is_fresh rs :
  existsb (fun r' => holds (sql_eq (col r' "id") (VUuid (fresh_uuid rs)))) rs = false.
Proof.
  apply existsb_none. intros r Hr.
  destruct (holds (sql_eq (col r "id") (VUuid (fresh_uuid rs)))) eqn:E; auto.
  apply holds_sql_eq_uuid in E.
  assert (In (fresh_uuid rs) (uuids_of rs)) as Hin.
  { unfold uuids_of. apply in_flat_map. exists r. split; auto. rewrite E. now left. }
  apply uuid_below_max in Hin. unfold fresh_uuid in Hin. lia.
Qed.

Lemma insert_into_cons t cols vals L oc s :
  insert_into t cols (vals :: L) oc s
  = (s' <- insert_into t cols [vals] oc s ;; insert_into t cols L oc s').
Proof.
  simpl. destruct (insert_row t cols vals oc s) as [[s' r]|]; reflexivity.
Qed.

Lemma categories_constraints_created :
  Forall (fun cols => flat_map (constraints_of_coldef "categories") cols = categories_constraints)
    [ Migration_20250120120002.categories_columns;
      Migration_20250120120006.categories_columns;
      Migration_20250120120007.categories_columns;
      Part_001_comprehensive_fix.categories_columns ].
Proof. repeat constructor. Qed.

(** Each seed step is one INSERT of four rows keyed by slug. *)
Lemma category_seed_is_insert seed :
  In seed category_seeds ->
  exists L,
    (forall s, seed s = insert_into "categories" ["name"; "slug"; "description"] L
                          (OnConflictDoNothing "slug") s)
    /\ map (proposed "slug" ["name"; "slug"; "description"]) L = map VText seeded_slugs
    /\ Forall (fun vals => exists n g d, vals = [VText n; VText g; VText d]) L.
Proof.
  unfold category_seeds. simpl.
  intros [<-|[<-|[<-|[<-|[]]]]].
  - eexists. split; [intros s; reflexivity|].
    split; [reflexivity | repeat constructor; do 3 eexists; reflexivity].
  - eexists. split; [intros s; reflexivity|].
    split; [reflexivity | repeat constructor; do 3 eexists; reflexivity].
  - eexists. split; [intros s; reflexivity|].
    split; [reflexivity | repeat constructor; do 3 eexists; reflexivity].
  - exists [ [VText "Tas"; VText "tas"; VText "Koleksi tas anyaman tangan."];
             [VText "Dekorasi"; VText "dekorasi"; VText "Hiasan rumah yang estetik."];
             [VText "Aksesori Rumah"; VText "aksesori-rumah"; VText "Perlengkapan rumah fungsional."];
             [VText "Premium"; VText "premium"; VText "Koleksi eksklusif dan terbatas."] ].
    split; [|split; [reflexivity | repeat constructor; do 3 eexists; reflexivity]].
    intros s. unfold Part_001_comprehensive_fix.seed_categories. simpl.
    repeat (match goal with
            | |- context [insert_row ?t ?cs ?vs ?oc ?s0] =>
                destruct (insert_row t cs vs oc s0) as [[? ?]|]; simpl; auto
            end).
Qed.

(** On a categories table as the scripts create it, a seed row is never
    refused: it is skipped or it goes in. *)
Lemma category_row_goes_in s tb n g d :
  get_table s "categories" = Some tb ->
  categories_as_created tb ->
  exists s' res,
    insert_row "categories" ["name"; "slug"; "description"] [VText n; VText g; VText d]
      (OnConflictDoNothing "slug") s = Ok (s', res).
Proof.
  intros Ht [Hcols Hcons].
  set (cols := ["name"; "slug"; "description"]).
  set (vals := [VText n; VText g; VText d]).
  set (oc := OnConflictDoNothing "slug").
  assert (Hshape :
    find (fun c => negb (has_column_in c tb)) cols = None
    /\ null_column tb (build_row tb cols vals) = None
    /\ col (build_row tb cols vals) "id" = VUuid (fresh_uuid (t_rows tb))).
  { unfold has_column_in, null_column, build_row.
    simpl in Hcols. destruct Hcols as [E|[E|[E|[E|[]]]]]; rewrite <- E; repeat split. }
  destruct Hshape as (Hc & Hn & Hid).
  unfold insert_row. rewrite Ht, Hc.
  replace (arbiter_missing oc tb) with false
    by (unfold arbiter_missing, has_arbiter; rewrite Hcons; reflexivity).
  fold cols vals. rewrite Hn.
  destruct (find (clash oc (build_row tb cols vals)) (t_rows tb)) as [old|] eqn:F.
  - subst oc. simpl. eauto.
  - apply find_none_existsb in F.
    unfold plain_insert, first_broken. rewrite Hcons. unfold categories_constraints.
    assert (B1 : breaks s {| con_name := "categories_pkey"; con_kind_of := PrimaryKey "id" |}
                   (t_rows tb) (build_row tb cols vals) = false).
    { change (existsb (fun r' => holds (sql_eq (col r' "id") (col (build_row tb cols vals) "id")))
                (t_rows tb) = false).
      rewrite Hid. apply fresh_uuid_is_fresh. }
    assert (B2 : breaks s {| con_name := "categories_slug_key"; con_kind_of := Unique "slug" |}
                   (t_rows tb) (build_row tb cols vals) = false) by exact F.
    simpl find. rewrite B1, B2. simpl. eauto.
Qed.

Lemma category_rows_go_in L :
  Forall (fun vals => exists n g d, vals = [VText n; VText g; VText d]) L ->
  forall s tb,
    get_table s "categories" = Some tb ->
    categories_as_created tb ->
    exists s1,
      insert_into "categories" ["name"; "slug"; "description"] L (OnConflictDoNothing "slug") s
      = Ok s1.
Proof.
  induction 1 as [|vals L (n & g & d & ->) HL IH]; intros s tb Ht Hshape; simpl.
  - eauto.
  - destruct (category_row_goes_in s tb n g d Ht Hshape) as (s' & res & E).
    rewrite E. simpl.
    destruct (insert_row_inv "categories" ["name"; "slug"; "description"]
                [VText n; VText g; VText d] (OnConflictDoNothing "slug") s s' res
                (eq_refl false) E) as (tb0 & Ht0 & _ & _ & _ & Hcase).
    rewrite Ht in Ht0. inversion Ht0; subst tb0.
    destruct Hcase as [(_ & -> & _)|(_ & _ & -> & _)].
    + now apply (IH s tb).
    + apply (IH _ (with_rows tb (t_rows tb ++ [build_row tb ["name"; "slug"; "description"]
                                                  [VText n; VText g; VText d]]))).
      * apply get_set_table_same.
      * exact Hshape.
Qed.



(** ** The product seed *)

Lemma select_into_same s s' c t w :
  rows_of s' t = rows_of s t -> select_into s' c t w = select_into s c t w.
Proof. unfold select_into. now intros ->. Qed.

Lemma sample_products_named L :
  (exists a b c d, L = sample_products_2 a b c d \/ L = sample_products_3 a b c d) ->
  (forall vals, In vals L -> proposed "name" sample_product_columns vals <> VNull)
  /\ (exists vals, In vals L
        /\ proposed "name" sample_product_columns vals = VText "Tas Tote Premium")
  /\ L <> [].
Proof.
  intros (a & b & c & d & [-> | ->]); (split; [|split]).
  - intros vals Hin. simpl in Hin.
    repeat (destruct Hin as [<-|Hin]; [discriminate|]). contradiction.
  - eexists. split; [left; reflexivity | reflexivity].
  - discriminate.
  - intros vals Hin. simpl in Hin.
    repeat (destruct Hin as [<-|Hin]; [discriminate|]). contradiction.
  - eexists. split; [left; reflexivity | reflexivity].
  - discriminate.
Qed.

(** INSERT INTO public.products .. ON CONFLICT (name) DO NOTHING: refused
    when nothing makes the name unique; otherwise a second run finds every
    name and adds nothing. *)
Lemma seeded_by_name L s tb :
  (forall vals, In vals L -> proposed "name" sample_product_columns vals <> VNull) ->
  (exists vals, In vals L
     /\ proposed "name" sample_product_columns vals = VText "Tas Tote Premium") ->
  L <> [] ->
  get_table s "products" = Some tb ->
  (forall c, In c sample_product_columns -> has_column_in c tb = true) ->
  (has_arbiter "name" tb = false ->
   insert_into "products" sample_product_columns L (OnConflictDoNothing "name") s
   = Err (NoUniqueConstraintForOnConflict "products" "name"))
  /\ (forall s1,
        insert_into "products" sample_product_columns L (OnConflictDoNothing "name") s = Ok s1 ->
        has_arbiter "name" tb = true
        /\ insert_into "products" sample_product_columns L (OnConflictDoNothing "name") s1 = Ok s1
        /\ keeps_rows s s1
        /\ rows_of s1 "categories" = rows_of s "categories"
        /\ (key_holds "name" (t_rows tb) ->
            count_where "name" (VText "Tas Tote Premium") (rows_of s1 "products") = 1)).
Proof.
  intros Hkey (v0 & Hv0 & Hname) HL Ht Hcols. split.
  - intros Ha. destruct L as [|vals L]; [contradiction|].
    simpl. unfold insert_row. rewrite Ht.
    replace (find (fun c => negb (has_column_in c tb)) sample_product_columns) with (@None string).
    + unfold arbiter_missing. simpl. rewrite Ha. reflexivity.
    + symmetry. apply find_none_existsb. apply existsb_none.
      intros c Hc. now rewrite (Hcols c Hc).
  - intros s1 Hrun.
    destruct (first_run "products" sample_product_columns "name" L s tb s1 Ht Hkey Hrun)
      as (extra & Hs1 & Hst & Hvals & Hk1 & _).
    split; [|split; [|split; [|split]]].
    + destruct (Hst HL) as [_ Ha]. unfold arbiter_missing in Ha. simpl in Ha.
      now apply negb_false_iff in Ha.
    + eapply do_nothing_again; eauto.
    + eapply insert_into_keeps_rows; [|exact Hrun]. reflexivity.
    + rewrite Hs1, rows_of_set_table. reflexivity.
    + intros Hk. rewrite Hs1, rows_of_set_table. simpl.
      apply count_where_one; auto.
      destruct (Hvals v0 Hv0) as [_ Hx]. now rewrite Hname in Hx.
Qed.


Lemma get_table_of s t : has_table s t = true -> get_table s t = Some (table_of s t).
Proof. unfold has_table, table_of. destruct (get_table s t); [reflexivity | discriminate]. Qed.

Lemma migrated_project_products :
  get_table migrated_project "products" = Some (table_of migrated_project "products").
Proof. apply get_table_of. vm_compute. reflexivity. Qed.

Lemma migrated_project_product_columns c :
  In c sample_product_columns -> has_column_in c (table_of migrated_project "products") = true.
Proof.
  intros Hc. simpl in Hc.
  repeat (destruct Hc as [<-|Hc]; [vm_compute; reflexivity|]). contradiction.
Qed.

Lemma definitive_fix_products :
  get_table (fst definitive_fix_categories) "products"
  = Some (table_of (fst definitive_fix_categories) "products").
Proof. apply get_table_of. vm_compute. reflexivity. Qed.

Lemma definitive_fix_product_columns c :
  In c sample_product_columns ->
  has_column_in c (table_of (fst definitive_fix_categories) "products") = true.
Proof.
  intros Hc. simpl in Hc.
  repeat (destruct Hc as [<-|Hc]; [vm_compute; reflexivity|]). contradiction.
Qed.

Lemma definitive_fix_seeds_products :
  Part_001_definitive_fix.seed_products (snd definitive_fix_categories)
    (fst definitive_fix_categories)
  = Ok (unwrap (Part_001_definitive_fix.seed_products (snd definitive_fix_categories)
                  (fst definitive_fix_categories))).
Proof. apply unwrap_ok. vm_compute. reflexivity. Qed.


(** ** What the seed steps do to the rows that are there *)

Lemma filter_none {A : Type} (l : list A) : filter (fun _ => false) l = [].
Proof. induction l; simpl; auto. Qed.

(** DELETE FROM t, without a WHERE clause, leaves no row in [t]. *)
Lemma delete_from_all t s s2 :
  delete_from t (fun _ => true) s = Ok s2 -> rows_of s2 t = [].
Proof.
  unfold delete_from, delete_where; fold delete_where. intros H.
  destruct (get_table s t) as [tb|]; [|discriminate].
  match type of H with
  | context [fold_left ?f ?l ?a] => destruct (fold_left f l a) as [s1|]; simpl in H
  end; [|discriminate].
  destruct (get_table s1 t) as [tb1|]; [|discriminate].
  inversion H. rewrite rows_of_set_table, String.eqb_refl. simpl. apply filter_none.
Qed.

(** Every row found after INSERT .. VALUES was there before or is the row
    the statement proposes for one of its value lists. *)
Lemma insert_into_rows t cols oc L :
  is_update oc = false ->
  forall s s1,
    insert_into t cols L oc s = Ok s1 ->
    forall r, In r (rows_of s1 t) ->
      In r (rows_of s t)
      \/ exists vals tb,
           In vals L
           /\ find (fun c => negb (has_column_in c tb)) cols = None
           /\ r = build_row tb cols vals.
Proof.
  intros Hu. induction L as [|vals L IH]; simpl; intros s s1 H r Hr.
  - inversion H; subst. auto.
  - destruct (insert_row t cols vals oc s) as [[s' res]|] eqn:E; simpl in H; [|discriminate].
    destruct (insert_row_inv t cols vals oc s s' res Hu E) as (tb & Ht & Hc & _ & _ & Hcase).
    destruct (IH s' s1 H r Hr) as [Hin | (vals' & tb' & Hin & Hc' & ->)].
    + destruct Hcase as [(_ & -> & _)|(_ & _ & -> & _)]; [auto|].
      rewrite rows_of_set_table, String.eqb_refl in Hin. simpl in Hin.
      apply in_app_or in Hin. destruct Hin as [Hin|[<-|[]]].
      * left. unfold rows_of. now rewrite Ht.
      * right. exists vals, tb. auto.
    + right. exists vals', tb'. auto.
Qed.

Lemma sample_products_names L :
  (exists a b c d, L = sample_products_2 a b c d \/ L = sample_products_3 a b c d) ->
  forall vals, In vals L -> In (proposed "name" sample_product_columns vals) sample_names.
Proof.
  intros (a & b & c & d & [-> | ->]) vals Hin; simpl in Hin;
    repeat (destruct Hin as [<-|Hin];
            [repeat (first [left; reflexivity | right])|]); contradiction.
Qed.

Lemma sample_name_not_null v : In v sample_names -> v <> VNull.
Proof.
  simpl. intros H. repeat (destruct H as [<-|H]; [discriminate|]). contradiction.
Qed.

(** DELETE FROM public.products, then the INSERT of the sample products:
    nothing but sample products is left. *)
Lemma cleared_then_seeded L s s1 :
  (exists a b c d, L = sample_products_2 a b c d \/ L = sample_products_3 a b c d) ->
  (s2 <- delete_from "products" (fun _ => true) s ;;
   insert_into "products" sample_product_columns L NoOnConflict s2) = Ok s1 ->
  forall r, In r (rows_of s1 "products") -> In (col r "name") sample_names.
Proof.
  intros HL H r Hr.
  destruct (delete_from "products" (fun _ => true) s) as [s2|] eqn:D; simpl in H; [|discriminate].
  destruct (insert_into_rows "products" sample_product_columns NoOnConflict L
              (eq_refl false) s2 s1 H r Hr) as [Hin | (vals & tb & Hin & Hc & ->)].
  - rewrite (delete_from_all _ _ _ D) in Hin. contradiction.
  - pose proof (sample_products_names L HL vals Hin) as Hn.
    rewrite (col_build_row_proposed sample_product_columns tb vals "name" Hc
               (sample_name_not_null _ Hn)).
    exact Hn.
Qed.

Lemma operators_shop_seeded :
  Migration_20250120120006.seed operators_shop
  = Ok (unwrap (Migration_20250120120006.seed operators_shop)).
Proof. apply unwrap_ok. vm_compute. reflexivity. Qed.



Lemma project_from_20250120120002_seeded :
  Migration_20250120120002.seed project_from_20250120120002
  = Ok (unwrap (Migration_20250120120002.seed project_from_20250120120002)).
Proof. apply unwrap_ok. vm_compute. reflexivity. Qed.


(** ** Profile creation on registration *)

Lemma find_clash_no_conflict r rs : find (clash NoOnConflict r) rs = None.
Proof. induction rs; simpl; auto. Qed.

Lemma filter_nothing {A : Type} (f : A -> bool) (l : list A) :
  filter f l = [] <-> existsb f l = false.
Proof.
  induction l as [|a l IH]; simpl; [tauto|].
  destruct (f a); simpl; [split; discriminate | exact IH].
Qed.

Lemma requested_role_text meta x :
  requested_role meta = Some x -> json_text (VJson meta) "role" = VText x.
Proof.
  unfold requested_role, json_text.
  destruct (find (fun kv => String.eqb (fst kv) "role") meta); simpl; congruence.
Qed.

Lemma requested_role_absent meta :
  requested_role meta = None -> json_text (VJson meta) "role" = VNull.
Proof.
  unfold requested_role, json_text.
  destruct (find (fun kv => String.eqb (fst kv) "role") meta); simpl; congruence.
Qed.

Section Identity_created.

Variables (s : store) (au pf : table) (id : N) (email : string) (meta : list (string * string)).

Hypothesis Hau : get_table s "auth.users" = Some au.
Hypothesis Hau_shape : identities_as_created au.
Hypothesis Hpf : get_table s "profiles" = Some pf.
Hypothesis Hpf_shape : profiles_as_created pf.
Hypothesis Hnew : unknown_identity s id.

Let new : row :=
  build_row au ["id"; "email"; "raw_user_meta_data"] [VUuid id; VText email; VJson meta].

Let s1 : store := set_table "auth.users" (with_rows au (t_rows au ++ [new])) s.

Lemma new_identity_cells :
  col new "id" = VUuid id /\ col new "raw_user_meta_data" = VJson meta.
Proof.
  destruct Hau_shape as [Hc _]. unfold new, build_row. rewrite Hc. split; reflexivity.
Qed.

Lemma identity_goes_in :
  insert_row "auth.users" ["id"; "email"; "raw_user_meta_data"]
    [VUuid id; VText email; VJson meta] NoOnConflict s = Ok (s1, Some new).
Proof.
  destruct Hau_shape as [Hc Hk]. destruct Hnew as [Hx _].
  unfold rows_of in Hx. rewrite Hau in Hx.
  assert (Hshape :
    find (fun c => negb (has_column_in c au)) ["id"; "email"; "raw_user_meta_data"] = None
    /\ null_column au new = None).
  { unfold has_column_in, null_column, new, build_row. rewrite Hc. split; reflexivity. }
  destruct Hshape as [Hf Hn].
  unfold insert_row. rewrite Hau, Hf.
  change (arbiter_missing NoOnConflict au) with false. cbv iota. fold new. rewrite Hn.
  rewrite find_clash_no_conflict.
  unfold plain_insert, first_broken. rewrite Hk. simpl find.
  replace (breaks s {| con_name := "users_pkey"; con_kind_of := PrimaryKey "id" |}
             (t_rows au) new) with false; [reflexivity|].
  change (false = existsb (fun r' => holds (sql_eq (col r' "id") (col new "id"))) (t_rows au)).
  now rewrite (proj1 new_identity_cells).
Qed.

(** The profile the trigger function proposes, with role [x]. *)
Let profile (x : string) : row :=
  build_row pf ["id"; "full_name"; "role"]
    [VUuid id; json_text (VJson meta) "full_name"; VText x].

Lemma profile_cells x : col (profile x) "id" = VUuid id /\ col (profile x) "role" = VText x.
Proof.
  destruct Hpf_shape as [Hc _]. unfold profile, build_row. simpl in Hc.
  destruct Hc as [E|[E|[E|[E|[]]]]]; rewrite <- E; split; reflexivity.
Qed.

Lemma profile_goes_in x :
  insert_row "profiles" ["id"; "full_name"; "role"]
    [VUuid id; json_text (VJson meta) "full_name"; VText x] NoOnConflict s1
  = Ok (set_table "profiles" (with_rows pf (t_rows pf ++ [profile x])) s1, Some (profile x)).
Proof.
  destruct Hnew as [_ Hx]. unfold profiles_of_identity, rows_of in Hx. rewrite Hpf in Hx.
  apply filter_nothing in Hx.
  assert (Hshape :
    find (fun c => negb (has_column_in c pf)) ["id"; "full_name"; "role"] = None
    /\ null_column pf (profile x) = None).
  { destruct Hpf_shape as [Hc _]. unfold has_column_in, null_column, profile, build_row.
    simpl in Hc. destruct Hc as [E|[E|[E|[E|[]]]]]; rewrite <- E; split; reflexivity. }
  destruct Hshape as [Hf Hn]. destruct Hpf_shape as [_ Hk].
  assert (Hpf1 : get_table s1 "profiles" = Some pf)
    by (unfold s1; rewrite get_set_table; exact Hpf).
  unfold insert_row. rewrite Hpf1, Hf.
  change (arbiter_missing NoOnConflict pf) with false. cbv iota. fold (profile x). rewrite Hn.
  rewrite find_clash_no_conflict.
  unfold plain_insert, first_broken. rewrite Hk. unfold profiles_constraints. simpl find.
  replace (breaks s1 {| con_name := "profiles_pkey"; con_kind_of := PrimaryKey "id" |}
             (t_rows pf) (profile x)) with false.
  - replace (breaks s1 {| con_name := "profiles_id_fkey";
                          con_kind_of := ForeignKey "id" "auth.users" "id" Cascade |}
               (t_rows pf) (profile x)) with false; [reflexivity|].
    change (false = negb (value_eqb (col (profile x) "id") VNull)
                    && negb (existsb (fun r' => holds (sql_eq (col r' "id") (col (profile x) "id")))
                               (rows_of s1 "auth.users"))).
    rewrite (proj1 (profile_cells x)). unfold s1.
    rewrite rows_of_set_table. simpl. rewrite existsb_app. simpl.
    rewrite (proj1 new_identity_cells).
    replace (holds (sql_eq (VUuid id) (VUuid id))) with true
      by (symmetry; apply holds_sql_eq; split; [reflexivity | discriminate]).
    now rewrite !orb_true_r.
  - change (false = existsb (fun r' => holds (sql_eq (col r' "id") (col (profile x) "id")))
                      (t_rows pf)).
    now rewrite (proj1 (profile_cells x)).
Qed.

(** When the trigger function proposes a profile with role [x], the
    registration gives the identity that profile and no other. *)
Lemma registered_with f x :
  profile_trigger_installed s f ->
  f new = Ok ("profiles", ["id"; "full_name"; "role"],
              [VUuid id; json_text (VJson meta) "full_name"; VText x]) ->
  registers_with_role s id email meta (VText x).
Proof.
  intros [Htg Hfn] Hf.
  exists (set_table "profiles" (with_rows pf (t_rows pf ++ [profile x])) s1), (profile x).
  split; [|split].
  - unfold on_identity_created. rewrite identity_goes_in. simpl.
    replace (st_triggers s1) with (st_triggers s) by reflexivity.
    rewrite Htg. simpl. unfold fire. simpl tg_function.
    replace (st_functions s1) with (st_functions s) by reflexivity.
    rewrite Hfn, Hf. simpl. rewrite profile_goes_in. reflexivity.
  - destruct Hnew as [_ Hx]. unfold profiles_of_identity in *.
    rewrite rows_of_set_table. simpl. unfold rows_of in Hx. rewrite Hpf in Hx.
    rewrite filter_app, Hx. simpl. rewrite (proj1 (profile_cells x)).
    replace (holds (sql_eq (VUuid id) (VUuid id))) with true
      by (symmetry; apply holds_sql_eq; split; [reflexivity | discriminate]).
    reflexivity.
  - apply profile_cells.
Qed.

(** When the trigger function fails, so does the registration. *)
Lemma registration_fails f e :
  profile_trigger_installed s f ->
  f new = Err e ->
  on_identity_created id email meta s = Err e.
Proof.
  intros [Htg Hfn] Hf.
  unfold on_identity_created. rewrite identity_goes_in. simpl.
  replace (st_triggers s1) with (st_triggers s) by reflexivity.
  rewrite Htg. simpl. unfold fire. simpl tg_function.
  replace (st_functions s1) with (st_functions s) by reflexivity.
  rewrite Hfn, Hf. reflexivity.
Qed.

Lemma valid_role_casts x :
  In x user_role_labels -> cast_enum "user_role" user_role_labels (VText x) = Ok (VText x).
Proof.
  simpl. intros H. repeat (destruct H as [<-|H]; [reflexivity|]). contradiction.
Qed.

Lemma invalid_role_is_refused x :
  ~ In x user_role_labels ->
  cast_enum "user_role" user_role_labels (VText x) = Err (InvalidEnumValue "user_role" x).
Proof.
  intros H. unfold cast_enum.
  replace (existsb (String.eqb x) user_role_labels) with false; [reflexivity|].
  symmetry. apply existsb_none. intros l Hl.
  destruct (String.eqb x l) eqn:E; [|reflexivity].
  apply String.eqb_eq in E. subst l. contradiction.
Qed.


End Identity_created.

Lemma project_from_20250120120002_identities :
  get_table project_from_20250120120002 "auth.users"
  = Some (table_of project_from_20250120120002 "auth.users").
Proof. apply get_table_of. vm_compute. reflexivity. Qed.

Lemma project_from_20250120120002_profiles :
  get_table project_from_20250120120002 "profiles"
  = Some (table_of project_from_20250120120002 "profiles").
Proof. apply get_table_of. vm_compute. reflexivity. Qed.

Lemma project_from_20250120120002_identities_shape :
  identities_as_created (table_of project_from_20250120120002 "auth.users").
Proof. split; reflexivity. Qed.

Lemma project_from_20250120120002_profiles_shape :
  profiles_as_created (table_of project_from_20250120120002 "profiles").
Proof. split; [left; reflexivity | reflexivity]. Qed.

Lemma project_from_20250120120002_unknown : unknown_identity project_from_20250120120002 7.
Proof. split; vm_compute; reflexivity. Qed.

Lemma project_from_20250120120002_trigger :
  profile_trigger_installed project_from_20250120120002 handle_new_user.
Proof. split; reflexivity. Qed.

Lemma project_from_20250120120002_fits :
  fits_role_column handle_new_user (table_of project_from_20250120120002 "profiles").
Proof. left. split; [reflexivity|]. intros E. vm_compute in E. discriminate E. Qed.



(** ** Further properties of the scripts *)

(** Where every SELECT policy an earlier script left on profiles is
    auth.uid() = id, each caller reads its own profile and no other after
    the policy script 20250120120009. *)
Theorem own_profile_only_without_public_policy s0 s uid R :
  run Migration_20250120120009.script s0 = Ok s ->
  (forall p, In p (policies_of s0 "profiles") -> applies SELECT p = true ->
             pol_using p = Some (uid_equals "id")) ->
  (read s uid "profiles" R = Ok R <-> (uid = col R "id" /\ uid <> VNull)).
Proof.
  intros Hrun Hclean.
  destruct (policy_script_on_profiles _ _ Hrun) as (tb0 & tb & H0 & H1 & Hrls & _ & Hpol).
  unfold policies_of in Hclean. rewrite H0 in Hclean.
  unfold read, row_visible. rewrite H1, Hrls, Hpol, existsb_app.
  rewrite <- holds_sql_eq.
  match goal with
  | |- context [existsb ?f (drop_named ?a (drop_named ?b ?l))] =>
      assert (Hkept : existsb f (drop_named a (drop_named b l)) = true ->
                      holds (sql_eq uid (col R "id")) = true)
  end.
  { intros Hx. apply existsb_exists in Hx. destruct Hx as (p & Hp & Hv).
    apply in_drop_named, in_drop_named in Hp.
    apply andb_true_iff in Hv. destruct Hv as [Ha Hu].
    unfold using_passes in Hu. rewrite (Hclean p Hp Ha) in Hu. exact Hu. }
  match goal with
  | |- context [existsb ?f (drop_named ?a (drop_named ?b ?l))] =>
      destruct (existsb f (drop_named a (drop_named b l)))
  end.
  - rewrite (Hkept eq_refl). simpl. tauto.
  - cbn -[sql_eq]. unfold uid_equals. rewrite orb_false_r.
    destruct (holds (sql_eq uid (col R "id"))); split; intros; congruence.
Qed.

Lemma project_from_20250120120002_runs_policy_script :
  run Migration_20250120120009.script project_from_20250120120002_with_reviews
  = Ok (unwrap (run Migration_20250120120009.script project_from_20250120120002_with_reviews)).
Proof. apply unwrap_ok. vm_compute. reflexivity. Qed.

Lemma project_from_20250120120002_profile_policies :
  policies_of project_from_20250120120002_with_reviews "profiles"
  = [ Migration_20250120120002.users_can_view_their_own_profile;
      Migration_20250120120002.users_can_update_their_own_profile ].
Proof. reflexivity. Qed.

Lemma project_from_20250120120002_select_policies p :
  In p (policies_of project_from_20250120120002_with_reviews "profiles") ->
  applies SELECT p = true -> pol_using p = Some (uid_equals "id").
Proof.
  rewrite project_from_20250120120002_profile_policies.
  intros [<-|[<-|[]]]; [reflexivity | discriminate].
Qed.

Lemma own_profile_only_without_public_policy_witness :
  read (unwrap (run Migration_20250120120009.script project_from_20250120120002_with_reviews))
       (VUuid 3) "profiles" customer = Ok customer
  <-> (VUuid 3 = col customer "id" /\ VUuid 3 <> VNull).
Proof.
  exact (own_profile_only_without_public_policy
           project_from_20250120120002_with_reviews _ (VUuid 3) customer
           project_from_20250120120002_runs_policy_script
           project_from_20250120120002_select_policies).
Defined.

(** The policy script 20250120120009 runs again on the shop it already ran
    on, and leaves the same policies on every table and the same rows. *)
Theorem policy_script_runs_again :
  is_ok (run Migration_20250120120009.script shop) = true
  /\ policy_names (unwrap (run Migration_20250120120009.script shop)) = policy_names shop
  /\ forall t, In t ["profiles"; "categories"; "products"; "orders"; "order_items"; "reviews"] ->
               rows_of (unwrap (run Migration_20250120120009.script shop)) t = rows_of shop t.
Proof.
  split; [vm_compute; reflexivity|]. split; [vm_compute; reflexivity|].
  intros t Ht. simpl in Ht.
  repeat (destruct Ht as [<-|Ht]; [vm_compute; reflexivity|]). contradiction.
Qed.

(** The product seed of 20250120120002, guarded by IF NOT EXISTS (SELECT 1
    FROM public.products): once it has run, it runs again without a change,
    and it never removes or changes a row. *)
Theorem guarded_product_seed_again (s s1 : store) :
  Migration_20250120120002.seed_products s = Ok s1 ->
  Migration_20250120120002.seed_products s1 = Ok s1 /\ keeps_rows s s1.
Proof.
  intros H. unfold Migration_20250120120002.seed_products in H.
  destruct (get_table s "products") as [tb|] eqn:Ht; [|discriminate].
  destruct (t_rows tb) as [|r0 rs] eqn:Hr.
  - split; [|eapply insert_into_keeps_rows; [|exact H]; reflexivity].
    match type of H with
    | insert_into _ _ ?L0 _ _ = _ => remember L0 as L eqn:EL
    end.
    destruct L as [|vals L]; [discriminate EL|]. simpl in H.
    destruct (insert_row "products" sample_product_columns vals NoOnConflict s)
      as [[s' res]|] eqn:E; simpl in H; [|discriminate].
    destruct (insert_row_inv "products" sample_product_columns vals NoOnConflict s s' res
                (eq_refl false) E)
      as (tb0 & Ht0 & _ & _ & _ & [(Hx & _)|(_ & _ & Hs' & _)]).
    + apply find_some_existsb in Hx. rewrite find_clash_no_conflict in Hx.
      now contradiction Hx.
    + destruct (insert_into_keeps_rows "products" sample_product_columns L NoOnConflict s' s1
                  (eq_refl false) H "products") as [extra Hk].
      rewrite Hs', rows_of_set_table in Hk. simpl in Hk.
      unfold Migration_20250120120002.seed_products.
      unfold rows_of in Hk.
      destruct (get_table s1 "products") as [tb1|].
      * rewrite Hk. destruct (t_rows tb0); reflexivity.
      * destruct (t_rows tb0); discriminate Hk.
  - inversion H; subst s1. split; [|apply keeps_rows_refl].
    unfold Migration_20250120120002.seed_products. rewrite Ht, Hr. reflexivity.
Qed.

Lemma project_before_product_seed_seeded :
  Migration_20250120120002.seed_products project_before_product_seed_20250120120002
  = Ok (unwrap (Migration_20250120120002.seed_products
                  project_before_product_seed_20250120120002)).
Proof. apply unwrap_ok. vm_compute. reflexivity. Qed.

Lemma guarded_product_seed_again_witness :
  Migration_20250120120002.seed_products
    (unwrap (Migration_20250120120002.seed_products project_before_product_seed_20250120120002))
  = Ok (unwrap (Migration_20250120120002.seed_products
                  project_before_product_seed_20250120120002))
  /\ keeps_rows project_before_product_seed_20250120120002
       (unwrap (Migration_20250120120002.seed_products
                  project_before_product_seed_20250120120002)).
Proof.
  exact (guarded_product_seed_again project_before_product_seed_20250120120002 _
           project_before_product_seed_seeded).
Defined.

(** The category seed of the definitive fix, ON CONFLICT (name) DO UPDATE SET
    slug = EXCLUDED.slug, run again on the project it seeded: the same four
    rows, and the same ids returned. *)
Theorem category_upsert_again :
  category_rows (Part_001_definitive_fix.seed_categories (fst definitive_fix_categories))
  = Some (rows_of (fst definitive_fix_categories) "categories", snd definitive_fix_categories)
  /\ map (fun r => col r "slug") (rows_of (fst definitive_fix_categories) "categories")
     = map VText seeded_slugs.
Proof. split; vm_compute; reflexivity. Qed.

(** On the schema of 20250120120006, where profiles.role is NOT NULL, a
    registration without a requested role is refused: the trigger function
    inserts the missing role as NULL, which the column default does not
    replace. *)
Theorem registration_without_role_is_refused :
  on_identity_created 7 "sari@example.com" roleless_meta project_from_20250120120006
  = Err (NotNullViolation "profiles" "role").
Proof. vm_compute. reflexivity. Qed.

(** The script 20250120120007 fails on a new project: its schema steps run,
    and its product seed names the conflict target (name), which no unique
    constraint of the products table it created backs. *)
Theorem script_20250120120007_fails_on_new_project :
  is_ok (run Migration_20250120120007.schema new_project) = true
  /\ run Migration_20250120120007.script new_project
     = Err (NoUniqueConstraintForOnConflict "products" "name").
Proof. split; vm_compute; reflexivity. Qed.

(** ** Running the policy script forwards *)

Lemma run_step_ex (P : store -> Prop) st rest s s1 :
  st s = Ok s1 ->
  (exists s', run rest s1 = Ok s' /\ P s') ->
  exists s', run (st :: rest) s = Ok s' /\ P s'.
Proof. intros E H. simpl. rewrite E. exact H. Qed.

Lemma enable_rls_ok t s tb :
  get_table s t = Some tb -> enable_rls t s = Ok (set_table t (with_rls tb true) s).
Proof. unfold enable_rls. now intros ->. Qed.

Lemma drop_policy_ok n t s tb :
  get_table s t = Some tb ->
  drop_policy_if_exists n t s
  = Ok (set_table t (with_policies tb (drop_named n (t_policies tb))) s).
Proof. unfold drop_policy_if_exists. now intros ->. Qed.

Lemma create_policy_ok t p s tb :
  get_table s t = Some tb ->
  has_policy (pol_name p) (t_policies tb) = false ->
  create_policy t p s = Ok (set_table t (with_policies tb (t_policies tb ++ [p])) s).
Proof. unfold create_policy. now intros -> ->. Qed.

Lemma has_policy_app n l1 l2 : has_policy n (l1 ++ l2) = has_policy n l1 || has_policy n l2.
Proof. apply existsb_app. Qed.

Lemma has_policy_drop_named n m l :
  has_policy n (drop_named m l) = negb (String.eqb n m) && has_policy n l.
Proof.
  unfold has_policy, drop_named, has_name.
  induction l as [|p l IH]; simpl; [now rewrite andb_false_r|].
  destruct (String.eqb (pol_name p) m) eqn:Em; simpl.
  - rewrite IH. apply String.eqb_eq in Em. subst m.
    destruct (String.eqb (pol_name p) n) eqn:En; simpl; [|reflexivity].
    apply String.eqb_eq in En. subst n. now rewrite String.eqb_refl.
  - rewrite IH. destruct (String.eqb (pol_name p) n) eqn:En; simpl; [|reflexivity].
    apply String.eqb_eq in En. subst n. now rewrite Em.
Qed.

Lemma drop_named_app n l1 l2 : drop_named n (l1 ++ l2) = drop_named n l1 ++ drop_named n l2.
Proof. apply filter_app. Qed.

Lemma drop_named_absent n l : has_policy n l = false -> drop_named n l = l.
Proof.
  unfold has_policy, drop_named. induction l as [|p l IH]; simpl; [reflexivity|].
  intros H. apply orb_false_iff in H. destruct H as [Hp Hl].
  rewrite Hp. simpl. now rewrite IH.
Qed.

Lemma others_untouched t x cur s0 :
  (forall t', ~ In t' secured_tables -> get_table cur t' = get_table s0 t') ->
  In t secured_tables ->
  forall t', ~ In t' secured_tables -> get_table (set_table t x cur) t' = get_table s0 t'.
Proof.
  intros F Ht t' Hn. rewrite get_set_table.
  destruct (String.eqb t t') eqn:E; [|now apply F].
  apply String.eqb_eq in E. subst t'. contradiction.
Qed.

Lemma lookup_absent {A : Type} k (l : list (string * A)) :
  ~ In k (map fst l) -> lookup k l = None.
Proof.
  induction l as [|[k' a] l IH]; simpl; [reflexivity|]. intros H.
  destruct (String.eqb k' k) eqn:E.
  - apply String.eqb_eq in E. tauto.
  - apply IH. tauto.
Qed.

(** Restates what is known of the tables of [cur] for the store in which
    table [t] has become [x]. *)
Ltac restate_tables cur t x :=
  repeat match goal with
  | H : get_table cur ?t' = Some ?tb' |- _ =>
      let G := fresh "G" in
      pose proof (get_set_table t t' x cur) as G;
      rewrite H in G;
      let b := eval vm_compute in (String.eqb t t') in
      change (String.eqb t t') with b in G; cbv iota in G;
      cbn [t_policies t_rls t_rows t_columns t_constraints with_policies with_rls] in G;
      clear H
  end;
  match goal with
  | F : forall t', ~ In t' secured_tables -> get_table cur t' = get_table ?s0 t' |- _ =>
      let F' := fresh "F" in
      pose proof (others_untouched t x cur s0 F ltac:(simpl; tauto)) as F'; clear F
  end;
  match goal with
  | R : beside_tables cur = ?b |- _ =>
      let R' := fresh "R" in
      assert (R' : beside_tables (set_table t x cur) = b) by exact R; clear R
  end.

(** One statement of the policy script. *)
Ltac policy_statement_forward :=
  match goal with
  | |- exists s', run (_ :: _) ?cur = Ok s' /\ _ =>
      eapply run_step_ex;
      [ first [ apply enable_rls_ok; eassumption
              | apply drop_policy_ok; eassumption
              | apply create_policy_ok;
                [ eassumption
                | cbn [t_policies with_policies with_rls];
                  rewrite ?has_policy_app, ?has_policy_drop_named;
                  reflexivity ] ]
      | ];
      cbn [t_policies t_rls t_rows t_columns t_constraints with_policies with_rls];
      match goal with
      | |- exists s', run _ (set_table ?t ?x cur) = Ok s' /\ _ =>
          restate_tables cur t x;
          let s1 := fresh "s" in
          set (s1 := set_table t x cur) in *; clearbody s1; try clear cur
      end
  end.

Lemma policy_script_effect_from s cur profiles categories products orders order_items reviews :
  get_table cur "profiles" = Some profiles ->
  get_table cur "categories" = Some categories ->
  get_table cur "products" = Some products ->
  get_table cur "orders" = Some orders ->
  get_table cur "order_items" = Some order_items ->
  get_table cur "reviews" = Some reviews ->
  (forall t', ~ In t' secured_tables -> get_table cur t' = get_table s t') ->
  get_table s "profiles" = Some profiles ->
  get_table s "categories" = Some categories ->
  get_table s "products" = Some products ->
  get_table s "orders" = Some orders ->
  get_table s "order_items" = Some order_items ->
  get_table s "reviews" = Some reviews ->
  beside_tables cur = beside_tables s ->
  exists s',
    run Migration_20250120120009.script cur = Ok s'
    /\ (forall t, get_table s' t = option_map (after_policy_script t) (get_table s t))
       /\ beside_tables s' = beside_tables s.
Proof.
  intros H1 H2 H3 H4 H5 H6 F K1 K2 K3 K4 K5 K6 R.
  unfold Migration_20250120120009.script, Migration_20250120120009.step_1,
    Migration_20250120120009.step_2, Migration_20250120120009.step_3.
  cbn [app].
  repeat policy_statement_forward.
  match goal with |- exists s', run [] ?cur = Ok s' /\ _ => exists cur; split; [reflexivity|] end.
  split; [|assumption].
  intros t. destruct (in_dec string_dec t secured_tables) as [Hin|Hout].
  - simpl in Hin.
    repeat (destruct Hin as [<-|Hin];
            [ match goal with
              | G : get_table ?c ?t = Some _, K : get_table s ?t = Some _
                |- get_table ?c ?t = _ =>
                  rewrite G, K; unfold after_policy_script; simpl;
                  rewrite <- ?app_assoc; reflexivity
              end |]).
    contradiction.
  - rewrite (F t Hout). unfold after_policy_script.
    rewrite (lookup_absent t policy_script_plan Hout).
    now destruct (get_table s t).
Qed.

(** Where the six tables exist the policy script runs, and it leaves each
    table as [after_policy_script] says. *)
Lemma policy_script_effect s :
  (forall t, In t secured_tables -> has_table s t = true) ->
  exists s',
    run Migration_20250120120009.script s = Ok s'
    /\ (forall t, get_table s' t = option_map (after_policy_script t) (get_table s t))
       /\ beside_tables s' = beside_tables s.
Proof.
  intros Hall.
  assert (Hx : forall t, In t secured_tables -> exists tb, get_table s t = Some tb).
  { intros t Ht. specialize (Hall t Ht). unfold has_table in Hall.
    destruct (get_table s t); [eauto | discriminate]. }
  destruct (Hx "profiles") as [profiles H1]; [simpl; tauto|].
  destruct (Hx "categories") as [categories H2]; [simpl; tauto|].
  destruct (Hx "products") as [products H3]; [simpl; tauto|].
  destruct (Hx "orders") as [orders H4]; [simpl; tauto|].
  destruct (Hx "order_items") as [order_items H5]; [simpl; tauto|].
  destruct (Hx "reviews") as [reviews H6]; [simpl; tauto|].
  apply (policy_script_effect_from s s profiles categories products orders order_items reviews);
    auto.
Qed.

Lemma has_table_set_table t tb s t' :
  has_table s t = true -> has_table (set_table t tb s) t' = has_table s t'.
Proof.
  unfold has_table. rewrite get_set_table. intros H.
  destruct (String.eqb t t') eqn:E; [|reflexivity].
  apply String.eqb_eq in E. subst t'. destruct (get_table s t); [reflexivity | discriminate].
Qed.

(** ENABLE ROW LEVEL SECURITY on a list of tables stops at the first one
    that is not there. *)
Lemma enable_all_fails ts rest : forall s,
  (exists t, In t ts /\ has_table s t = false) ->
  exists t, In t ts /\ has_table s t = false
            /\ run (map enable_rls ts ++ rest) s = Err (UndefinedTable t).
Proof.
  induction ts as [|t0 ts IH]; intros s (t & Hin & Hno); [contradiction|].
  simpl. unfold enable_rls at 1.
  destruct (get_table s t0) as [tb|] eqn:E.
  - assert (H0 : has_table s t0 = true) by (unfold has_table; now rewrite E).
    simpl.
    destruct (IH (set_table t0 (with_rls tb true) s)) as (t' & Hin' & Hno' & Hrun).
    + exists t. rewrite has_table_set_table by exact H0. split; [|exact Hno].
      destruct Hin as [<-|Hin]; [congruence | exact Hin].
    + exists t'. rewrite has_table_set_table in Hno' by exact H0. auto.
  - exists t0. unfold has_table. rewrite E. auto.
Qed.

Lemma secured_tables_there_or_not s :
  (forall t, In t secured_tables -> has_table s t = true)
  \/ exists t, In t secured_tables /\ has_table s t = false.
Proof.
  unfold secured_tables.
  destruct (has_table s "profiles") eqn:E1; [|right; exists "profiles"; split; [simpl; tauto | assumption]].
  destruct (has_table s "categories") eqn:E2; [|right; exists "categories"; split; [simpl; tauto | assumption]].
  destruct (has_table s "products") eqn:E3; [|right; exists "products"; split; [simpl; tauto | assumption]].
  destruct (has_table s "orders") eqn:E4; [|right; exists "orders"; split; [simpl; tauto | assumption]].
  destruct (has_table s "order_items") eqn:E5; [|right; exists "order_items"; split; [simpl; tauto | assumption]].
  destruct (has_table s "reviews") eqn:E6; [|right; exists "reviews"; split; [simpl; tauto | assumption]].
  left. intros t Ht. simpl in Ht.
  repeat (destruct Ht as [<-|Ht]; [assumption|]). contradiction.
Qed.

Lemma policy_script_fails_without_a_table s :
  (exists t, In t secured_tables /\ has_table s t = false) ->
  exists t, In t secured_tables /\ has_table s t = false
            /\ run Migration_20250120120009.script s = Err (UndefinedTable t).
Proof.
  apply (enable_all_fails secured_tables
           (Migration_20250120120009.step_2 ++ Migration_20250120120009.step_3)).
Qed.


Lemma drop_all_app names l1 l2 :
  drop_all names (l1 ++ l2) = drop_all names l1 ++ drop_all names l2.
Proof.
  unfold drop_all. revert l1 l2.
  induction names as [|n names IH]; intros l1 l2; simpl; [reflexivity|].
  now rewrite drop_named_app, IH.
Qed.

Lemma drop_all_keeps_absent n names : forall l,
  has_policy n l = false -> has_policy n (drop_all names l) = false.
Proof.
  unfold drop_all. induction names as [|k names IH]; intros l H; simpl; [exact H|].
  apply IH. rewrite has_policy_drop_named, H. apply andb_false_r.
Qed.

Lemma has_policy_drop_all n names : forall l,
  In n names -> has_policy n (drop_all names l) = false.
Proof.
  induction names as [|m names IH]; intros l Hin; [contradiction|].
  destruct (string_dec m n) as [->|Hne].
  - apply (drop_all_keeps_absent n names (drop_named n l)).
    rewrite has_policy_drop_named, String.eqb_refl. reflexivity.
  - apply (IH (drop_named m l)). destruct Hin as [E|Hin]; [contradiction | exact Hin].
Qed.

Lemma drop_all_absent names l :
  (forall n, In n names -> has_policy n l = false) -> drop_all names l = l.
Proof.
  unfold drop_all. revert l.
  induction names as [|n names IH]; intros l H; simpl; [reflexivity|].
  rewrite (drop_named_absent n l) by (apply H; now left).
  apply IH. intros m Hm. apply H. now right.
Qed.

(** The policy script leaves a table it has been over as it finds it. *)
Lemma after_policy_script_again t tb :
  after_policy_script t (after_policy_script t tb) = after_policy_script t tb.
Proof.
  unfold after_policy_script.
  destruct (lookup t policy_script_plan) as [[dropped created]|] eqn:L; [|reflexivity].
  assert (Hc : drop_all dropped created = []).
  { unfold policy_script_plan in L. simpl in L.
    repeat match type of L with
    | (if ?b then _ else _) = _ => destruct b
    end; inversion L; subst; reflexivity. }
  cbn [t_columns t_constraints t_rows t_policies]. f_equal.
  rewrite drop_all_app, Hc, app_nil_r. f_equal.
  apply drop_all_absent. intros n Hn. now apply has_policy_drop_all.
Qed.

(** What a run of the policy script leaves. *)
Lemma policy_script_result s0 s :
  run Migration_20250120120009.script s0 = Ok s ->
  (forall t, In t secured_tables -> has_table s0 t = true)
  /\ (forall t, get_table s t = option_map (after_policy_script t) (get_table s0 t))
  /\ beside_tables s = beside_tables s0.
Proof.
  intros Hrun.
  assert (Hall : forall t, In t secured_tables -> has_table s0 t = true).
  { destruct (secured_tables_there_or_not s0) as [Hall|Hmiss]; [exact Hall|].
    destruct (policy_script_fails_without_a_table s0 Hmiss) as (t & _ & _ & Hfail).
    rewrite Hfail in Hrun. discriminate. }
  split; [exact Hall|].
  destruct (policy_script_effect s0 Hall) as (s' & Hrun' & Ht & Hb).
  rewrite Hrun in Hrun'. inversion Hrun'. subst s'. auto.
Qed.

(** The policy script 20250120120009 is re-runnable: on a database it has
    run on, it runs again and changes nothing. *)
Theorem policy_script_twice (s0 s : store) :
  run Migration_20250120120009.script s0 = Ok s ->
  exists s', run Migration_20250120120009.script s = Ok s' /\ same_database s' s.
Proof.
  intros Hrun.
  destruct (policy_script_result s0 s Hrun) as (Hall & Ht & Hb).
  assert (Hall' : forall t, In t secured_tables -> has_table s t = true).
  { intros t Hin. specialize (Hall t Hin). unfold has_table in *. rewrite Ht.
    destruct (get_table s0 t); [reflexivity | discriminate]. }
  destruct (policy_script_effect s Hall') as (s' & Hrun' & Ht' & Hb').
  exists s'. split; [exact Hrun'|]. split; [|exact Hb'].
  intros t. rewrite Ht', Ht.
  destruct (get_table s0 t) as [tb|]; [|reflexivity].
  simpl. now rewrite after_policy_script_again.
Qed.

Lemma policy_script_twice_witness :
  exists s', run Migration_20250120120009.script shop = Ok s' /\ same_database s' shop.
Proof.
  exact (policy_script_twice shop_before_policies shop shop_ran_policy_script).
Defined.

(** ** Who may write what after the policy script *)

Lemma in_drop_all names p : forall l, In p (drop_all names l) -> In p l.
Proof.
  unfold drop_all. induction names as [|n names IH]; intros l H; simpl in H; [exact H|].
  apply (in_drop_named n). now apply IH.
Qed.

Lemma in_drop_named_kept n p l : In p l -> pol_name p <> n -> In p (drop_named n l).
Proof.
  intros Hin Hne. unfold drop_named. apply filter_In. split; [exact Hin|].
  unfold has_name. apply negb_true_iff. now apply String.eqb_neq.
Qed.

Lemma in_drop_all_kept names p : forall l,
  In p l -> ~ In (pol_name p) names -> In p (drop_all names l).
Proof.
  unfold drop_all. induction names as [|n names IH]; intros l Hin Hn; simpl; [exact Hin|].
  apply IH.
  - apply in_drop_named_kept; [exact Hin|]. intros E. apply Hn. left. now symmetry.
  - intros H. apply Hn. now right.
Qed.

Lemma lookup_in {A : Type} k (l : list (string * A)) a :
  lookup k l = Some a -> In k (map fst l).
Proof.
  induction l as [|[k' a'] l IH]; simpl; [discriminate|].
  destruct (String.eqb k' k) eqn:E; [|auto].
  apply String.eqb_eq in E. auto.
Qed.

(** The policies of a table the policy script has been over. *)
Lemma secured_policies s0 s t dropped created :
  run Migration_20250120120009.script s0 = Ok s ->
  lookup t policy_script_plan = Some (dropped, created) ->
  exists tb0 tb,
    get_table s0 t = Some tb0 /\ get_table s t = Some tb
    /\ t_rls tb = true /\ t_rows tb = t_rows tb0
    /\ t_policies tb = drop_all dropped (t_policies tb0) ++ created.
Proof.
  intros Hrun L.
  destruct (policy_script_result s0 s Hrun) as (Hall & Ht & _).
  assert (Hin : In t secured_tables) by (apply (lookup_in t policy_script_plan _ L)).
  specialize (Hall t Hin). unfold has_table in Hall.
  destruct (get_table s0 t) as [tb0|] eqn:E0; [|discriminate].
  exists tb0, (after_policy_script t tb0).
  split; [reflexivity|]. split; [now rewrite Ht, E0|].
  unfold after_policy_script. rewrite L. simpl. auto.
Qed.

Lemma existsb_decided {A : Type} (f : A -> bool) (l : list A) (b : bool) :
  (forall p, In p l -> f p = true -> b = true) ->
  (b = true -> exists p, In p l /\ f p = true) ->
  existsb f l = b.
Proof.
  intros H1 H2. destruct b.
  - apply existsb_exists. auto.
  - apply existsb_none. intros p Hp. destruct (f p) eqn:E; [|reflexivity].
    symmetry. eauto.
Qed.

(** After the policy script, whether a command reaches a row is decided by
    the policies that were there before and the policies the script creates. *)
Lemma visible_after s0 s t dropped created cmd uid r (b : bool) :
  run Migration_20250120120009.script s0 = Ok s ->
  lookup t policy_script_plan = Some (dropped, created) ->
  (forall p, In p (policies_of s0 t) \/ In p created ->
             applies cmd p = true -> using_passes (db_of s) uid r p = true -> b = true) ->
  (b = true -> exists p, (In p created
                          \/ (In p (policies_of s0 t) /\ ~ In (pol_name p) dropped))
                         /\ applies cmd p = true
                         /\ using_passes (db_of s) uid r p = true) ->
  row_visible s uid cmd t r = b.
Proof.
  intros Hrun L Hall Hsome.
  destruct (secured_policies s0 s t dropped created Hrun L)
    as (tb0 & tb & H0 & H1 & Hrls & _ & Hpol).
  unfold row_visible. rewrite H1, Hrls, Hpol.
  unfold policies_of in Hall, Hsome. rewrite H0 in Hall, Hsome.
  apply existsb_decided.
  - intros p Hp Hf. apply andb_true_iff in Hf. destruct Hf as [Ha Hu].
    apply (Hall p); auto.
    apply in_app_or in Hp. destruct Hp as [Hp|Hp]; [left | right; exact Hp].
    now apply (in_drop_all dropped).
  - intros Hb. destruct (Hsome Hb) as (p & Hp & Ha & Hu).
    exists p. split; [|now rewrite Ha, Hu].
    apply in_or_app. destruct Hp as [Hp|[Hp Hn]]; [now right | left].
    now apply in_drop_all_kept.
Qed.

Lemma admissible_after s0 s t dropped created cmd uid r (b : bool) :
  run Migration_20250120120009.script s0 = Ok s ->
  lookup t policy_script_plan = Some (dropped, created) ->
  (forall p, In p (policies_of s0 t) \/ In p created ->
             applies cmd p = true -> check_passes (db_of s) uid r p = true -> b = true) ->
  (b = true -> exists p, (In p created
                          \/ (In p (policies_of s0 t) /\ ~ In (pol_name p) dropped))
                         /\ applies cmd p = true
                         /\ check_passes (db_of s) uid r p = true) ->
  row_admissible s uid cmd t r = b.
Proof.
  intros Hrun L Hall Hsome.
  destruct (secured_policies s0 s t dropped created Hrun L)
    as (tb0 & tb & H0 & H1 & Hrls & _ & Hpol).
  unfold row_admissible. rewrite H1, Hrls, Hpol.
  unfold policies_of in Hall, Hsome. rewrite H0 in Hall, Hsome.
  apply existsb_decided.
  - intros p Hp Hf. apply andb_true_iff in Hf. destruct Hf as [Ha Hu].
    apply (Hall p); auto.
    apply in_app_or in Hp. destruct Hp as [Hp|Hp]; [left | right; exact Hp].
    now apply (in_drop_all dropped).
  - intros Hb. destruct (Hsome Hb) as (p & Hp & Ha & Hu).
    exists p. split; [|now rewrite Ha, Hu].
    apply in_or_app. destruct Hp as [Hp|[Hp Hn]]; [now right | left].
    now apply in_drop_all_kept.
Qed.

(** *** Categories and products *)

(** A policy of the repository on the catalogue either lets everybody read
    or lets an admin do everything. *)
Lemma catalogue_policy_kinds d uid r p :
  key_holds "id" (d "profiles") ->
  In p repository_products_policies \/ In p repository_categories_policies ->
  (pol_cmd p = SELECT /\ using_passes d uid r p = true)
  \/ (pol_cmd p = ALL /\ using_passes d uid r p = is_admin d uid
      /\ check_passes d uid r p = is_admin d uid).
Proof.
  intros Hk [Hp|Hp]; simpl in Hp;
    repeat (destruct Hp as [<-|Hp];
            [ first [ left; split; reflexivity
                    | right; split; [reflexivity|];
                      unfold check_passes, using_passes;
                      cbn -[exists_admin_profile uid_in_admin_ids role_of_uid_is_admin];
                      rewrite ?exists_admin_profile_is_admin, ?uid_in_admin_ids_is_admin,
                        ?(role_of_uid_is_admin_is_admin d uid r Hk);
                      split; reflexivity ] |]);
    contradiction.
Qed.

Lemma catalogue_is_read_by_all s0 s t uid r :
  run Migration_20250120120009.script s0 = Ok s ->
  t = "products" \/ t = "categories" ->
  row_visible s uid SELECT t r = true.
Proof.
  intros Hrun [-> | ->].
  - eapply visible_after; [exact Hrun | reflexivity | auto |].
    intros _. exists Migration_20250120120009.public_can_view_all_products.
    split; [left; simpl; tauto | split; reflexivity].
  - eapply visible_after; [exact Hrun | reflexivity | auto |].
    intros _. exists Migration_20250120120009.public_can_view_all_categories.
    split; [left; simpl; tauto | split; reflexivity].
Qed.

Section Catalogue.

Variables (s0 s : store) (t : string).

Hypothesis ran : run Migration_20250120120009.script s0 = Ok s.
Hypothesis catalogue_table :
  (t = "products" /\ incl (policies_of s0 "products") repository_products_policies)
  \/ (t = "categories" /\ incl (policies_of s0 "categories") repository_categories_policies).
Hypothesis profiles_key : key_holds "id" (rows_of s "profiles").

Lemma catalogue_plan :
  exists dropped created,
    lookup t policy_script_plan = Some (dropped, created)
    /\ (forall p, In p (policies_of s0 t) \/ In p created ->
                  In p repository_products_policies \/ In p repository_categories_policies)
    /\ exists p, In p created /\ pol_cmd p = ALL
                 /\ pol_using p = Some exists_admin_profile
                 /\ pol_check p = Some exists_admin_profile.
Proof.
  destruct catalogue_table as [[-> Hincl]|[-> Hincl]]; do 2 eexists;
    (split; [reflexivity|]); split.
  - intros p [Hp|Hp]; left; [now apply Hincl|].
    simpl in Hp. unfold repository_products_policies. simpl. tauto.
  - exists Migration_20250120120009.admins_can_manage_products. simpl. tauto.
  - intros p [Hp|Hp]; right; [now apply Hincl|].
    simpl in Hp. unfold repository_categories_policies. simpl. tauto.
  - exists Migration_20250120120009.admins_can_manage_categories. simpl. tauto.
Qed.

Lemma catalogue_reached_by_admin cmd uid r :
  cmd <> SELECT ->
  row_visible s uid cmd t r = is_admin (db_of s) uid.
Proof.
  intros Hcmd. destruct catalogue_plan as (dropped & created & L & Hrepo & pa & Hpa & Hc & Hu & _).
  apply (visible_after s0 s t dropped created); auto.
  - intros p Hp Ha Hpass.
    destruct (catalogue_policy_kinds (db_of s) uid r p profiles_key (Hrepo p Hp))
      as [[Hsel _]|(_ & E & _)].
    + unfold applies in Ha. rewrite Hsel in Ha. destruct cmd; try discriminate. contradiction.
    + now rewrite <- E.
  - intros Hadm. exists pa. split; [left; exact Hpa|]. split.
    + unfold applies. now rewrite Hc.
    + unfold using_passes. rewrite Hu. now rewrite exists_admin_profile_is_admin.
Qed.

Lemma catalogue_admits_from_admin cmd uid r :
  cmd <> SELECT ->
  row_admissible s uid cmd t r = is_admin (db_of s) uid.
Proof.
  intros Hcmd. destruct catalogue_plan as (dropped & created & L & Hrepo & pa & Hpa & Hc & _ & Hu).
  apply (admissible_after s0 s t dropped created); auto.
  - intros p Hp Ha Hpass.
    destruct (catalogue_policy_kinds (db_of s) uid r p profiles_key (Hrepo p Hp))
      as [[Hsel _]|(_ & _ & E)].
    + unfold applies in Ha. rewrite Hsel in Ha. destruct cmd; try discriminate. contradiction.
    + now rewrite <- E.
  - intros Hadm. exists pa. split; [left; exact Hpa|]. split.
    + unfold applies. now rewrite Hc.
    + unfold check_passes. rewrite Hu. now rewrite exists_admin_profile_is_admin.
Qed.


End Catalogue.

Lemma shop_products_policies_before :
  incl (policies_of shop_before_policies "products") repository_products_policies.
Proof.
  assert (E : policies_of shop_before_policies "products" =
              [ Part_001_comprehensive_fix.products_are_viewable_by_everyone;
                Part_001_comprehensive_fix.admins_can_manage_products ]) by reflexivity.
  rewrite E. intros p Hp. unfold repository_products_policies. simpl in Hp |- *. tauto.
Qed.


(** *** Orders *)

Lemma orders_policy_kinds d uid O p :
  key_holds "id" (d "profiles") ->
  In p repository_orders_policies ->
  (pol_cmd p = SELECT /\ using_passes d uid O p = owns uid "user_id" O)
  \/ (pol_cmd p = INSERT /\ check_passes d uid O p = owns uid "user_id" O)
  \/ (pol_cmd p = ALL /\ using_passes d uid O p = is_admin d uid
      /\ check_passes d uid O p = is_admin d uid)
  \/ p = Initial_schema.users_can_manage_their_own_orders.
Proof.
  intros Hk Hp. unfold repository_orders_policies in Hp. simpl in Hp.
  repeat (destruct Hp as [<-|Hp];
          [ first [ left; split; reflexivity
                  | right; left; split; reflexivity
                  | right; right; right; reflexivity
                  | right; right; left; split; [reflexivity|];
                    unfold check_passes, using_passes;
                    cbn -[exists_admin_profile uid_in_admin_ids role_of_uid_is_admin];
                    rewrite ?exists_admin_profile_is_admin, ?uid_in_admin_ids_is_admin,
                      ?(role_of_uid_is_admin_is_admin d uid O Hk);
                    split; reflexivity ] |]);
  contradiction.
Qed.

Lemma named_in n (l : list policy) :
  has_policy n l = true -> exists p, In p l /\ pol_name p = n.
Proof.
  unfold has_policy, has_name. intros H. apply existsb_exists in H.
  destruct H as (p & Hp & E). apply String.eqb_eq in E. eauto.
Qed.

Lemma has_policy_in p l : In p l -> has_policy (pol_name p) l = true.
Proof.
  intros H. unfold has_policy. apply existsb_exists. exists p. split; [exact H|].
  unfold has_name. apply String.eqb_refl.
Qed.

Section Orders_after.

Variables (s0 s : store).

Hypothesis ran : run Migration_20250120120009.script s0 = Ok s.
Hypothesis earlier : incl (policies_of s0 "orders") repository_orders_policies.
Hypothesis profiles_key : key_holds "id" (rows_of s "profiles").

(** Did the database once run the "Initial Schema" script, whose policy
    "Users can manage their own orders." no later script drops? *)
Let manage : bool := has_policy "Users can manage their own orders." (policies_of s0 "orders").

Let dropped : list string :=
  [ "Users can view their own orders."; "Users can create new orders.";
    "Admins can manage all orders." ].

Let created : list policy :=
  [ Migration_20250120120009.users_can_view_their_own_orders;
    Migration_20250120120009.users_can_create_new_orders;
    Migration_20250120120009.admins_can_manage_all_orders ].

Lemma orders_plan : lookup "orders" policy_script_plan = Some (dropped, created).
Proof. reflexivity. Qed.

Lemma orders_policy_known p :
  In p (policies_of s0 "orders") \/ In p created -> In p repository_orders_policies.
Proof.
  intros [Hp|Hp]; [now apply earlier|].
  unfold repository_orders_policies. simpl in Hp |- *. tauto.
Qed.

Lemma manage_policy_is_earlier :
  In Initial_schema.users_can_manage_their_own_orders (policies_of s0 "orders") \/
  In Initial_schema.users_can_manage_their_own_orders created ->
  manage = true.
Proof.
  intros [H|H].
  - apply (has_policy_in _ _ H).
  - simpl in H. repeat (destruct H as [H|H]; [discriminate H|]). contradiction.
Qed.

Lemma manage_policy_found :
  manage = true ->
  In Initial_schema.users_can_manage_their_own_orders (policies_of s0 "orders").
Proof.
  intros H. destruct (named_in _ _ H) as (p & Hp & Hn).
  pose proof (earlier p Hp) as Hr. unfold repository_orders_policies in Hr. simpl in Hr.
  repeat (destruct Hr as [<-|Hr]; [first [exact Hp | discriminate Hn]|]). contradiction.
Qed.

Lemma orders_inserted uid O :
  row_admissible s uid INSERT "orders" O = owns uid "user_id" O || is_admin (db_of s) uid.
Proof.
  apply (admissible_after s0 s "orders" dropped created); [exact ran | exact orders_plan | |].
  - intros p Hp Ha Hc.
    destruct (orders_policy_kinds (db_of s) uid O p profiles_key (orders_policy_known p Hp))
      as [[E _]|[[_ E]|[(_ & _ & E)| ->]]].
    + unfold applies in Ha. rewrite E in Ha. discriminate.
    + rewrite <- E, Hc. reflexivity.
    + rewrite <- E, Hc. apply orb_true_r.
    + change (owns uid "user_id" O = true) in Hc. now rewrite Hc.
  - intros H. apply orb_true_iff in H. destruct H as [H|H].
    + exists Migration_20250120120009.users_can_create_new_orders.
      split; [left; simpl; tauto|]. split; [reflexivity | exact H].
    + exists Migration_20250120120009.admins_can_manage_all_orders.
      split; [left; simpl; tauto|]. split; [reflexivity|].
      unfold check_passes, using_passes. cbn -[exists_admin_profile].
      now rewrite exists_admin_profile_is_admin.
Qed.

Lemma orders_changed_using cmd uid O :
  cmd = UPDATE \/ cmd = DELETE ->
  row_visible s uid cmd "orders" O
  = is_admin (db_of s) uid || (manage && owns uid "user_id" O).
Proof.
  intros Hcmd.
  apply (visible_after s0 s "orders" dropped created); [exact ran | exact orders_plan | |].
  - intros p Hp Ha Hc.
    destruct (orders_policy_kinds (db_of s) uid O p profiles_key (orders_policy_known p Hp))
      as [[E _]|[[E _]|[(_ & E & _)| ->]]].
    + unfold applies in Ha. rewrite E in Ha. destruct Hcmd as [-> | ->]; discriminate.
    + unfold applies in Ha. rewrite E in Ha. destruct Hcmd as [-> | ->]; discriminate.
    + rewrite <- E, Hc. reflexivity.
    + rewrite (manage_policy_is_earlier Hp).
      change (owns uid "user_id" O = true) in Hc. rewrite Hc. apply orb_true_r.
  - intros H. apply orb_true_iff in H. destruct H as [H|H].
    + exists Migration_20250120120009.admins_can_manage_all_orders.
      split; [left; simpl; tauto|]. split; [reflexivity|].
      unfold using_passes. cbn -[exists_admin_profile].
      now rewrite exists_admin_profile_is_admin.
    + apply andb_true_iff in H. destruct H as [Hm Ho].
      exists Initial_schema.users_can_manage_their_own_orders. split; [right; split|].
      * now apply manage_policy_found.
      * simpl. intros [E|[E|[E|[]]]]; discriminate E.
      * split; [reflexivity | exact Ho].
Qed.

Lemma orders_changed_check uid O :
  row_admissible s uid UPDATE "orders" O
  = is_admin (db_of s) uid || (manage && owns uid "user_id" O).
Proof.
  apply (admissible_after s0 s "orders" dropped created); [exact ran | exact orders_plan | |].
  - intros p Hp Ha Hc.
    destruct (orders_policy_kinds (db_of s) uid O p profiles_key (orders_policy_known p Hp))
      as [[E _]|[[E _]|[(_ & _ & E)| ->]]].
    + unfold applies in Ha. rewrite E in Ha. discriminate.
    + unfold applies in Ha. rewrite E in Ha. discriminate.
    + rewrite <- E, Hc. reflexivity.
    + rewrite (manage_policy_is_earlier Hp).
      change (owns uid "user_id" O = true) in Hc. rewrite Hc. apply orb_true_r.
  - intros H. apply orb_true_iff in H. destruct H as [H|H].
    + exists Migration_20250120120009.admins_can_manage_all_orders.
      split; [left; simpl; tauto|]. split; [reflexivity|].
      unfold check_passes, using_passes. cbn -[exists_admin_profile].
      now rewrite exists_admin_profile_is_admin.
    + apply andb_true_iff in H. destruct H as [Hm Ho].
      exists Initial_schema.users_can_manage_their_own_orders. split; [right; split|].
      * now apply manage_policy_found.
      * simpl. intros [E|[E|[E|[]]]]; discriminate E.
      * split; [reflexivity | exact Ho].
Qed.


End Orders_after.


(** *** Order items *)

Section Order_items_after.

Variables (s0 s : store) (I O : row).

Hypothesis ran : run Migration_20250120120009.script s0 = Ok s.
Hypothesis earlier : incl (policies_of s0 "order_items") repository_order_items_policies.
Hypothesis profiles_key : key_holds "id" (rows_of s "profiles").
Hypothesis orders_key : key_holds "id" (rows_of s "orders").
Hypothesis O_in : In O (rows_of s "orders").
Hypothesis belongs : col I "order_id" = col O "id".
Hypothesis O_id : col O "id" <> VNull.

Let manage : bool :=
  has_policy "Users can manage their own order items." (policies_of s0 "order_items").

Let dropped : list string :=
  [ "Users can view their own order items."; "Users can create new order items.";
    "Admins can manage all order items." ].

Let created : list policy :=
  [ Migration_20250120120009.users_can_view_their_own_order_items;
    Migration_20250120120009.users_can_create_new_order_items;
    Migration_20250120120009.admins_can_manage_all_order_items ].

Lemma order_items_policy_kinds uid p :
  In p (policies_of s0 "order_items") \/ In p created ->
  (pol_cmd p = SELECT /\ using_passes (db_of s) uid I p = owns uid "user_id" O)
  \/ (pol_cmd p = INSERT /\ check_passes (db_of s) uid I p = owns uid "user_id" O)
  \/ (pol_cmd p = ALL /\ using_passes (db_of s) uid I p = is_admin (db_of s) uid
      /\ check_passes (db_of s) uid I p = is_admin (db_of s) uid)
  \/ (p = Initial_schema.users_can_manage_their_own_order_items
      /\ using_passes (db_of s) uid I p = owns uid "user_id" O
      /\ check_passes (db_of s) uid I p = owns uid "user_id" O).
Proof.
  intros Hp.
  assert (Hr : In p repository_order_items_policies).
  { destruct Hp as [Hp|Hp]; [now apply earlier|].
    unfold repository_order_items_policies. simpl in Hp |- *. tauto. }
  clear Hp. unfold repository_order_items_policies in Hr. simpl in Hr. unfold owns.
  rewrite (holds_sql_eq_sym uid (col O "user_id")).
  repeat (destruct Hr as [<-|Hr];
          [ unfold check_passes, using_passes;
            cbn -[sql_eq exists_admin_profile uid_in_admin_ids role_of_uid_is_admin
                  exists_own_parent_order parent_order_owner_equals_uid
                  uid_equals_parent_order_owner];
            rewrite ?exists_admin_profile_is_admin, ?uid_in_admin_ids_is_admin,
              ?(role_of_uid_is_admin_is_admin (db_of s) uid I profiles_key),
              ?(exists_own_parent_order_owner (db_of s) I O orders_key O_in belongs O_id),
              ?(parent_order_owner_equals_uid_owner (db_of s) I O orders_key O_in belongs O_id),
              ?(uid_equals_parent_order_owner_owner (db_of s) I O orders_key O_in belongs O_id);
            tauto |]).
  contradiction.
Qed.

Lemma manage_items_policy_is_earlier :
  In Initial_schema.users_can_manage_their_own_order_items (policies_of s0 "order_items") \/
  In Initial_schema.users_can_manage_their_own_order_items created ->
  manage = true.
Proof.
  intros [H|H].
  - apply (has_policy_in _ _ H).
  - simpl in H. repeat (destruct H as [H|H]; [discriminate H|]). contradiction.
Qed.

Lemma manage_items_policy_found :
  manage = true ->
  In Initial_schema.users_can_manage_their_own_order_items (policies_of s0 "order_items").
Proof.
  intros H. destruct (named_in _ _ H) as (p & Hp & Hn).
  pose proof (earlier p Hp) as Hr. unfold repository_order_items_policies in Hr. simpl in Hr.
  repeat (destruct Hr as [<-|Hr]; [first [exact Hp | discriminate Hn]|]). contradiction.
Qed.

Lemma order_items_inserted uid :
  row_admissible s uid INSERT "order_items" I
  = owns uid "user_id" O || is_admin (db_of s) uid.
Proof.
  apply (admissible_after s0 s "order_items" dropped created); [exact ran | reflexivity | |].
  - intros p Hp Ha Hc.
    destruct (order_items_policy_kinds uid p Hp) as [[E _]|[[_ E]|[(_ & _ & E)|(_ & _ & E)]]].
    + unfold applies in Ha. rewrite E in Ha. discriminate.
    + rewrite <- E, Hc. reflexivity.
    + rewrite <- E, Hc. apply orb_true_r.
    + rewrite <- E, Hc. reflexivity.
  - intros H. apply orb_true_iff in H. destruct H as [H|H].
    + exists Migration_20250120120009.users_can_create_new_order_items.
      split; [left; simpl; tauto|]. split; [reflexivity|].
      destruct (order_items_policy_kinds uid
                  Migration_20250120120009.users_can_create_new_order_items)
        as [[E _]|[[_ E]|[(E & _)|(E & _)]]];
        [right; simpl; tauto | discriminate E | now rewrite E | discriminate E | discriminate E].
    + exists Migration_20250120120009.admins_can_manage_all_order_items.
      split; [left; simpl; tauto|]. split; [reflexivity|].
      unfold check_passes, using_passes. cbn -[exists_admin_profile].
      now rewrite exists_admin_profile_is_admin.
Qed.

Lemma order_items_deleted uid :
  row_visible s uid DELETE "order_items" I
  = is_admin (db_of s) uid || (manage && owns uid "user_id" O).
Proof.
  apply (visible_after s0 s "order_items" dropped created); [exact ran | reflexivity | |].
  - intros p Hp Ha Hc.
    destruct (order_items_policy_kinds uid p Hp) as [[E _]|[[E _]|[(_ & E & _)|(-> & E & _)]]].
    + unfold applies in Ha. rewrite E in Ha. discriminate.
    + unfold applies in Ha. rewrite E in Ha. discriminate.
    + rewrite <- E, Hc. reflexivity.
    + rewrite (manage_items_policy_is_earlier Hp), <- E, Hc. apply orb_true_r.
  - intros H. apply orb_true_iff in H. destruct H as [H|H].
    + exists Migration_20250120120009.admins_can_manage_all_order_items.
      split; [left; simpl; tauto|]. split; [reflexivity|].
      unfold using_passes. cbn -[exists_admin_profile].
      now rewrite exists_admin_profile_is_admin.
    + apply andb_true_iff in H. destruct H as [Hm Ho].
      pose proof (manage_items_policy_found Hm) as Hin.
      exists Initial_schema.users_can_manage_their_own_order_items. split; [right; split|].
      * exact Hin.
      * simpl. intros [E|[E|[E|[]]]]; discriminate E.
      * split; [reflexivity|].
        unfold using_passes. cbn -[parent_order_owner_equals_uid sql_eq].
        rewrite (parent_order_owner_equals_uid_owner (db_of s) I O orders_key O_in belongs O_id).
        rewrite holds_sql_eq_sym. exact Ho.
Qed.


End Order_items_after.

Lemma shop_customers_order_in : In customers_order (rows_of shop "orders").
Proof. vm_compute. tauto. Qed.

Lemma shop_customers_order_id : col customers_order "id" <> VNull.
Proof. discriminate. Qed.


(** *** Reviews *)

Lemma drop_all_everything names l :
  (forall p, In p l -> In (pol_name p) names) -> drop_all names l = [].
Proof.
  intros H. destruct (drop_all names l) as [|p l'] eqn:E; [reflexivity|].
  assert (Hp : In p (drop_all names l)) by (rewrite E; now left).
  pose proof (has_policy_in _ _ Hp) as Hh.
  rewrite (has_policy_drop_all (pol_name p) names l) in Hh; [discriminate|].
  apply H. now apply (in_drop_all names).
Qed.


Lemma shop_has_no_review_policies p :
  In p (policies_of shop_before_policies "reviews") ->
  In (pol_name p) (dropped_by_policy_script "reviews").
Proof.
  assert (E : policies_of shop_before_policies "reviews" = []) by reflexivity.
  rewrite E. contradiction.
Qed.


(** *** Profiles *)

Lemma later_profiles_policy_kinds d uid R p :
  In p later_profiles_policies ->
  pol_cmd p = SELECT
  \/ (pol_cmd p = INSERT /\ check_passes d uid R p = owns uid "id" R)
  \/ (pol_cmd p = UPDATE /\ using_passes d uid R p = owns uid "id" R
      /\ check_passes d uid R p = owns uid "id" R).
Proof.
  intros Hp. unfold later_profiles_policies in Hp. simpl in Hp.
  repeat (destruct Hp as [<-|Hp];
          [ first [ left; reflexivity
                  | right; left; split; reflexivity
                  | right; right; split; [reflexivity|]; split; reflexivity ] |]).
  contradiction.
Qed.

Section Profiles_after.

Variables (s0 s : store).

Hypothesis ran : run Migration_20250120120009.script s0 = Ok s.
Hypothesis earlier : incl (policies_of s0 "profiles") later_profiles_policies.

Let dropped : list string :=
  [ "Users can view their own profile."; "Users can update their own profile." ].

Let created : list policy :=
  [ Migration_20250120120009.users_can_view_their_own_profile;
    Migration_20250120120009.users_can_update_their_own_profile ].

Lemma profiles_policy_known p :
  In p (policies_of s0 "profiles") \/ In p created -> In p later_profiles_policies.
Proof.
  intros [Hp|Hp]; [now apply earlier|].
  unfold later_profiles_policies. simpl in Hp |- *. tauto.
Qed.

Lemma profiles_never_deleted uid R : row_visible s uid DELETE "profiles" R = false.
Proof.
  apply (visible_after s0 s "profiles" dropped created); [exact ran | reflexivity | | discriminate].
  intros p Hp Ha _.
  destruct (later_profiles_policy_kinds (db_of s) uid R p (profiles_policy_known p Hp))
    as [E|[[E _]|[E _]]]; unfold applies in Ha; rewrite E in Ha; discriminate.
Qed.

Lemma profiles_updated_using uid R :
  row_visible s uid UPDATE "profiles" R = owns uid "id" R.
Proof.
  apply (visible_after s0 s "profiles" dropped created); [exact ran | reflexivity | |].
  - intros p Hp Ha Hc.
    destruct (later_profiles_policy_kinds (db_of s) uid R p (profiles_policy_known p Hp))
      as [E|[[E _]|(_ & E & _)]].
    + unfold applies in Ha. rewrite E in Ha. discriminate.
    + unfold applies in Ha. rewrite E in Ha. discriminate.
    + now rewrite <- E.
  - intros H. exists Migration_20250120120009.users_can_update_their_own_profile.
    split; [left; simpl; tauto|]. split; [reflexivity | exact H].
Qed.

Lemma profiles_updated_check uid R :
  row_admissible s uid UPDATE "profiles" R = owns uid "id" R.
Proof.
  apply (admissible_after s0 s "profiles" dropped created); [exact ran | reflexivity | |].
  - intros p Hp Ha Hc.
    destruct (later_profiles_policy_kinds (db_of s) uid R p (profiles_policy_known p Hp))
      as [E|[[E _]|(_ & _ & E)]].
    + unfold applies in Ha. rewrite E in Ha. discriminate.
    + unfold applies in Ha. rewrite E in Ha. discriminate.
    + now rewrite <- E.
  - intros H. exists Migration_20250120120009.users_can_update_their_own_profile.
    split; [left; simpl; tauto|]. split; [reflexivity | exact H].
Qed.

Lemma own_profile_is_seen uid R :
  owns uid "id" R = true -> row_visible s uid SELECT "profiles" R = true.
Proof.
  intros H.
  apply (visible_after s0 s "profiles" dropped created); [exact ran | reflexivity | auto |].
  intros _. exists Migration_20250120120009.users_can_view_their_own_profile.
  split; [left; simpl; tauto|]. split; [reflexivity | exact H].
Qed.

Lemma profiles_inserted uid R :
  row_admissible s uid INSERT "profiles" R = true -> owns uid "id" R = true.
Proof.
  intros H.
  destruct (secured_policies s0 s "profiles" dropped created ran eq_refl)
    as (tb0 & tb & H0 & H1 & Hrls & _ & Hpol).
  unfold row_admissible in H. rewrite H1, Hrls, Hpol in H.
  apply existsb_exists in H. destruct H as (p & Hp & Hf).
  apply andb_true_iff in Hf. destruct Hf as [Ha Hc].
  assert (Hk : In p later_profiles_policies).
  { apply profiles_policy_known. unfold policies_of. rewrite H0.
    apply in_app_or in Hp. destruct Hp as [Hp|Hp]; [left | right; exact Hp].
    now apply (in_drop_all dropped). }
  destruct (later_profiles_policy_kinds (db_of s) uid R p Hk) as [E|[[_ E]|[E _]]].
  - unfold applies in Ha. rewrite E in Ha. discriminate.
  - now rewrite <- E.
  - unfold applies in Ha. rewrite E in Ha. discriminate.
Qed.

(** Once the policy script 20250120120009 has run on a database whose
    earlier policies on profiles come from the scripts 20250120120002,
    20250120120006, 20250120120007 or the comprehensive fix: no caller, admin
    or not, deletes a profile; a caller updates a profile exactly when it is
    the caller's own before and after the update; and a caller inserts no
    profile but one with the caller's own id. *)
Theorem profiles_changed_by_their_owner_only (uid : value) (R R' : row) :
  can_delete s uid "profiles" R = false
  /\ can_update s uid "profiles" R R' = owns uid "id" R && owns uid "id" R'
  /\ (can_insert s uid "profiles" R = true -> owns uid "id" R = true).
Proof.
  unfold can_delete, can_update, can_insert.
  rewrite profiles_never_deleted, profiles_updated_using, profiles_updated_check.
  split; [apply andb_false_r|]. split; [|apply profiles_inserted].
  destruct (owns uid "id" R) eqn:E; [|now rewrite andb_false_r].
  now rewrite (own_profile_is_seen uid R E).
Qed.

End Profiles_after.

Lemma shop_profiles_policies_before :
  incl (policies_of shop_before_policies "profiles") later_profiles_policies.
Proof.
  assert (E : policies_of shop_before_policies "profiles" =
              [ Part_001_comprehensive_fix.public_profiles_are_viewable_by_everyone;
                Part_001_comprehensive_fix.users_can_insert_their_own_profile;
                Part_001_comprehensive_fix.users_can_update_their_own_profile ]) by reflexivity.
  rewrite E. intros p Hp. unfold later_profiles_policies. simpl in Hp |- *. tauto.
Qed.

Lemma profiles_changed_by_their_owner_only_witness :
  can_delete shop (VUuid 1) "profiles" customer = false
  /\ can_update shop (VUuid 1) "profiles" customer customer
     = owns (VUuid 1) "id" customer && owns (VUuid 1) "id" customer
  /\ (can_insert shop (VUuid 1) "profiles" customer = true ->
      owns (VUuid 1) "id" customer = true).
Proof.
  exact (profiles_changed_by_their_owner_only shop_before_policies shop
           shop_ran_policy_script shop_profiles_policies_before (VUuid 1) customer customer).
Defined.

(** *** Callers that are not signed in *)

Lemma anonymous_is_no_admin d : is_admin d VNull = false.
Proof.
  unfold is_admin. apply existsb_none. intros p _.
  now destruct (col p "id").
Qed.

Lemma filter_by_null_key (c : string) (rs : list row) :
  filter (fun r => holds (sql_eq (col r c) VNull)) rs = [].
Proof.
  apply filter_nothing. apply existsb_none. intros r _. now destruct (col r c).
Qed.

Lemma holds_sql_eq_null a : holds (sql_eq a VNull) = false.
Proof. now destruct a. Qed.

Lemma anonymous_fails_role_of_uid d r : holds (role_of_uid_is_admin d VNull r) = false.
Proof.
  unfold role_of_uid_is_admin, scalar_subquery, select_where.
  now rewrite filter_by_null_key.
Qed.

Lemma anonymous_fails_own_parent_order d r : holds (exists_own_parent_order d VNull r) = false.
Proof.
  unfold exists_own_parent_order, sql_exists. rewrite holds_some.
  apply existsb_none. intros o _. rewrite holds_sql_and, holds_sql_eq_null. apply andb_false_r.
Qed.

Lemma anonymous_fails_parent_order_owner d r :
  holds (parent_order_owner_equals_uid d VNull r) = false.
Proof. unfold parent_order_owner_equals_uid. apply holds_sql_eq_null. Qed.

(** Without an identity, no policy of the repository on orders or on order
    items passes. *)
Lemma anonymous_passes_no_order_policy d r p :
  In p repository_orders_policies \/ In p repository_order_items_policies ->
  using_passes d VNull r p = false /\ check_passes d VNull r p = false.
Proof.
  intros [Hp|Hp]; simpl in Hp;
    repeat (destruct Hp as [<-|Hp];
            [ unfold check_passes, using_passes;
              cbn -[exists_admin_profile uid_in_admin_ids role_of_uid_is_admin
                    exists_own_parent_order parent_order_owner_equals_uid];
              rewrite ?exists_admin_profile_is_admin, ?uid_in_admin_ids_is_admin,
                ?anonymous_is_no_admin, ?anonymous_fails_role_of_uid,
                ?anonymous_fails_own_parent_order, ?anonymous_fails_parent_order_owner;
              split; reflexivity |]);
    contradiction.
Qed.

(** Without an identity, a policy of the repository on the catalogue passes
    only if it is for SELECT. *)
Lemma anonymous_passes_select_only d r p :
  In p repository_products_policies \/ In p repository_categories_policies ->
  pol_cmd p = SELECT
  \/ (using_passes d VNull r p = false /\ check_passes d VNull r p = false).
Proof.
  intros [Hp|Hp]; simpl in Hp;
    repeat (destruct Hp as [<-|Hp];
            [ first [ left; reflexivity
                    | right; unfold check_passes, using_passes;
                      cbn -[exists_admin_profile uid_in_admin_ids role_of_uid_is_admin];
                      rewrite ?exists_admin_profile_is_admin, ?uid_in_admin_ids_is_admin,
                        ?anonymous_is_no_admin, ?anonymous_fails_role_of_uid;
                      split; reflexivity ] |]);
    contradiction.
Qed.

Section Anonymous.

Variables (s0 s : store).

Hypothesis ran : run Migration_20250120120009.script s0 = Ok s.
Hypothesis earlier_products : incl (policies_of s0 "products") repository_products_policies.
Hypothesis earlier_categories :
  incl (policies_of s0 "categories") repository_categories_policies.
Hypothesis earlier_orders : incl (policies_of s0 "orders") repository_orders_policies.
Hypothesis earlier_order_items :
  incl (policies_of s0 "order_items") repository_order_items_policies.

Lemma shop_table_plan t :
  In t ["products"; "categories"; "orders"; "order_items"] ->
  exists dropped created,
    lookup t policy_script_plan = Some (dropped, created)
    /\ forall p, In p (policies_of s0 t) \/ In p created ->
         (In p repository_orders_policies \/ In p repository_order_items_policies)
         \/ ((In p repository_products_policies \/ In p repository_categories_policies)
             /\ (t = "products" \/ t = "categories")).
Proof.
  simpl. intros [<-|[<-|[<-|[<-|[]]]]]; do 2 eexists; (split; [reflexivity|]);
    intros p [Hp|Hp].
  - right. split; [left; now apply earlier_products | tauto].
  - right. split; [left | tauto]. unfold repository_products_policies. simpl in Hp |- *. tauto.
  - right. split; [right; now apply earlier_categories | tauto].
  - right. split; [right | tauto]. unfold repository_categories_policies. simpl in Hp |- *.
    tauto.
  - left. left. now apply earlier_orders.
  - left. left. unfold repository_orders_policies. simpl in Hp |- *. tauto.
  - left. right. now apply earlier_order_items.
  - left. right. unfold repository_order_items_policies. simpl in Hp |- *. tauto.
Qed.

Lemma anonymous_reach t cmd r :
  In t ["products"; "categories"; "orders"; "order_items"] ->
  cmd <> SELECT \/ t = "orders" \/ t = "order_items" ->
  row_visible s VNull cmd t r = false /\ row_admissible s VNull cmd t r = false.
Proof.
  intros Ht Hc. destruct (shop_table_plan t Ht) as (dropped & created & L & Hknown).
  assert (Hno : forall p, In p (policies_of s0 t) \/ In p created ->
                          applies cmd p = true ->
                          using_passes (db_of s) VNull r p = false
                          /\ check_passes (db_of s) VNull r p = false).
  { intros p Hp Ha. destruct (Hknown p Hp) as [Ho|[Hcat Htc]].
    - now apply anonymous_passes_no_order_policy.
    - destruct (anonymous_passes_select_only (db_of s) r p Hcat) as [E|E]; [|exact E].
      unfold applies in Ha. rewrite E in Ha.
      destruct Hc as [Hc|[-> | ->]].
      + destruct cmd; try discriminate. contradiction.
      + destruct Htc; discriminate.
      + destruct Htc; discriminate. }
  split.
  - apply (visible_after s0 s t dropped created); [exact ran | exact L | | discriminate].
    intros p Hp Ha Hu. destruct (Hno p Hp Ha) as [E _]. congruence.
  - apply (admissible_after s0 s t dropped created); [exact ran | exact L | | discriminate].
    intros p Hp Ha Hu. destruct (Hno p Hp Ha) as [_ E]. congruence.
Qed.


End Anonymous.

Lemma shop_categories_policies_before :
  incl (policies_of shop_before_policies "categories") repository_categories_policies.
Proof.
  assert (E : policies_of shop_before_policies "categories" =
              [ Part_001_comprehensive_fix.categories_are_viewable_by_everyone;
                Part_001_comprehensive_fix.admins_can_manage_categories ]) by reflexivity.
  rewrite E. intros p Hp. unfold repository_categories_policies. simpl in Hp |- *. tauto.
Qed.


(** ** main.js: the product grid *)

Import Product_grid.

Lemma math_round_not_negative q :
  QArith_base.Qle_bool (QArith_base.Qmake (-1) 2) q = (0 <=? math_round q)%Z.
Proof.
  destruct q as [a b]. unfold math_round, QArith_base.Qle_bool, QArith_base.Qplus, Qround.Qfloor.
  cbn [QArith_base.Qnum QArith_base.Qden].
  apply Bool.eq_iff_eq_true. rewrite !Z.leb_le. split; intros H.
  - apply Z.div_pos; lia.
  - destruct (Z_lt_le_dec (a * 2 + 1 * Z.pos b) 0) as [Hn|Hp]; [|lia].
    assert ((a * 2 + 1 * Z.pos b) / Z.pos (b * 2) < 0)%Z by (apply Z.div_lt_upper_bound; lia).
    lia.
Qed.

Lemma math_round_above_five q :
  QArith_base.Qle_bool (QArith_base.Qmake 11 2) q = (6 <=? math_round q)%Z.
Proof.
  destruct q as [a b]. unfold math_round, QArith_base.Qle_bool, QArith_base.Qplus, Qround.Qfloor.
  cbn [QArith_base.Qnum QArith_base.Qden].
  apply Bool.eq_iff_eq_true. rewrite !Z.leb_le. split; intros H.
  - apply Z.div_le_lower_bound; lia.
  - destruct (Z_lt_le_dec (a * 2) (11 * Z.pos b)) as [Hn|Hp]; [|lia].
    assert ((a * 2 + 1 * Z.pos b) / Z.pos (b * 2) < 6)%Z by (apply Z.div_lt_upper_bound; lia).
    lia.
Qed.

Lemma stars_by_rounding (p : product) :
  stars p
  = if rounds_to_a_star_count (rating_or_zero p)
    then Returned (List.repeat Filled (Z.to_nat (math_round (rating_or_zero p)))
                   ++ List.repeat Hollow (5 - Z.to_nat (math_round (rating_or_zero p))))
    else Thrown "RangeError".
Proof.
  unfold stars, repeat_string, rounds_to_a_star_count.
  rewrite math_round_not_negative, math_round_above_five.
  set (n := math_round (rating_or_zero p)).
  destruct (n <? 0)%Z eqn:E0.
  - apply Z.ltb_lt in E0. replace (0 <=? n)%Z with false by (symmetry; apply Z.leb_gt; lia).
    reflexivity.
  - apply Z.ltb_ge in E0. replace (0 <=? n)%Z with true by (symmetry; apply Z.leb_le; lia).
    destruct (5 - n <? 0)%Z eqn:E5.
    + apply Z.ltb_lt in E5. replace (6 <=? n)%Z with true by (symmetry; apply Z.leb_le; lia).
      reflexivity.
    + apply Z.ltb_ge in E5. replace (6 <=? n)%Z with false by (symmetry; apply Z.leb_gt; lia).
      cbn [andb negb]. do 3 f_equal. lia.
Qed.

Lemma star_count_in_range q :
  rounds_to_a_star_count q = true -> (0 <= math_round q <= 5)%Z.
Proof.
  unfold rounds_to_a_star_count. rewrite math_round_not_negative, math_round_above_five.
  intros H. apply andb_true_iff in H. destruct H as [H0 H6].
  apply Z.leb_le in H0. apply negb_true_iff in H6. apply Z.leb_gt in H6. lia.
Qed.

(** The row of stars is made exactly when the rating, null counting as 0,
    rounds to a number from 0 to 5, that is when -1/2 <= rating < 11/2: it
    then has five stars, as many filled ones as the rating rounds to.  Any
    other rating, 5.5 and more or less than -0.5, makes the expression throw
    a RangeError. *)
Theorem five_stars_or_a_range_error (p : product) :
  stars p
  = (if rounds_to_a_star_count (rating_or_zero p)
     then Returned (List.repeat Filled (Z.to_nat (math_round (rating_or_zero p)))
                    ++ List.repeat Hollow (5 - Z.to_nat (math_round (rating_or_zero p))))
     else Thrown "RangeError")
  /\ (forall row, stars p = Returned row -> List.length row = 5)
  /\ (rounds_to_a_star_count (rating_or_zero p) = true
      <-> QArith_base.Qle (QArith_base.Qmake (-1) 2) (rating_or_zero p)
          /\ QArith_base.Qlt (rating_or_zero p) (QArith_base.Qmake 11 2)).
Proof.
  split; [apply stars_by_rounding|]. split.
  - intros row Hrow. rewrite stars_by_rounding in Hrow.
    destruct (rounds_to_a_star_count (rating_or_zero p)) eqn:E; [|discriminate].
    apply star_count_in_range in E.
    assert (Hrow' : List.repeat Filled (Z.to_nat (math_round (rating_or_zero p)))
                    ++ List.repeat Hollow (5 - Z.to_nat (math_round (rating_or_zero p)))
                    = row) by congruence.
    rewrite <- Hrow', length_app, !repeat_length. lia.
  - unfold rounds_to_a_star_count. rewrite andb_true_iff, negb_true_iff.
    rewrite QArith_base.Qle_bool_iff.
    split; intros [H1 H2]; split; try assumption.
    + apply QArith_base.Qnot_le_lt. intros H. apply QArith_base.Qle_bool_iff in H. congruence.
    + destruct (QArith_base.Qle_bool (QArith_base.Qmake 11 2) (rating_or_zero p)) eqn:E;
        [|reflexivity].
      apply QArith_base.Qle_bool_iff in E. exfalso. revert E. now apply QArith_base.Qlt_not_le.
Qed.

Lemma render_cards_all ps :
  forallb (fun p => rounds_to_a_star_count (rating_or_zero p)) ps = true ->
  exists cs, render_cards ps = Returned cs /\ List.length cs = List.length ps.
Proof.
  induction ps as [|p ps IH]; simpl; intros H; [eauto|].
  apply andb_true_iff in H. destruct H as [Hp Hps].
  destruct (IH Hps) as (cs & E & L). unfold render_card.
  rewrite stars_by_rounding, Hp, E.
  eexists. split; [reflexivity|]. simpl. now rewrite L.
Qed.

Lemma render_cards_some_out_of_range ps :
  forallb (fun p => rounds_to_a_star_count (rating_or_zero p)) ps = false ->
  render_cards ps = Thrown "RangeError".
Proof.
  induction ps as [|p ps IH]; simpl; intros H; [discriminate|].
  unfold render_card. rewrite stars_by_rounding.
  destruct (rounds_to_a_star_count (rating_or_zero p)); [|reflexivity].
  simpl in H. now rewrite (IH H).
Qed.

(** What the grid shows at the end of loadProducts: the message of the
    error when the query fails; the notice that nothing was found when it
    returns no product; one card per product when every rating rounds to
    0..5; and otherwise, with one rating of 5.5 or more (or below -0.5)
    among the products, the function ends on a RangeError and the grid
    stays at the loading notice, whatever the other products are. *)
Theorem grid_after_loading (argument : option string) (server : query -> response) :
  match server (query_for (match argument with Some f => f | None => "all" end)) with
  | Failure message => loadProducts argument server = (Gagal_memuat_produk message, None)
  | Data [] => loadProducts argument server = (Tidak_ada_produk_ditemukan, None)
  | Data products =>
      if forallb (fun p => rounds_to_a_star_count (rating_or_zero p)) products
      then exists cards, loadProducts argument server = (Cards cards, None)
                         /\ List.length cards = List.length products
      else loadProducts argument server = (Memuat_produk, Some "RangeError")
  end.
Proof.
  unfold loadProducts.
  destruct (server _) as [m|[|p ps]]; [reflexivity|reflexivity|].
  destruct (forallb _ (p :: ps)) eqn:E.
  - destruct (render_cards_all _ E) as (cs & R & L). rewrite R. eauto.
  - now rewrite (render_cards_some_out_of_range _ E).
Qed.

Lemma includes_itself s : includes s s = true.
Proof.
  assert (H : forall n h, starts_with n (n ++ h)%string = true).
  { induction n as [|a n IH]; intros h; simpl; [reflexivity|].
    now rewrite Ascii.eqb_refl, IH. }
  destruct s; simpl; [reflexivity|].
  rewrite Ascii.eqb_refl. simpl.
  specialize (H s EmptyString).
  assert (E : (s ++ EmptyString)%string = s) by (clear; induction s; simpl; congruence).
  rewrite E in H. now rewrite H.
Qed.

(** The badge and the button of a card read the stock differently.  The
    badge says Habis (sold out) whenever the stock is null, zero or
    negative; the button is disabled and says Stok Habis only when the stock
    is exactly 0.  So for a null or negative stock the card shows Habis
    beside an enabled button Tambah ke Keranjang, and a click on it
    announces that the product was added to the cart. *)
Theorem sold_out_badge_beside_live_button (p : product) :
  (stock_status p = Habis <-> (to_number (stock p) <= 0)%Z)
  /\ (disabled (cart_button p) = true <-> stock p = Some 0%Z)
  /\ (add_to_cart_click (cart_button p) = None <-> stock p = Some 0%Z)
  /\ (stock p <> Some 0%Z ->
      add_to_cart_click (cart_button p) = Some "Produk berhasil ditambahkan ke keranjang!").
Proof.
  assert (Z0 : stock_is_zero p = true <-> stock p = Some 0%Z).
  { unfold stock_is_zero. destruct (stock p) as [[| |]|]; split; congruence. }
  assert (C : add_to_cart_click (cart_button p)
              = if stock_is_zero p then None
                else Some "Produk berhasil ditambahkan ke keranjang!").
  { unfold add_to_cart_click, cart_button. cbn [classes text].
    destruct (stock_is_zero p); reflexivity. }
  split; [|split; [|split]].
  - unfold stock_status.
    destruct (5 <? to_number (stock p))%Z eqn:E5; [apply Z.ltb_lt in E5; split; [discriminate|lia]|].
    destruct (0 <? to_number (stock p))%Z eqn:E0.
    + apply Z.ltb_lt in E0. split; [discriminate|lia].
    + apply Z.ltb_ge in E0. split; [lia|reflexivity].
  - exact Z0.
  - rewrite C, <- Z0. destruct (stock_is_zero p); split; congruence.
  - intros H. rewrite C. destruct (stock_is_zero p) eqn:E; [|reflexivity].
    exfalso. apply H, Z0. reflexivity.
Qed.

Lemma sold_out_badge_beside_live_button_witness :
  let p := {| name := "Tas Tote Premium"; description := None;
              price := QArith_base.Qmake 180000 1; image_urls := None;
              stock := Some (-1)%Z; rating := None |} in
  stock_status p = Habis
  /\ add_to_cart_click (cart_button p) = Some "Produk berhasil ditambahkan ke keranjang!".
Proof.
  intros p. split.
  - apply (proj1 (sold_out_badge_beside_live_button p)). simpl. lia.
  - apply (proj2 (proj2 (proj2 (sold_out_badge_beside_live_button p)))). discriminate.
Defined.

(** ** main.js: the category filter *)

Lemma query_for_other f : f <> "all" -> query_for f = Products_of_category f.
Proof.
  intros H. unfold query_for. destruct (String.eqb f "all") eqn:E; [|reflexivity].
  now apply String.eqb_eq in E.
Qed.



(** ** main.js: the category buttons *)

Import Category_buttons.

Lemma contains_add t u l : contains t (add u l) = String.eqb t u || contains t l.
Proof.
  unfold add, contains. destruct (existsb (String.eqb u) l) eqn:E.
  - destruct (String.eqb t u) eqn:Etu; [|reflexivity].
    apply String.eqb_eq in Etu. subst t. now rewrite E.
  - rewrite existsb_app. simpl. rewrite orb_false_r. apply orb_comm.
Qed.

Lemma contains_remove t u l : contains t (remove u l) = negb (String.eqb t u) && contains t l.
Proof.
  unfold remove, contains. induction l as [|x l IH]; simpl.
  - now rewrite andb_false_r.
  - destruct (String.eqb x u) eqn:Exu; simpl.
    + rewrite IH. apply String.eqb_eq in Exu. subst x.
      destruct (String.eqb t u); reflexivity.
    + rewrite IH. destruct (String.eqb t x) eqn:Etx; simpl.
      * apply String.eqb_eq in Etx. subst x. rewrite Exu. reflexivity.
      * reflexivity.
Qed.

Lemma contains_plain t b :
  contains t (plain b)
  = String.eqb t "text-earth-600" || String.eqb t "bg-white"
    || negb (String.eqb t "text-white") && negb (String.eqb t "bg-natural-600") && contains t b.
Proof.
  unfold plain. rewrite !contains_add, !contains_remove.
  destruct (String.eqb t "text-earth-600"), (String.eqb t "bg-white"),
    (String.eqb t "text-white"), (String.eqb t "bg-natural-600"); reflexivity.
Qed.

Lemma contains_highlighted t b :
  contains t (highlighted b)
  = negb (String.eqb t "text-earth-600") && negb (String.eqb t "bg-white")
    && (String.eqb t "text-white" || String.eqb t "bg-natural-600" || contains t b).
Proof.
  unfold highlighted. rewrite !contains_remove, !contains_add.
  destruct (String.eqb t "text-earth-600"), (String.eqb t "bg-white"),
    (String.eqb t "text-white"), (String.eqb t "bg-natural-600"); reflexivity.
Qed.

Lemma nth_error_update_nth {A : Type} (f : A -> A) n l j :
  nth_error (update_nth n f l) j
  = if Nat.eqb j n then option_map f (nth_error l j) else nth_error l j.
Proof.
  revert l j. induction n as [|n IH]; intros [|a l] [|j]; simpl; try reflexivity.
  - now destruct (Nat.eqb j n).
  - apply IH.
Qed.

Lemma update_nth_length {A : Type} (f : A -> A) n l :
  List.length (update_nth n f l) = List.length l.
Proof.
  revert l. induction n as [|n IH]; intros [|a l]; simpl; try reflexivity.
  now rewrite IH.
Qed.

Lemma other_token t : ~ In t highlight_tokens ->
  String.eqb t "bg-natural-600" = false /\ String.eqb t "text-white" = false
  /\ String.eqb t "bg-white" = false /\ String.eqb t "text-earth-600" = false.
Proof.
  intros H. unfold highlight_tokens in H. simpl in H.
  repeat split; apply String.eqb_neq; intros E; apply H; subst t; tauto.
Qed.

(** After a click on the category button at position [target], exactly that
    button is highlighted: the button at position j carries bg-natural-600
    and text-white iff j = target, and bg-white and text-earth-600 iff
    j <> target, whatever the buttons carried before; every other class of
    every button is as it was, and no button is added or lost. *)
Theorem click_highlights_the_clicked_button_only (target : nat) (buttons : list class_list) :
  List.length (click target buttons) = List.length buttons
  /\ forall j b, nth_error buttons j = Some b ->
       exists b', nth_error (click target buttons) j = Some b'
                  /\ contains "bg-natural-600" b' = Nat.eqb j target
                  /\ contains "text-white" b' = Nat.eqb j target
                  /\ contains "bg-white" b' = negb (Nat.eqb j target)
                  /\ contains "text-earth-600" b' = negb (Nat.eqb j target)
                  /\ forall t, ~ In t highlight_tokens -> contains t b' = contains t b.
Proof.
  unfold click. split; [now rewrite update_nth_length, length_map|].
  intros j b Hb. rewrite nth_error_update_nth, nth_error_map, Hb. simpl.
  destruct (Nat.eqb j target).
  - eexists. split; [reflexivity|].
    rewrite !contains_highlighted, !contains_plain. simpl.
    repeat split.
    intros t Ht. rewrite contains_highlighted, contains_plain.
    destruct (other_token t Ht) as (E1 & E2 & E3 & E4). now rewrite E1, E2, E3, E4.
  - eexists. split; [reflexivity|].
    rewrite !contains_plain. simpl.
    repeat split.
    intros t Ht. rewrite contains_plain.
    destruct (other_token t Ht) as (E1 & E2 & E3 & E4). now rewrite E1, E2, E3, E4.
Qed.

Lemma click_highlights_the_clicked_button_only_witness :
  let semua := ["category-btn"; "px-6"; "bg-natural-600"; "text-white"] in
  let tas := ["category-btn"; "px-6"; "bg-white"; "text-earth-600"] in
  exists b', nth_error (click 1 [semua; tas]) 0 = Some b'
             /\ contains "bg-natural-600" b' = false
             /\ contains "bg-white" b' = true
             /\ contains "px-6" b' = true.
Proof.
  intros semua tas.
  destruct (proj2 (click_highlights_the_clicked_button_only 1 [semua; tas]) 0 semua eq_refl)
    as (b' & Hb' & H1 & _ & H3 & _ & Hrest).
  exists b'. split; [exact Hb'|]. split; [exact H1|]. split; [exact H3|].
  rewrite Hrest; [reflexivity|].
  unfold highlight_tokens. simpl. intros [H|[H|[H|[H|[]]]]]; discriminate.
Defined.

(** ** main.js: the WhatsApp link *)

Import Whatsapp.

Lemma all_characters_app f a b :
  all_characters f (a ++ b)%string = all_characters f a && all_characters f b.
Proof. induction a as [|x a IH]; simpl; [reflexivity|]. now rewrite IH, andb_assoc. Qed.

Lemma hex_digit_is_safe n : (n < 16)%N -> query_safe (hex_digit n) = true.
Proof.
  intros H.
  assert (E : In n [0; 1; 2; 3; 4; 5; 6; 7; 8; 9; 10; 11; 12; 13; 14; 15]%N).
  { simpl. lia. }
  simpl in E.
  repeat (destruct E as [E|E]; [subst n; reflexivity|]). contradiction.
Qed.

Lemma percent_is_safe o : (o < 256)%N -> all_characters query_safe (percent o) = true.
Proof.
  intros H. unfold percent. cbn [all_characters].
  rewrite !hex_digit_is_safe; [reflexivity| |].
  - apply N.mod_lt. discriminate.
  - apply N.Div0.div_lt_upper_bound. lia.
Qed.

Lemma utf8_octets cp : (cp < 1114112)%N -> Forall (fun o => (o < 256)%N) (utf8 cp).
Proof.
  intros H. unfold utf8.
  assert (M : forall x, (x mod 64 < 64)%N) by (intros; apply N.mod_lt; discriminate).
  destruct (cp <? 128)%N eqn:E1; [apply N.ltb_lt in E1; repeat constructor; lia|].
  destruct (cp <? 2048)%N eqn:E2.
  { apply N.ltb_lt in E2.
    assert (cp / 64 < 32)%N by (apply N.Div0.div_lt_upper_bound; lia).
    pose proof (M cp). repeat constructor; lia. }
  destruct (cp <? 65536)%N eqn:E3.
  { apply N.ltb_lt in E3.
    assert (cp / 4096 < 16)%N by (apply N.Div0.div_lt_upper_bound; lia).
    pose proof (M cp). pose proof (M (cp / 64)%N). repeat constructor; lia. }
  assert (cp / 262144 < 5)%N by (apply N.Div0.div_lt_upper_bound; lia).
  pose proof (M cp). pose proof (M (cp / 64)%N). pose proof (M (cp / 4096)%N).
  repeat constructor; lia.
Qed.

Lemma percent_encoded_is_safe cp :
  (cp < 1114112)%N -> all_characters query_safe (percent_encoded cp) = true.
Proof.
  intros H. unfold percent_encoded. pose proof (utf8_octets cp H) as F.
  induction F as [|o l Ho _ IH]; [reflexivity|].
  cbn [fold_right]. rewrite all_characters_app, IH, percent_is_safe by assumption.
  reflexivity.
Qed.

Lemma percent_encoded_not_empty cp r : (percent_encoded cp ++ r)%string <> EmptyString.
Proof.
  unfold percent_encoded, utf8.
  destruct (cp <? 128)%N; [discriminate|].
  destruct (cp <? 2048)%N; [discriminate|].
  destruct (cp <? 65536)%N; discriminate.
Qed.

Lemma unreserved_is_small c : unreserved c = true -> (c <= 126)%N.
Proof.
  intros H. destruct (N.le_gt_cases c 126) as [Hle|Hgt]; [assumption|].
  exfalso. revert H. unfold unreserved.
  replace (c <=? 90)%N with false by (symmetry; apply N.leb_gt; lia).
  replace (c <=? 122)%N with false by (symmetry; apply N.leb_gt; lia).
  replace (c <=? 57)%N with false by (symmetry; apply N.leb_gt; lia).
  rewrite !andb_false_r. cbn [orb existsb].
  repeat (match goal with
          | |- context [N.eqb c ?k] =>
              replace (N.eqb c k) with false by (symmetry; apply N.eqb_neq; lia)
          end).
  discriminate.
Qed.

Lemma unreserved_is_no_surrogate c :
  unreserved c = true -> is_low_surrogate c = false /\ is_high_surrogate c = false.
Proof.
  intros H. apply unreserved_is_small in H. unfold is_low_surrogate, is_high_surrogate.
  split; apply andb_false_iff; left; apply N.leb_gt; lia.
Qed.

Lemma unreserved_is_safe c : unreserved c = true -> query_safe (ascii_of_N c) = true.
Proof.
  intros H. unfold query_safe. pose proof (unreserved_is_small c H).
  rewrite N_ascii_embedding by lia. now rewrite H.
Qed.

(** What encodeURIComponent gives for a string of 16-bit code units. *)
Lemma encodeURIComponent_outcome s :
  Forall (fun c => (c < 65536)%N) s ->
  if well_formed s
  then exists e, encodeURIComponent s = Returned e
                 /\ all_characters query_safe e = true
                 /\ (s <> [] -> e <> EmptyString)
  else encodeURIComponent s = Thrown "URIError".
Proof.
  enough (G : forall n s, (List.length s <= n)%nat ->
              Forall (fun c => (c < 65536)%N) s ->
              if well_formed s
              then exists e, encodeURIComponent s = Returned e
                             /\ all_characters query_safe e = true
                             /\ (s <> [] -> e <> EmptyString)
              else encodeURIComponent s = Thrown "URIError")
    by (apply (G (List.length s)); lia).
  clear s. induction n as [|n IH]; intros [|c s] L F; simpl in L; try lia.
  - exists EmptyString. repeat split. intros H. now contradiction H.
  - exists EmptyString. repeat split. intros H. now contradiction H.
  - inversion F as [|? ? Hc Fs]; subst. cbn [well_formed encodeURIComponent].
    destruct (unreserved c) eqn:U.
    + destruct (unreserved_is_no_surrogate c U) as [Hl Hh]. rewrite Hl, Hh.
      assert (Ls : (List.length s <= n)%nat) by lia.
      specialize (IH s Ls Fs). destruct (well_formed s).
      * destruct IH as (e & E & S & _). rewrite E. eexists. split; [reflexivity|]. split.
        -- cbn [all_characters]. now rewrite unreserved_is_safe, S.
        -- discriminate.
      * now rewrite IH.
    + destruct (is_low_surrogate c) eqn:Hl; [reflexivity|].
      destruct (is_high_surrogate c) eqn:Hh.
      * destruct s as [|d s]; [reflexivity|].
        destruct (is_low_surrogate d) eqn:Hd; [|reflexivity]. cbn [andb].
        inversion Fs as [|? ? Hd16 Fs']; subst.
        assert (Ls : (List.length s <= n)%nat) by (simpl in L; lia).
        specialize (IH s Ls Fs'). destruct (well_formed s).
        -- destruct IH as (e & E & S & _). rewrite E. eexists. split; [reflexivity|]. split.
           ++ rewrite all_characters_app, S, percent_encoded_is_safe; [reflexivity|].
              unfold is_high_surrogate in Hh. unfold is_low_surrogate in Hd.
              apply andb_true_iff in Hh. apply andb_true_iff in Hd.
              destruct Hh as [Hh1 Hh2]. destruct Hd as [Hd1 Hd2].
              apply N.leb_le in Hh1, Hh2, Hd1, Hd2. lia.
           ++ intros _. apply percent_encoded_not_empty.
        -- now rewrite IH.
      * assert (Ls : (List.length s <= n)%nat) by lia.
        specialize (IH s Ls Fs). destruct (well_formed s).
        -- destruct IH as (e & E & S & _). rewrite E. eexists. split; [reflexivity|]. split.
           ++ rewrite all_characters_app, S, percent_encoded_is_safe; [reflexivity|lia].
           ++ intros _. apply percent_encoded_not_empty.
        -- now rewrite IH.
Qed.

Lemma greeting_is_plain : Forall (fun c => (c < 65536)%N) greeting.
Proof. repeat constructor. Qed.

(** openWhatsApp, for a message of 16-bit code units.  The text sent is the
    message, or the greeting when the message is missing or empty.  When
    that text has no lone surrogate the function opens
    https://wa.me/6281354803858?text= followed by a non-empty encoding made
    of unreserved characters and percent escapes only: no character of the
    message can end the parameter or add another one.  When the text has a
    lone surrogate, encodeURIComponent throws a URIError and nothing is
    opened. *)
Theorem whatsapp_link_is_escaped_or_refused (argument : option js_string)
    (H16 : Forall (fun c => (c < 65536)%N) (message_sent argument)) :
  if well_formed (message_sent argument)
  then exists e, openWhatsApp argument
                 = Returned ("https://wa.me/6281354803858?text=" ++ e)%string
                 /\ e <> EmptyString
                 /\ all_characters query_safe e = true
  else openWhatsApp argument = Thrown "URIError".
Proof.
  assert (E : openWhatsApp argument
              = match encodeURIComponent (message_sent argument) with
                | Thrown e => Thrown e
                | Returned e => Returned ("https://wa.me/6281354803858?text=" ++ e)%string
                end).
  { unfold openWhatsApp, message_sent. destruct argument as [[|c m]|]; reflexivity. }
  assert (N : message_sent argument <> []).
  { unfold message_sent. destruct argument as [[|c m]|]; discriminate. }
  pose proof (encodeURIComponent_outcome (message_sent argument) H16) as O.
  destruct (well_formed (message_sent argument)).
  - destruct O as (e & Oe & S & Ne). exists e. rewrite E, Oe. auto.
  - now rewrite E, O.
Qed.

Lemma whatsapp_link_is_escaped_or_refused_witness :
  (exists e, openWhatsApp (Some [72; 105; 32; 38; 233; 55357; 56832]%N)
             = Returned ("https://wa.me/6281354803858?text=" ++ e)%string
             /\ e <> EmptyString
             /\ all_characters query_safe e = true)
  /\ openWhatsApp (Some [72; 55357]%N) = Thrown "URIError".
Proof.
  split.
  - apply (whatsapp_link_is_escaped_or_refused (Some [72; 105; 32; 38; 233; 55357; 56832]%N)).
    repeat constructor.
  - apply (whatsapp_link_is_escaped_or_refused (Some [72; 55357]%N)).
    repeat constructor.
Defined.

(** ** main.js: the login button *)

Lemma handle_keeps_coherence btn c :
  button_is_coherent btn -> button_is_coherent (handle btn c).
Proof.
  intros H. destruct c as [[event user] q]. unfold handle, Main_js.on_auth_state_change.
  destruct event.
  - destruct user; [|exact H]. destruct q as [|[[|p ps]|]]; try exact H.
    right. exists p. split; reflexivity.
  - now left.
  - exact H.
Qed.

Lemma dashboard_click_page p w :
  In (Main_js.location_href (Main_js.dashboard_click p w)) pages.
Proof.
  unfold Main_js.dashboard_click, pages.
  destruct (Main_js.strict_equals (Main_js.role p) "admin"); [simpl; tauto|].
  destruct (Main_js.strict_equals (Main_js.role p) "user"); [simpl; tauto|].
  destruct (Main_js.strict_equals (Main_js.role p) "mitra"); simpl; tauto.
Qed.



(** ** What statements keep *)

Lemma run_app_err a b s e : run a s = Err e -> run (a ++ b) s = Err e.
Proof.
  revert s. induction a as [|st a IH]; simpl; intros s H; [discriminate|].
  destruct (st s) as [s1|e1]; simpl in *; [now apply IH|exact H].
Qed.

Lemma run_app_ok a b s s1 : run a s = Ok s1 -> run (a ++ b) s = run b s1.
Proof.
  revert s. induction a as [|st a IH]; simpl; intros s H; [now inversion H|].
  destruct (st s) as [s2|e]; simpl in *; [now apply IH|discriminate].
Qed.

Lemma has_arbiter_backs c tb : has_arbiter c tb = existsb (backs c) (t_constraints tb).
Proof. reflexivity. Qed.

Lemma same_shapes_refl s : same_shapes s s.
Proof. now intros t. Qed.

Lemma same_shapes_trans s1 s2 s3 : same_shapes s1 s2 -> same_shapes s2 s3 -> same_shapes s1 s3.
Proof. intros H1 H2 t. now rewrite H2, H1. Qed.

Lemma same_shapes_set_rows t tb rs s :
  get_table s t = Some tb -> same_shapes s (set_table t (with_rows tb rs) s).
Proof.
  intros H t'. rewrite get_set_table. destruct (String.eqb t t') eqn:E; [|reflexivity].
  apply String.eqb_eq in E. subst t'. now rewrite H.
Qed.

Lemma same_shapes_table s s' t tb :
  same_shapes s s' -> get_table s t = Some tb ->
  exists tb', get_table s' t = Some tb'
              /\ t_columns tb' = t_columns tb /\ t_constraints tb' = t_constraints tb
              /\ t_rls tb' = t_rls tb /\ t_policies tb' = t_policies tb.
Proof.
  intros H Ht. specialize (H t). rewrite Ht in H.
  destruct (get_table s' t) as [tb'|]; [|discriminate].
  exists tb'. split; [reflexivity|]. simpl in H. inversion H. auto.
Qed.

Lemma same_shapes_no_table s s' t :
  same_shapes s s' -> get_table s t = None -> get_table s' t = None.
Proof.
  intros H Ht. specialize (H t). rewrite Ht in H.
  now destruct (get_table s' t).
Qed.

(** *** Statements that write rows only *)

Lemma insert_row_shapes t cols vals oc s s' res :
  insert_row t cols vals oc s = Ok (s', res) -> same_shapes s s'.
Proof.
  unfold insert_row. intros H.
  destruct (get_table s t) as [tb|] eqn:Ht; [|discriminate].
  destruct (find _ cols); [discriminate|].
  destruct (arbiter_missing oc tb); [discriminate|].
  destruct (null_column tb _); [discriminate|].
  destruct (find (clash oc _) (t_rows tb)) as [old|].
  - destruct oc as [|c|c sets]; try (inversion H; subst; apply same_shapes_refl).
    unfold conflict_update in H.
    destruct (null_column tb _); [discriminate|].
    destruct (first_broken _ _ _ _); [discriminate|].
    inversion H; subst. now apply same_shapes_set_rows.
  - unfold plain_insert in H.
    destruct (first_broken _ _ _ _); [discriminate|].
    inversion H; subst. now apply same_shapes_set_rows.
Qed.

Lemma insert_into_shapes t cols L oc : forall s s',
  insert_into t cols L oc s = Ok s' -> same_shapes s s'.
Proof.
  induction L as [|vals L IH]; simpl; intros s s' H.
  - inversion H. apply same_shapes_refl.
  - destruct (insert_row t cols vals oc s) as [[s1 r]|e] eqn:E; [|discriminate].
    simpl in H. eapply same_shapes_trans; [eapply insert_row_shapes; exact E|].
    now apply IH.
Qed.

Lemma fold_left_err {A : Type} (f : result store -> A -> result store) (l : list A) e :
  (forall a, f (Err e) a = Err e) -> fold_left f l (Err e) = Err e.
Proof. intros H. induction l as [|a l IH]; simpl; [reflexivity|]. now rewrite H. Qed.

Lemma delete_where_shapes fuel : forall t w s s',
  delete_where fuel t w s = Ok s' -> same_shapes s s'.
Proof.
  induction fuel as [|fuel IH]; intros t w s s' H; [discriminate|].
  cbn [delete_where] in H.
  destruct (get_table s t) as [tb|] eqn:Ht; [|discriminate].
  match type of H with
  | bind (fold_left ?F ?l (Ok s)) _ = _ => set (F0 := F) in H; set (l0 := l) in H
  end.
  assert (G : forall l s0 s1, same_shapes s s0 -> fold_left F0 l (Ok s0) = Ok s1 ->
                              same_shapes s s1).
  { clear H. induction l as [|e l IHl]; cbn [fold_left]; intros s0 s1 H0 H1.
    - inversion H1; subst. exact H0.
    - destruct (F0 (Ok s0) e) as [s2|er] eqn:E2.
      + apply (IHl s2 s1); [|exact H1].
        eapply same_shapes_trans; [exact H0|].
        unfold F0 in E2. cbn [bind] in E2.
        destruct (con_kind_of (snd e)) as [c|c|c rt rc a|p];
          try (inversion E2; subst; apply same_shapes_refl).
        destruct a.
        * destruct (existsb _ _); [discriminate|]. inversion E2; subst. apply same_shapes_refl.
        * destruct (existsb _ _); [discriminate|]. inversion E2; subst. apply same_shapes_refl.
        * eapply IH. exact E2.
        * destruct (get_table s0 (fst e)) as [tb'|] eqn:E'.
          -- inversion E2; subst. now apply same_shapes_set_rows.
          -- inversion E2; subst. apply same_shapes_refl.
      + rewrite fold_left_err in H1; [discriminate|]. reflexivity. }
  destruct (fold_left F0 l0 (Ok s)) as [s1|e] eqn:E1; [|discriminate].
  cbn [bind] in H.
  pose proof (G l0 s s1 (same_shapes_refl s) E1) as H1.
  destruct (get_table s1 t) as [tb1|] eqn:Ht1; [|discriminate].
  inversion H; subst.
  eapply same_shapes_trans; [exact H1|]. now apply same_shapes_set_rows.
Qed.

Lemma delete_from_shapes t w s s' : delete_from t w s = Ok s' -> same_shapes s s'.
Proof. apply delete_where_shapes. Qed.

(** *** A property of one table's constraints and policies, statement by
    statement *)

Section Table_invariant.

Variable T : string.
Variable absent : Prop.
Variable Q : list constraint -> list policy -> Prop.

Let inv := table_invariant T absent Q.

Lemma invariant_set_table t tb s :
  inv (set_table t tb s)
  <-> if String.eqb t T then Q (t_constraints tb) (t_policies tb) else inv s.
Proof.
  unfold inv, table_invariant. rewrite get_set_table.
  now destruct (String.eqb t T).
Qed.

Lemma invariant_same_tables s s' : st_tables s' = st_tables s -> inv s -> inv s'.
Proof. unfold inv, table_invariant, get_table. now intros ->. Qed.

Lemma invariant_same_shapes s s' : same_shapes s s' -> inv s -> inv s'.
Proof.
  unfold inv, table_invariant. intros H Hs.
  destruct (get_table s T) as [tb|] eqn:E.
  - destruct (same_shapes_table s s' T tb H E) as (tb' & -> & _ & -> & _ & ->). exact Hs.
  - now rewrite (same_shapes_no_table s s' T H E).
Qed.

Lemma keeps_create_extension n s s' :
  inv s -> create_extension_if_not_exists n s = Ok s' -> inv s'.
Proof. intros Hs H. inversion H; subst. now apply (invariant_same_tables s). Qed.

Lemma keeps_create_enum n labels s s' :
  inv s -> create_enum_if_not_exists n labels s = Ok s' -> inv s'.
Proof.
  unfold create_enum_if_not_exists. intros Hs H.
  destruct (lookup n (st_types s)); inversion H; subst; [exact Hs|].
  now apply (invariant_same_tables s).
Qed.

Lemma keeps_create_function n body s s' :
  inv s -> create_or_replace_function n body s = Ok s' -> inv s'.
Proof. intros Hs H. inversion H; subst. now apply (invariant_same_tables s). Qed.

Lemma keeps_drop_trigger n t s s' :
  inv s -> drop_trigger_if_exists n t s = Ok s' -> inv s'.
Proof. intros Hs H. inversion H; subst. now apply (invariant_same_tables s). Qed.

Lemma keeps_create_trigger n t f s s' :
  inv s -> create_trigger_after_insert n t f s = Ok s' -> inv s'.
Proof.
  unfold create_trigger_after_insert. intros Hs H.
  destruct (get_table s t); [|discriminate].
  destruct (lookup f (st_functions s)); [|discriminate].
  destruct (existsb _ _); [discriminate|].
  inversion H; subst. now apply (invariant_same_tables s).
Qed.

Lemma keeps_create_table t cols s s' :
  (String.eqb t T = true -> absent -> Q (flat_map (constraints_of_coldef t) cols) []) ->
  inv s -> create_table_if_not_exists t cols s = Ok s' -> inv s'.
Proof.
  unfold create_table_if_not_exists. intros Hq Hs H.
  destruct (get_table s t) as [tb|] eqn:Ht; [inversion H; subst; exact Hs|].
  destruct (missing_reference _ _ _); [discriminate|].
  inversion H; subst. apply invariant_set_table.
  destruct (String.eqb t T) eqn:E; [|exact Hs].
  apply Hq; [reflexivity|]. apply String.eqb_eq in E. subst t.
  unfold inv, table_invariant in Hs. now rewrite Ht in Hs.
Qed.

Lemma invariant_of_table s tb : get_table s T = Some tb -> inv s ->
  Q (t_constraints tb) (t_policies tb).
Proof. unfold inv, table_invariant. now intros ->. Qed.

Lemma keeps_add_column t cd s s' :
  (String.eqb t T = true ->
   forall cs ps, Q cs ps -> Q (cs ++ constraints_of_coldef t cd) ps) ->
  inv s -> add_column_if_not_exists t cd s = Ok s' -> inv s'.
Proof.
  unfold add_column_if_not_exists, add_column. intros Hq Hs H.
  destruct (has_column s t (cd_name cd)); [inversion H; subst; exact Hs|].
  destruct (get_table s t) as [tb|] eqn:Ht; [|discriminate].
  destruct (missing_reference _ _ _); [discriminate|].
  destruct (_ && _); [discriminate|].
  destruct (first_violated _ _ _); [discriminate|].
  inversion H; subst. apply invariant_set_table.
  destruct (String.eqb t T) eqn:E; [|exact Hs].
  cbn [t_constraints t_policies]. apply Hq; [reflexivity|].
  apply String.eqb_eq in E. subst t. now apply (invariant_of_table s).
Qed.

Lemma keeps_drop_column t c s s' :
  (String.eqb t T = true ->
   forall cs ps, Q cs ps -> Q (filter (fun k => negb (mentions c k)) cs) ps) ->
  inv s -> drop_column t c s = Ok s' -> inv s'.
Proof.
  unfold drop_column. intros Hq Hs H.
  destruct (get_table s t) as [tb|] eqn:Ht; [|discriminate].
  destruct (has_column_in c tb); [|discriminate].
  inversion H; subst. apply invariant_set_table.
  destruct (String.eqb t T) eqn:E; [|exact Hs].
  cbn [t_constraints t_policies]. apply Hq; [reflexivity|].
  apply String.eqb_eq in E. subst t. now apply (invariant_of_table s).
Qed.

Lemma keeps_drop_column_if_exists t c s s' :
  (String.eqb t T = true ->
   forall cs ps, Q cs ps -> Q (filter (fun k => negb (mentions c k)) cs) ps) ->
  inv s -> drop_column_if_exists t c s = Ok s' -> inv s'.
Proof.
  unfold drop_column_if_exists. intros Hq Hs H.
  destruct (has_column s t c); [now apply (keeps_drop_column t c s)|].
  now inversion H; subst.
Qed.

Lemma keeps_add_constraint t k s s' :
  (String.eqb t T = true -> forall cs ps, Q cs ps -> Q (cs ++ [k]) ps) ->
  inv s -> add_constraint t k s = Ok s' -> inv s'.
Proof.
  unfold add_constraint. intros Hq Hs H.
  destruct (get_table s t) as [tb|] eqn:Ht; [|discriminate].
  destruct (has_constraint_in _ _); [discriminate|].
  destruct (missing_reference _ _ _); [discriminate|].
  destruct (rows_satisfy _ _ _); [|discriminate].
  inversion H; subst. apply invariant_set_table.
  destruct (String.eqb t T) eqn:E; [|exact Hs].
  cbn [t_constraints t_policies with_constraints]. apply Hq; [reflexivity|].
  apply String.eqb_eq in E. subst t. now apply (invariant_of_table s).
Qed.

Lemma keeps_unless_constraint_named t n body s s' :
  (forall s s', inv s -> body s = Ok s' -> inv s') ->
  inv s -> unless_constraint_named t n body s = Ok s' -> inv s'.
Proof.
  unfold unless_constraint_named. intros Hb Hs H.
  destruct (get_table s t) as [tb|]; [|discriminate].
  destruct (has_constraint_in n tb); [now inversion H; subst|].
  now apply (Hb s).
Qed.

Lemma keeps_when (b : store -> bool) (st : step) s s' :
  (forall s s', inv s -> st s = Ok s' -> inv s') ->
  inv s -> (if b s then st s else Ok s) = Ok s' -> inv s'.
Proof.
  intros Hb Hs H. destruct (b s); [now apply (Hb s)|now inversion H; subst].
Qed.

Lemma keeps_enable_rls t s s' : inv s -> enable_rls t s = Ok s' -> inv s'.
Proof.
  unfold enable_rls. intros Hs H.
  destruct (get_table s t) as [tb|] eqn:Ht; [|discriminate].
  inversion H; subst. apply invariant_set_table.
  destruct (String.eqb t T) eqn:E; [|exact Hs].
  cbn [t_constraints t_policies with_rls].
  apply String.eqb_eq in E. subst t. now apply (invariant_of_table s).
Qed.

Lemma keeps_drop_policy n t s s' :
  (String.eqb t T = true -> forall cs ps, Q cs ps -> Q cs (drop_named n ps)) ->
  inv s -> drop_policy_if_exists n t s = Ok s' -> inv s'.
Proof.
  unfold drop_policy_if_exists. intros Hq Hs H.
  destruct (get_table s t) as [tb|] eqn:Ht; [|now inversion H; subst].
  inversion H; subst. apply invariant_set_table.
  destruct (String.eqb t T) eqn:E; [|exact Hs].
  cbn [t_constraints t_policies with_policies]. apply Hq; [reflexivity|].
  apply String.eqb_eq in E. subst t. now apply (invariant_of_table s).
Qed.

Lemma keeps_create_policy t p s s' :
  (String.eqb t T = true -> forall cs ps, Q cs ps -> Q cs (ps ++ [p])) ->
  inv s -> create_policy t p s = Ok s' -> inv s'.
Proof.
  unfold create_policy. intros Hq Hs H.
  destruct (get_table s t) as [tb|] eqn:Ht; [|discriminate].
  destruct (has_policy _ _); [discriminate|].
  inversion H; subst. apply invariant_set_table.
  destruct (String.eqb t T) eqn:E; [|exact Hs].
  cbn [t_constraints t_policies with_policies]. apply Hq; [reflexivity|].
  apply String.eqb_eq in E. subst t. now apply (invariant_of_table s).
Qed.

Lemma keeps_insert_into t cols L oc s s' :
  inv s -> insert_into t cols L oc s = Ok s' -> inv s'.
Proof. intros Hs H. eapply invariant_same_shapes; [eapply insert_into_shapes; exact H|exact Hs]. Qed.

Lemma keeps_delete_from t w s s' : inv s -> delete_from t w s = Ok s' -> inv s'.
Proof. intros Hs H. eapply invariant_same_shapes; [eapply delete_from_shapes; exact H|exact Hs]. Qed.

End Table_invariant.

(** ** Scripts that cannot succeed *)

Lemma existsb_filter_false {A : Type} (f g : A -> bool) (l : list A) :
  existsb f l = false -> existsb f (filter g l) = false.
Proof.
  induction l as [|a l IH]; simpl; [reflexivity|]. intros H.
  apply orb_false_iff in H. destruct H as [Ha Hl].
  destruct (g a); simpl; [rewrite Ha|]; now apply IH.
Qed.

Lemma unbacked_invariant s t c :
  unbacked s t c = true <-> table_invariant t True (no_arbiter_on c) s.
Proof.
  unfold unbacked, table_invariant, no_arbiter_on.
  destruct (get_table s t) as [tb|]; [|tauto].
  rewrite has_arbiter_backs, negb_true_iff. tauto.
Qed.

Lemma unbacked_table_invariant s t c :
  table_invariant t False (no_arbiter_on c) s
  <-> exists tb, get_table s t = Some tb /\ has_arbiter c tb = false.
Proof.
  unfold table_invariant, no_arbiter_on.
  destruct (get_table s t) as [tb|].
  - change (existsb (backs c) (t_constraints tb)) with (has_arbiter c tb).
    split; [eauto|]. now intros (tb' & E & H); inversion E; subst.
  - split; [contradiction|]. now intros (tb' & E & _).
Qed.

Lemma policy_table_invariant s t n :
  table_invariant t False (with_policy n) s
  <-> exists tb, get_table s t = Some tb /\ has_policy n (t_policies tb) = true.
Proof.
  unfold table_invariant, with_policy.
  destruct (get_table s t) as [tb|].
  - split; [eauto|]. now intros (tb' & E & H); inversion E; subst.
  - split; [contradiction|]. now intros (tb' & E & _).
Qed.

(** The side conditions of the lemmas on statements, for the two kinds of
    property. *)
Ltac table_side :=
  first
    [ let X := fresh in intros X; simpl in X; discriminate X
    | let F := fresh in intros _ F; first [contradiction F | reflexivity]
    | let Hq := fresh in
      intros _ ? ? Hq; unfold no_arbiter_on, with_policy in *;
      first [ exact Hq
            | rewrite existsb_app, Hq; reflexivity
            | apply existsb_filter_false; exact Hq
            | rewrite has_policy_app, Hq; reflexivity
            | rewrite has_policy_drop_named, Hq; reflexivity ] ].

(** One statement of a script that ran: the property goes over to the
    database the statement left. *)
Ltac table_statement :=
  match goal with
  | I : table_invariant ?T ?a ?Q ?s, H : run (?st :: ?rest) ?s = Ok ?s' |- _ =>
      let s1 := fresh "s" in
      let E := fresh "E" in
      let I1 := fresh "I" in
      apply run_cons in H; destruct H as (s1 & E & H);
      assert (I1 : table_invariant T a Q s1) by
        (first
           [ eapply keeps_create_extension; [exact I|exact E]
           | eapply keeps_create_enum; [exact I|exact E]
           | eapply keeps_create_function; [exact I|exact E]
           | eapply keeps_drop_trigger; [exact I|exact E]
           | eapply keeps_create_trigger; [exact I|exact E]
           | eapply keeps_enable_rls; [exact I|exact E]
           | eapply keeps_insert_into; [exact I|exact E]
           | eapply keeps_create_table; [|exact I|exact E]; table_side
           | eapply keeps_add_column; [|exact I|exact E]; table_side
           | eapply keeps_drop_column_if_exists; [|exact I|exact E]; table_side
           | eapply keeps_drop_policy; [|exact I|exact E]; table_side
           | eapply keeps_create_policy; [|exact I|exact E]; table_side
           | eapply keeps_unless_constraint_named; [|exact I|exact E];
             intros ? ? ? ?; eapply keeps_add_constraint; [|eassumption|eassumption];
             table_side
           | cbv beta in E;
             eapply (keeps_when T a Q (fun s => has_column s _ _) (drop_column _ _));
             [|exact I|exact E];
             intros ? ? ? ?; eapply keeps_drop_column; [|eassumption|eassumption];
             table_side ]);
      clear I E; try clear s
  end.

Lemma insert_into_unbacked t c cols vals L s :
  unbacked s t c = true ->
  exists e, insert_into t cols (vals :: L) (OnConflictDoNothing c) s = Err e.
Proof.
  unfold unbacked. intros H. cbn [insert_into]. unfold insert_row.
  destruct (get_table s t) as [tb|]; [|cbn [bind]; eauto].
  destruct (find _ cols); [cbn [bind]; eauto|].
  unfold arbiter_missing, conflict_target. rewrite H. cbn [bind]. eauto.
Qed.

Lemma schema_20250120120007_keeps_names_unbacked s s' :
  unbacked s "products" "name" = true ->
  run Migration_20250120120007.schema s = Ok s' ->
  unbacked s' "products" "name" = true.
Proof.
  intros I H. apply unbacked_invariant in I. apply unbacked_invariant.
  unfold Migration_20250120120007.schema in H.
  repeat table_statement.
  inversion H; subst. assumption.
Qed.

(** The script 20250120120007 cannot succeed on a database in which no
    primary key or unique constraint is on products.name, nor on one without
    a products table: none of its statements adds such a constraint, and its
    product seed inserts ON CONFLICT (name).  The script being one
    transaction, it leaves such a database as it was. *)
Theorem script_20250120120007_needs_unique_product_names (s : store)
    (H : unbacked s "products" "name" = true) :
  exists e, run Migration_20250120120007.script s = Err e.
Proof.
  unfold Migration_20250120120007.script.
  destruct (run Migration_20250120120007.schema s) as [s1|e] eqn:R.
  - rewrite (run_app_ok _ _ _ _ R). cbn [run].
    pose proof (schema_20250120120007_keeps_names_unbacked s s1 H R) as I.
    unfold Migration_20250120120007.seed.
    destruct (Migration_20250120120007.seed_categories s1) as [s2|e] eqn:C; [|simpl; eauto].
    cbn [bind].
    assert (I2 : unbacked s2 "products" "name" = true).
    { apply unbacked_invariant. apply unbacked_invariant in I.
      eapply keeps_insert_into; [exact I|exact C]. }
    unfold Migration_20250120120007.seed_products, sample_products_2.
    match goal with
    | |- context [insert_into "products" sample_product_columns (?v :: ?L) _ s2] =>
        destruct (insert_into_unbacked "products" "name" sample_product_columns v L s2 I2)
          as (e & ->)
    end.
    cbn [bind]. eauto.
  - rewrite (run_app_err _ _ _ _ R). eauto.
Qed.

Lemma script_20250120120007_needs_unique_product_names_witness :
  unbacked new_project "products" "name" = true
  /\ exists e, run Migration_20250120120007.script new_project = Err e.
Proof.
  split; [reflexivity|].
  apply (script_20250120120007_needs_unique_product_names new_project). reflexivity.
Defined.

Lemma insert_returning_id_unbacked t c cols vals sets s tb :
  get_table s t = Some tb -> has_arbiter c tb = false ->
  exists e, insert_returning_id t cols vals (OnConflictDoUpdate c sets) s = Err e.
Proof.
  intros Ht Ha. unfold insert_returning_id, insert_row. rewrite Ht.
  destruct (find _ cols); [cbn [bind]; eauto|].
  unfold arbiter_missing, conflict_target. rewrite Ha. cbn [bind negb]. eauto.
Qed.

Lemma schema_of_definitive_fix_keeps_categories s s' :
  table_invariant "categories" False (no_arbiter_on "name") s ->
  run Part_001_definitive_fix.schema s = Ok s' ->
  table_invariant "categories" False (no_arbiter_on "name") s'.
Proof.
  intros I H. unfold Part_001_definitive_fix.schema in H.
  repeat table_statement.
  inversion H; subst. assumption.
Qed.

(** The definitive fix of unnamed/part_001 cannot succeed on a database that
    has a categories table without a primary key or unique constraint on
    name: CREATE TABLE IF NOT EXISTS leaves that table as it is, no other
    statement of the script adds the constraint, and the category seed
    inserts ON CONFLICT (name).  The categories tables that the migrations
    20250120120002, 20250120120006 and 20250120120007 and the comprehensive
    fix create are of this kind: their unique column is slug. *)
Theorem definitive_fix_needs_unique_category_names (s : store) (tb : table)
    (Ht : get_table s "categories" = Some tb)
    (Ha : has_arbiter "name" tb = false) :
  exists e, run Part_001_definitive_fix.script s = Err e.
Proof.
  unfold Part_001_definitive_fix.script.
  destruct (run Part_001_definitive_fix.schema s) as [s1|e] eqn:R.
  - rewrite (run_app_ok _ _ _ _ R). cbn [run].
    assert (I : table_invariant "categories" False (no_arbiter_on "name") s1).
    { eapply schema_of_definitive_fix_keeps_categories; [|exact R].
      apply unbacked_table_invariant. eauto. }
    apply unbacked_table_invariant in I. destruct I as (tb1 & Ht1 & Ha1).
    unfold Part_001_definitive_fix.seed, Part_001_definitive_fix.seed_categories,
      Part_001_definitive_fix.upsert_category.
    destruct (insert_returning_id_unbacked "categories" "name" ["name"; "slug"]
                [VText "Tas"; VText "tas"] ["slug"] s1 tb1 Ht1 Ha1) as (e & ->).
    cbn [bind]. eauto.
  - rewrite (run_app_err _ _ _ _ R). eauto.
Qed.

Lemma definitive_fix_needs_unique_category_names_witness :
  get_table project_from_20250120120002 "categories"
  = Some (table_of project_from_20250120120002 "categories")
  /\ has_arbiter "name" (table_of project_from_20250120120002 "categories") = false
  /\ exists e, run Part_001_definitive_fix.script project_from_20250120120002 = Err e.
Proof.
  assert (Ht : get_table project_from_20250120120002 "categories"
               = Some (table_of project_from_20250120120002 "categories"))
    by (apply get_table_of; vm_compute; reflexivity).
  assert (Ha : has_arbiter "name" (table_of project_from_20250120120002 "categories") = false)
    by (vm_compute; reflexivity).
  split; [exact Ht|]. split; [exact Ha|].
  exact (definitive_fix_needs_unique_category_names project_from_20250120120002 _ Ht Ha).
Defined.

(** ** The comprehensive fix, run again *)

Lemma create_policy_gives t p s s' :
  create_policy t p s = Ok s' -> table_invariant t False (with_policy (pol_name p)) s'.
Proof.
  unfold create_policy. intros H.
  destruct (get_table s t) as [tb|]; [|discriminate].
  destruct (has_policy _ _); [discriminate|].
  inversion H; subst. apply invariant_set_table. rewrite String.eqb_refl.
  unfold with_policy. cbn [t_policies with_policies].
  rewrite has_policy_app. unfold has_policy at 2, has_name. simpl.
  rewrite String.eqb_refl. apply orb_true_r.
Qed.

Lemma bind_ok {A B : Type} (m : result A) (f : A -> result B) b :
  bind m f = Ok b -> exists a, m = Ok a /\ f a = Ok b.
Proof. destruct m as [a|e]; simpl; [eauto|discriminate]. Qed.

(** Takes apart a successful sequence of row statements, noting that each
    left the shapes of the tables as they were. *)
Ltac rows_only H :=
  repeat match type of H with
  | bind _ _ = Ok _ =>
      let s1 := fresh "s" in
      let E := fresh "E" in
      apply bind_ok in H; destruct H as (s1 & E & H); rows_only E
  | insert_into _ _ _ _ _ = Ok _ => apply insert_into_shapes in H
  | delete_from _ _ _ = Ok _ => apply delete_from_shapes in H
  end.

Ltac chain_shapes :=
  repeat match goal with
  | A : same_shapes ?a ?b, B : same_shapes ?b ?c |- _ =>
      pose proof (same_shapes_trans a b c A B); clear A B
  end.

Lemma comprehensive_seed_shapes s s' :
  Part_001_comprehensive_fix.seed s = Ok s' -> same_shapes s s'.
Proof.
  unfold Part_001_comprehensive_fix.seed, Part_001_comprehensive_fix.seed_categories,
    Part_001_comprehensive_fix.seed_products.
  intros H. rows_only H. chain_shapes. assumption.
Qed.

Lemma comprehensive_fix_leaves_its_policy s s' :
  run Part_001_comprehensive_fix.script s = Ok s' ->
  table_invariant "profiles" False
    (with_policy "Public profiles are viewable by everyone.") s'.
Proof.
  intros H. unfold Part_001_comprehensive_fix.script in H.
  apply run_app in H. destruct H as (s1 & H & Hseed).
  cbn [run] in Hseed.
  destruct (Part_001_comprehensive_fix.seed s1) as [s2|] eqn:S; [|discriminate].
  cbn [bind] in Hseed. inversion Hseed; subst s2.
  apply (invariant_same_shapes _ _ _ s1 s' (comprehensive_seed_shapes s1 s' S)).
  unfold Part_001_comprehensive_fix.schema in H.
  do 3 (apply run_cons in H; let E := fresh "E" in destruct H as (? & E & H); clear E).
  apply run_cons in H. destruct H as (s4 & E & H).
  apply create_policy_gives in E.
  change (pol_name Part_001_comprehensive_fix.public_profiles_are_viewable_by_everyone)
    with "Public profiles are viewable by everyone." in E.
  repeat table_statement.
  inversion H; subst. assumption.
Qed.

Lemma create_enum_runs n labels s :
  exists s1, create_enum_if_not_exists n labels s = Ok s1 /\ st_tables s1 = st_tables s.
Proof.
  unfold create_enum_if_not_exists. destruct (lookup n (st_types s)); eauto.
Qed.

Lemma run_cons_ok st rest s s1 : st s = Ok s1 -> run (st :: rest) s = run rest s1.
Proof. intros H. cbn [run]. now rewrite H. Qed.

Lemma run_cons_err st rest s e : st s = Err e -> run (st :: rest) s = Err e.
Proof. intros H. cbn [run]. now rewrite H. Qed.

Lemma create_table_skipped t cols s tb :
  get_table s t = Some tb -> create_table_if_not_exists t cols s = Ok s.
Proof. unfold create_table_if_not_exists. now intros ->. Qed.

Lemma create_policy_refused t p s tb :
  get_table s t = Some tb -> has_policy (pol_name p) (t_policies tb) = true ->
  create_policy t p s = Err (DuplicateObject (pol_name p)).
Proof. unfold create_policy. now intros -> ->. Qed.

Lemma comprehensive_fix_refused s tb :
  get_table s "profiles" = Some tb ->
  has_policy "Public profiles are viewable by everyone." (t_policies tb) = true ->
  run Part_001_comprehensive_fix.script s
  = Err (DuplicateObject "Public profiles are viewable by everyone.").
Proof.
  intros Ht Hp. apply run_app_err.
  unfold Part_001_comprehensive_fix.schema.
  destruct (create_enum_runs "user_role" user_role_labels s) as (s1 & E1 & Hs1).
  assert (H1 : get_table s1 "profiles" = Some tb) by (unfold get_table; now rewrite Hs1).
  rewrite (run_cons_ok _ _ s s1 E1).
  rewrite (run_cons_ok _ _ s1 s1 (create_table_skipped _ _ s1 tb H1)).
  rewrite (run_cons_ok _ _ s1 _ (enable_rls_ok "profiles" s1 tb H1)).
  apply run_cons_err.
  apply (create_policy_refused "profiles"
           Part_001_comprehensive_fix.public_profiles_are_viewable_by_everyone _
           (with_rls tb true)).
  - apply get_set_table_same.
  - exact Hp.
Qed.

(** The comprehensive fix of unnamed/part_001 never runs twice.  On whatever
    database it succeeds, running it again on the database it produced
    fails with duplicate_object on its first CREATE POLICY: the policy is
    there from the first run and the script has no DROP POLICY IF EXISTS
    for it. *)
Theorem comprehensive_fix_never_runs_twice (s s' : store)
    (H : run Part_001_comprehensive_fix.script s = Ok s') :
  run Part_001_comprehensive_fix.script s'
  = Err (DuplicateObject "Public profiles are viewable by everyone.").
Proof.
  apply comprehensive_fix_leaves_its_policy in H.
  apply policy_table_invariant in H. destruct H as (tb & Ht & Hp).
  now apply (comprehensive_fix_refused s' tb).
Qed.

Lemma comprehensive_fix_never_runs_twice_witness :
  run Part_001_comprehensive_fix.script new_project
  = Ok (unwrap (run Part_001_comprehensive_fix.script new_project))
  /\ run Part_001_comprehensive_fix.script
       (unwrap (run Part_001_comprehensive_fix.script new_project))
     = Err (DuplicateObject "Public profiles are viewable by everyone.").
Proof.
  assert (H : run Part_001_comprehensive_fix.script new_project
              = Ok (unwrap (run Part_001_comprehensive_fix.script new_project)))
    by (apply unwrap_ok; vm_compute; reflexivity).
  split; [exact H|].
  exact (comprehensive_fix_never_runs_twice new_project _ H).
Defined.

(** ** Clearing a table that others refer to *)

Lemma referencing_put t tb tb' l x :
  lookup t l = Some tb -> t_constraints tb' = t_constraints tb ->
  referencing {| st_extensions := []; st_types := []; st_tables := put t tb' l;
                 st_functions := []; st_triggers := [] |} x
  = referencing {| st_extensions := []; st_types := []; st_tables := l;
                   st_functions := []; st_triggers := [] |} x.
Proof.
  unfold referencing. cbn [st_tables]. intros H Hc.
  induction l as [|[k a] l IH]; [discriminate|].
  cbn [lookup put] in *. destruct (String.eqb k t).
  - inversion H; subst. cbn [flat_map fst snd]. now rewrite Hc.
  - cbn [flat_map]. now rewrite (IH H).
Qed.

Lemma referencing_set_rows t tb rs s x :
  get_table s t = Some tb ->
  referencing (set_table t (with_rows tb rs) s) x = referencing s x.
Proof.
  intros H. unfold get_table in H.
  exact (referencing_put t tb (with_rows tb rs) (st_tables s) x H eq_refl).
Qed.

Lemma insert_row_referencing t cols vals oc s s' res x :
  insert_row t cols vals oc s = Ok (s', res) -> referencing s' x = referencing s x.
Proof.
  unfold insert_row. intros H.
  destruct (get_table s t) as [tb|] eqn:Ht; [|discriminate].
  destruct (find _ cols); [discriminate|].
  destruct (arbiter_missing oc tb); [discriminate|].
  destruct (null_column tb _); [discriminate|].
  destruct (find (clash oc _) (t_rows tb)) as [old|].
  - destruct oc as [|c|c sets]; try (inversion H; subst; reflexivity).
    unfold conflict_update in H.
    destruct (null_column tb _); [discriminate|].
    destruct (first_broken _ _ _ _); [discriminate|].
    inversion H; subst. now apply referencing_set_rows.
  - unfold plain_insert in H.
    destruct (first_broken _ _ _ _); [discriminate|].
    inversion H; subst. now apply referencing_set_rows.
Qed.

Lemma insert_into_referencing t cols L oc x : forall s s',
  insert_into t cols L oc s = Ok s' -> referencing s' x = referencing s x.
Proof.
  induction L as [|vals L IH]; simpl; intros s s' H.
  - now inversion H.
  - destruct (insert_row t cols vals oc s) as [[s1 r]|e] eqn:E; [|discriminate].
    simpl in H. rewrite (IH _ _ H). eapply insert_row_referencing. exact E.
Qed.

(** With foreign keys that are all NO ACTION or RESTRICT, a DELETE is
    refused by the first of them through which a row refers to a row to be
    deleted, and otherwise removes the rows and nothing else. *)
Lemma delete_from_restricted t w s tb :
  get_table s t = Some tb ->
  forallb (fun e => restrictive (snd e)) (referencing s t) = true ->
  delete_from t w s
  = match find (refers_to s t w) (referencing s t) with
    | Some e => Err (ForeignKeyViolation (con_name (snd e)))
    | None => Ok (set_table t (with_rows tb (filter (fun r => negb (w r)) (t_rows tb))) s)
    end.
Proof.
  intros Ht Hr. unfold delete_from. cbn [delete_where]. rewrite Ht.
  match goal with
  | |- bind (fold_left ?F ?l (Ok s)) _ = _ => set (F0 := F)
  end.
  assert (G : forall l, forallb (fun e => restrictive (snd e)) l = true ->
              fold_left F0 l (Ok s)
              = match find (refers_to s t w) l with
                | Some e => Err (ForeignKeyViolation (con_name (snd e)))
                | None => Ok s
                end).
  { induction l as [|e l IHl]; cbn [fold_left find forallb]; intros Hl; [reflexivity|].
    apply andb_true_iff in Hl. destruct Hl as [He Hl].
    assert (E : F0 (Ok s) e = if refers_to s t w e
                              then Err (ForeignKeyViolation (con_name (snd e))) else Ok s).
    { unfold F0, refers_to, restrictive in *. cbn [bind].
      replace (rows_of s t) with (t_rows tb) by (unfold rows_of; now rewrite Ht).
      destruct (con_kind_of (snd e)) as [c|c|c rt rc a|p]; try discriminate He.
      destruct a; try discriminate He; reflexivity. }
    rewrite E. destruct (refers_to s t w e).
    - apply fold_left_err. reflexivity.
    - now apply IHl. }
  rewrite (G _ Hr). destruct (find (refers_to s t w) (referencing s t)); [reflexivity|].
  cbn [bind]. now rewrite Ht.
Qed.

Lemma existsb_more {A : Type} (f g : A -> bool) (l extra : list A) :
  (forall a, f a = true -> g a = true) ->
  existsb f l = true -> existsb g (l ++ extra) = true.
Proof.
  intros H E. apply existsb_exists in E. destruct E as (a & Ha & Fa).
  apply existsb_exists. exists a. split; [apply in_or_app; now left|now apply H].
Qed.

Lemma refers_to_kept s s' t e :
  keeps_rows s s' ->
  refers_to s t (fun _ => true) e = true -> refers_to s' t (fun _ => true) e = true.
Proof.
  intros K. unfold refers_to.
  destruct (con_kind_of (snd e)) as [c|c|c rt rc a|p]; try discriminate.
  destruct (K (fst e)) as [x ->]. destruct (K t) as [y ->].
  apply existsb_more. intros r'.
  assert (F : forall l : list row, filter (fun _ => true) l = l).
  { induction l as [|a0 l IH]; simpl; congruence. }
  rewrite !F. now apply existsb_more.
Qed.

Lemma clearing_seed_refused s s1 :
  keeps_rows s s1 ->
  referencing s1 "products" = referencing s "products" ->
  forallb (fun e => restrictive (snd e)) (referencing s "products") = true ->
  existsb (refers_to s "products" (fun _ => true)) (referencing s "products") = true ->
  forall rest : store -> result store,
  exists e, (s2 <- delete_from "products" (fun _ => true) s1 ;; rest s2) = Err e.
Proof.
  intros K R Hr Href rest.
  destruct (get_table s1 "products") as [tb|] eqn:Ht.
  - rewrite (delete_from_restricted "products" _ s1 tb Ht) by now rewrite R.
    rewrite R.
    destruct (find (refers_to s1 "products" (fun _ => true)) (referencing s "products"))
      as [e|] eqn:F; [cbn [bind]; eauto|].
    exfalso. apply existsb_exists in Href. destruct Href as (e & He & Hx).
    apply (find_none _ _ F) in He. rewrite (refers_to_kept s s1 _ e K Hx) in He. discriminate.
  - unfold delete_from. cbn [delete_where]. rewrite Ht. cbn [bind]. eauto.
Qed.

(** The seed steps of 20250120120006 and of the comprehensive fix begin
    their product seed with DELETE FROM public.products.  On a database
    whose foreign keys to products are all NO ACTION or RESTRICT, as
    order_items.product_id is in every script of the repository, the seed
    step fails as soon as one row, an order item say, refers to a product:
    these scripts cannot be run again on a shop that has taken an order. *)
Theorem reseed_is_refused_once_a_product_is_ordered (seed : step) (s : store)
    (Hseed : clears_products seed)
    (Hr : forallb (fun e => restrictive (snd e)) (referencing s "products") = true)
    (Href : existsb (refers_to s "products" (fun _ => true)) (referencing s "products")
            = true) :
  exists e, seed s = Err e.
Proof.
  destruct Hseed as [-> | ->].
  - unfold Migration_20250120120006.seed.
    destruct (Migration_20250120120006.seed_categories s) as [s1|e] eqn:C;
      [|cbn [bind]; eauto].
    cbn [bind]. unfold Migration_20250120120006.seed_products.
    apply (clearing_seed_refused s s1); try assumption.
    + eapply insert_into_keeps_rows; [|exact C]. reflexivity.
    + eapply insert_into_referencing. exact C.
  - unfold Part_001_comprehensive_fix.seed.
    destruct (Part_001_comprehensive_fix.seed_categories s) as [s1|e] eqn:C;
      [|cbn [bind]; eauto].
    cbn [bind]. unfold Part_001_comprehensive_fix.seed_products.
    apply (clearing_seed_refused s s1); try assumption.
    + unfold Part_001_comprehensive_fix.seed_categories in C.
      repeat (apply bind_ok in C; let E := fresh "E" in destruct C as (? & E & C);
              apply insert_into_keeps_rows in E; [|reflexivity]).
      apply insert_into_keeps_rows in C; [|reflexivity].
      repeat match goal with
      | A : keeps_rows ?a ?b, B : keeps_rows ?b ?c |- _ =>
          pose proof (keeps_rows_trans a b c A B); clear A B
      end.
      assumption.
    + unfold Part_001_comprehensive_fix.seed_categories in C.
      repeat (apply bind_ok in C; let E := fresh "E" in destruct C as (? & E & C);
              apply (insert_into_referencing _ _ _ _ "products") in E).
      apply (insert_into_referencing _ _ _ _ "products") in C.
      congruence.
Qed.

Lemma reseed_is_refused_once_a_product_is_ordered_witness :
  clears_products Migration_20250120120006.seed
  /\ forallb (fun e => restrictive (snd e)) (referencing ordering_shop "products") = true
  /\ existsb (refers_to ordering_shop "products" (fun _ => true))
       (referencing ordering_shop "products") = true
  /\ exists e, Migration_20250120120006.seed ordering_shop = Err e.
Proof.
  assert (Hseed : clears_products Migration_20250120120006.seed) by (left; reflexivity).
  assert (Hr : forallb (fun e => restrictive (snd e)) (referencing ordering_shop "products")
               = true) by (vm_compute; reflexivity).
  assert (Href : existsb (refers_to ordering_shop "products" (fun _ => true))
                   (referencing ordering_shop "products") = true)
    by (vm_compute; reflexivity).
  split; [exact Hseed|]. split; [exact Hr|]. split; [exact Href|].
  exact (reseed_is_refused_once_a_product_is_ordered _ ordering_shop Hseed Hr Href).
Defined.

(** ** Registration without a requested role *)

Section Roleless_identity.

Variables (s : store) (au pf : table) (id : N) (email : string) (meta : list (string * string)).

Hypothesis Hau : get_table s "auth.users" = Some au.
Hypothesis Hau_shape : identities_as_created au.
Hypothesis Hpf : get_table s "profiles" = Some pf.
Hypothesis Hpf_shape : profiles_as_created pf.
Hypothesis Hnew : unknown_identity s id.
Hypothesis Htg : profile_trigger_installed s handle_new_user.
Hypothesis Hnone : requested_role meta = None.

Let new : row :=
  build_row au ["id"; "email"; "raw_user_meta_data"] [VUuid id; VText email; VJson meta].

Let s1 : store := set_table "auth.users" (with_rows au (t_rows au ++ [new])) s.

Let proposed : list value := [VUuid id; json_text (VJson meta) "full_name"; VNull].

Let profile : row := build_row pf ["id"; "full_name"; "role"] proposed.

Lemma trigger_inserts_roleless :
  on_identity_created id email meta s
  = '(s', _) <- insert_row "profiles" ["id"; "full_name"; "role"] proposed NoOnConflict s1 ;;
    Ok s'.
Proof.
  destruct Htg as [Ht Hf].
  unfold on_identity_created.
  rewrite (identity_goes_in s au id email meta Hau Hau_shape Hnew). fold new s1.
  cbn [bind].
  replace (st_triggers s1) with (st_triggers s) by reflexivity.
  rewrite Ht. cbn [fold_left bind]. unfold fire. cbn [tg_function on_auth_user_created].
  replace (st_functions s1) with (st_functions s) by reflexivity.
  rewrite Hf. unfold handle_new_user.
  destruct (new_identity_cells au id email meta Hau_shape) as [Hid Hmeta].
  fold new in Hid, Hmeta. rewrite Hid, Hmeta.
  rewrite (requested_role_absent meta Hnone). reflexivity.
Qed.

Lemma profiles_still_there : get_table s1 "profiles" = Some pf.
Proof. unfold s1. rewrite get_set_table. exact Hpf. Qed.

Lemma roleless_refused :
  t_columns pf = Migration_20250120120006.profiles_columns ->
  on_identity_created id email meta s = Err (NotNullViolation "profiles" "role").
Proof.
  intros Hc. rewrite trigger_inserts_roleless.
  unfold insert_row. rewrite profiles_still_there.
  assert (Hshape :
    find (fun c => negb (has_column_in c pf)) ["id"; "full_name"; "role"] = None
    /\ null_column pf (build_row pf ["id"; "full_name"; "role"] proposed) = Some "role").
  { unfold has_column_in, null_column, build_row, proposed. rewrite Hc. split; reflexivity. }
  destruct Hshape as [-> ->]. reflexivity.
Qed.

Lemma roleless_profile_cells :
  In (t_columns pf) [Migration_20250120120002.profiles_columns;
                     Migration_20250120120007.profiles_columns] ->
  col profile "id" = VUuid id /\ col profile "role" = VNull
  /\ find (fun c => negb (has_column_in c pf)) ["id"; "full_name"; "role"] = None
  /\ null_column pf profile = None.
Proof.
  intros Hc. unfold profile, build_row, has_column_in, null_column, build_row, proposed.
  simpl in Hc. destruct Hc as [E|[E|[]]]; rewrite <- E; repeat split; reflexivity.
Qed.

Lemma roleless_registered :
  In (t_columns pf) [Migration_20250120120002.profiles_columns;
                     Migration_20250120120007.profiles_columns] ->
  registers_with_role s id email meta VNull.
Proof.
  intros Hc. destruct (roleless_profile_cells Hc) as (Hid & Hrole & Hf & Hn).
  destruct Hpf_shape as [_ Hk]. destruct Hnew as [_ Hx].
  unfold profiles_of_identity, rows_of in Hx. rewrite Hpf in Hx.
  exists (set_table "profiles" (with_rows pf (t_rows pf ++ [profile])) s1), profile.
  split; [|split].
  - rewrite trigger_inserts_roleless.
    unfold insert_row. rewrite profiles_still_there, Hf.
    change (arbiter_missing NoOnConflict pf) with false. cbv iota. fold profile. rewrite Hn.
    rewrite find_clash_no_conflict.
    unfold plain_insert, first_broken. rewrite Hk. unfold profiles_constraints. simpl find.
    replace (breaks s1 {| con_name := "profiles_pkey"; con_kind_of := PrimaryKey "id" |}
               (t_rows pf) profile) with false.
    + replace (breaks s1 {| con_name := "profiles_id_fkey";
                            con_kind_of := ForeignKey "id" "auth.users" "id" Cascade |}
                 (t_rows pf) profile) with false; [reflexivity|].
      change (false = negb (value_eqb (col profile "id") VNull)
                      && negb (existsb (fun r' => holds (sql_eq (col r' "id") (col profile "id")))
                                 (rows_of s1 "auth.users"))).
      rewrite Hid. unfold s1. rewrite rows_of_set_table. simpl. rewrite existsb_app. simpl.
      destruct (new_identity_cells au id email meta Hau_shape) as [Hnid _].
      fold new in Hnid. rewrite Hnid.
      replace (holds (sql_eq (VUuid id) (VUuid id))) with true
        by (symmetry; apply holds_sql_eq; split; [reflexivity | discriminate]).
      now rewrite !orb_true_r.
    + change (false = existsb (fun r' => holds (sql_eq (col r' "id") (col profile "id")))
                        (t_rows pf)).
      rewrite Hid. apply filter_nothing in Hx. now rewrite Hx.
  - unfold profiles_of_identity. rewrite rows_of_set_table. simpl.
    rewrite filter_app, Hx. simpl. rewrite Hid.
    replace (holds (sql_eq (VUuid id) (VUuid id))) with true
      by (symmetry; apply holds_sql_eq; split; [reflexivity | discriminate]).
    reflexivity.
  - exact Hrole.
Qed.


End Roleless_identity.

Lemma project_from_20250120120006_roleless :
  get_table project_from_20250120120006 "auth.users"
  = Some (table_of project_from_20250120120006 "auth.users")
  /\ identities_as_created (table_of project_from_20250120120006 "auth.users")
  /\ get_table project_from_20250120120006 "profiles"
     = Some (table_of project_from_20250120120006 "profiles")
  /\ profiles_as_created (table_of project_from_20250120120006 "profiles")
  /\ unknown_identity project_from_20250120120006 7
  /\ profile_trigger_installed project_from_20250120120006 handle_new_user.
Proof.
  split; [apply get_table_of; vm_compute; reflexivity|].
  split; [split; reflexivity|].
  split; [apply get_table_of; vm_compute; reflexivity|].
  split; [split; [right; left; reflexivity | reflexivity]|].
  split; [split; vm_compute; reflexivity|].
  split; reflexivity.
Qed.


(** ** Deleting a category under ON DELETE SET NULL *)

Lemma col_set_col_null c r x : holds (sql_eq (col (set_col c VNull r) c) x) = false.
Proof.
  induction r as [|[k v] r IH]; simpl; [reflexivity|].
  destruct (String.eqb k c) eqn:E; simpl; rewrite E; [reflexivity|exact IH].
Qed.



(** ** main.js: the mobile menu and the navigation bar *)

Import Page_chrome.

Lemma contains_toggle t u l :
  contains t (toggle u l) = if String.eqb t u then negb (contains u l) else contains t l.
Proof.
  unfold toggle. destruct (contains u l) eqn:E.
  - rewrite contains_remove. destruct (String.eqb t u) eqn:Etu; [reflexivity|].
    reflexivity.
  - rewrite contains_add. destruct (String.eqb t u) eqn:Etu; reflexivity.
Qed.

Lemma contains_on_scroll t nav y :
  contains t (on_scroll nav y)
  = if String.eqb t "bg-white/95" || String.eqb t "backdrop-blur-sm"
    then beyond_100 y else contains t nav.
Proof.
  unfold on_scroll. destruct (beyond_100 y).
  - rewrite !contains_add.
    destruct (String.eqb t "bg-white/95"), (String.eqb t "backdrop-blur-sm"); reflexivity.
  - rewrite !contains_remove.
    destruct (String.eqb t "bg-white/95"), (String.eqb t "backdrop-blur-sm"); reflexivity.
Qed.

(** Clicks on the menu button and scroll events, in any number.  After n
    clicks the mobile menu is hidden iff it was hidden and n is even, or it
    was shown and n is odd; its other classes are as they were.  After a
    sequence of scroll events the navigation bar carries bg-white/95 and
    backdrop-blur-sm iff the last position is beyond 100 pixels, whatever it
    carried before and whatever the earlier positions were; its other
    classes are as they were. *)
Theorem menu_flips_and_bar_follows_the_last_scroll
    (mobileMenu nav : class_list) (n : nat) (positions : list QArith_base.Q) (last : QArith_base.Q) :
  (forall t, contains t (Nat.iter n menu_button_click mobileMenu)
             = if String.eqb t "hidden"
               then (if Nat.even n then contains "hidden" mobileMenu
                     else negb (contains "hidden" mobileMenu))
               else contains t mobileMenu)
  /\ (forall t, contains t (fold_left on_scroll (positions ++ [last]) nav)
                = if String.eqb t "bg-white/95" || String.eqb t "backdrop-blur-sm"
                  then beyond_100 last else contains t nav).
Proof.
  split.
  - induction n as [|n IH]; intros t.
    + cbn [Nat.iter Nat.even nat_rect]. now destruct (String.eqb t "hidden") eqn:E;
        [apply String.eqb_eq in E; subst t|].
    + change (Nat.iter (S n) menu_button_click mobileMenu)
        with (menu_button_click (Nat.iter n menu_button_click mobileMenu)).
      unfold menu_button_click at 1. rewrite contains_toggle.
      destruct (String.eqb t "hidden") eqn:E; [|rewrite IH, E; reflexivity].
      rewrite (IH "hidden"). cbn [String.eqb Ascii.eqb Bool.eqb].
      rewrite Nat.even_succ, <- Nat.negb_even.
      destruct (Nat.even n); cbn [negb]; [reflexivity|apply negb_involutive].
  - intros t. rewrite fold_left_app. cbn [fold_left]. rewrite contains_on_scroll.
    destruct (String.eqb t "bg-white/95" || String.eqb t "backdrop-blur-sm") eqn:E;
      [reflexivity|].
    revert nav. induction positions as [|y ps IH]; intros nav; cbn [fold_left]; [reflexivity|].
    rewrite IH, contains_on_scroll, E. reflexivity.
Qed.
